(** * TheiaSfM: the reconstruction-builder orchestrator

    A shallow embedding of [src/theia/sfm/reconstruction_builder.cc] and of
    the collaborators it drives (reconstruction, view graph, track builder),
    followed by the properties of the orchestration loop.

    Conventions.
    - C++ objects mutated through pointers become values that are passed in
      and returned (explicit state passing).
    - A failed glog [CHECK] terminates the process; it is the [Aborted]
      outcome of the [result] type below, tagged with the check that fired.
    - The [while] loop of [BuildReconstruction] is driven by a fuel argument;
      running out of fuel is the [Timeout] outcome. *)

From stdpp Require Import base numbers option list strings gmap fin_maps fin_sets.

#[global] Set Warnings "-clear-no-such-hyp".

(** ** Identifiers (theia/sfm/types.h) *)

Abbreviation ViewId := N (only parsing).
Abbreviation TrackId := N (only parsing).
Abbreviation CameraIntrinsicsGroupId := N (only parsing).

(** theia/sfm/types.h is not among the sources: the identifiers are unsigned
    numbers and the sentinels are taken to be the largest 32-bit value. The
    properties below only use that a sentinel is some fixed identifier. *)
Definition kInvalidViewId : ViewId := 4294967295%N.
Definition kInvalidTrackId : TrackId := 4294967295%N.
Definition kInvalidCameraIntrinsicsGroupId : CameraIntrinsicsGroupId :=
  4294967295%N.

(** A feature is an image point; the builder only ever passes features on and
    the track builder only compares them for equality. *)
Abbreviation Feature := (Z * Z)%type (only parsing).

(** ** Outcomes of a call *)

Inductive abort : Type :=
  | CHECK_GT_num_threads      (* CHECK_GT(options.num_threads, 0) *)
  | CHECK_GetFilename         (* CHECK(GetFilenameFromFilepath(...)) *)
  | CHECK_EQ_NumViews_0       (* CHECK_EQ(view_graph_->NumViews(), 0) *)
  | CHECK_NE_view_id1         (* CHECK_NE(view_id1, kInvalidViewId) *)
  | CHECK_NE_view_id2         (* CHECK_NE(view_id2, kInvalidViewId) *)
  | CHECK_GE_NumViews_2       (* CHECK_GE(view_graph_->NumViews(), 2) *)
  | NullDereference.          (* a member call through a null pointer *)

Inductive result (A : Type) : Type :=
  | Returned (a : A)
  | Aborted (e : abort)
  | Timeout.
Arguments Returned {A} a.
Arguments Aborted {A} e.
Arguments Timeout {A}.

#[global] Instance result_ret : MRet result := λ A a, Returned a.

#[global] Instance result_bind : MBind result := λ A B k m,
  match m with
  | Returned a => k a
  | Aborted e => Aborted e
  | Timeout => Timeout
  end.

(** Dereferencing a possibly-null pointer. *)
Definition deref {A} (p : option A) : result A :=
  match p with
  | Some a => Returned a
  | None => Aborted NullDereference
  end.

(** ** Views and tracks *)

Record Prior := { is_set : bool }.

Record CameraIntrinsicsPrior := { focal_length : Prior }.

Definition unset_prior : CameraIntrinsicsPrior :=
  {| focal_length := {| is_set := false |} |}.

Module View.
Local Abbreviation prior_t := CameraIntrinsicsPrior (only parsing).

Record t := {
  Name : string;
  IsEstimated : bool;
  CameraIntrinsicsPrior : CameraIntrinsicsPrior;
  Group : option CameraIntrinsicsGroupId
}.

Definition SetCameraIntrinsicsPrior (p : prior_t) (v : t) : t :=
  {| Name := Name v; IsEstimated := IsEstimated v;
     CameraIntrinsicsPrior := p; Group := Group v |}.

Definition SetEstimated (e : bool) (v : t) : t :=
  {| Name := Name v; IsEstimated := e;
     CameraIntrinsicsPrior := CameraIntrinsicsPrior v; Group := Group v |}.
End View.

Module Track.
Record t := {
  IsEstimated : bool;
  Observations : list (ViewId * Feature)
}.

Definition SetEstimated (e : bool) (tr : t) : t :=
  {| IsEstimated := e; Observations := Observations tr |}.
End Track.

(** ** Reconstruction *)

Module Reconstruction.
(** Modelled from the spec: theia/sfm/reconstruction.{h,cc} is not among
    the sources. Section 3 of the specification gives the data model: a
    reconstruction holds views and tracks under stable identifiers that are
    never reused, a view carries a display name, an estimated flag and an
    optional calibration prior, a track a set of (view, observation) pairs
    and an estimated flag; removal excises the entry. The operations below
    are the ones reconstruction_builder.cc calls. *)
Record t := {
  views : gmap ViewId View.t;
  tracks : gmap TrackId Track.t;
  next_view_id : ViewId;
  next_track_id : TrackId
}.

Definition empty : t :=
  {| views := ∅; tracks := ∅; next_view_id := 0%N; next_track_id := 0%N |}.

Definition NumViews (r : t) : nat := size (views r).
Definition NumTracks (r : t) : nat := size (tracks r).

(** [ViewIds()] and [TrackIds()] return a fresh vector of the keys: the
    loops of the builder iterate over a snapshot. *)
Definition ViewIds (r : t) : list ViewId := (map_to_list (views r)).*1.
Definition TrackIds (r : t) : list TrackId := (map_to_list (tracks r)).*1.

(** [View(id)] and [Track(id)] return a null pointer for an unknown id. *)
Definition View (r : t) (id : ViewId) : option View.t := views r !! id.
Definition Track (r : t) (id : TrackId) : option Track.t := tracks r !! id.

(** Modelled from the spec: section 3, a view that is removed is excised from
    the reconstruction, not merely flagged. *)
Definition RemoveView (r : t) (id : ViewId) : t :=
  {| views := delete id (views r); tracks := tracks r;
     next_view_id := next_view_id r; next_track_id := next_track_id r |}.

(** Modelled from the spec: section 3, likewise for a track. *)
Definition RemoveTrack (r : t) (id : TrackId) : t :=
  {| views := views r; tracks := delete id (tracks r);
     next_view_id := next_view_id r; next_track_id := next_track_id r |}.

(** Modelled from the spec: section 3, a view has a display name; the lookup
    by name answers [kInvalidViewId] for an unknown name, which is what
    [AddTwoViewMatch] tests for. *)
Definition ViewIdFromName (r : t) (name : string) : ViewId :=
  match filter (λ kv, View.Name kv.2 = name) (map_to_list (views r)) with
  | kv :: _ => kv.1
  | [] => kInvalidViewId
  end.

(** Modelled from the spec: section 3, identifiers are stable and never
    reused, so a new view takes the next identifier. [AddView] answers
    [kInvalidViewId] when the view cannot be added, the case
    [AddViewToReconstruction] tests for; here: the name is already present. *)
Definition AddView (r : t) (name : string)
    (group : option CameraIntrinsicsGroupId) : ViewId * t :=
  if bool_decide (ViewIdFromName r name = kInvalidViewId) then
    let id := next_view_id r in
    (id,
     {| views := <[id := {| View.Name := name; View.IsEstimated := false;
                            View.CameraIntrinsicsPrior := unset_prior;
                            View.Group := group |}]> (views r);
        tracks := tracks r;
        next_view_id := N.succ id;
        next_track_id := next_track_id r |})
  else (kInvalidViewId, r).

(** Modelled from the spec: writing through [MutableView(id)] changes that
    view and nothing else. *)
Definition UpdateView (r : t) (id : ViewId) (f : View.t → View.t) : t :=
  {| views := alter f id (views r); tracks := tracks r;
     next_view_id := next_view_id r; next_track_id := next_track_id r |}.

Definition UpdateTrack (r : t) (id : TrackId) (f : Track.t → Track.t) : t :=
  {| views := views r; tracks := alter f id (tracks r);
     next_view_id := next_view_id r; next_track_id := next_track_id r |}.

(** Modelled from the spec: section 3, a track is a set of (view, observation)
    pairs with an estimated flag, under a fresh identifier. *)
Definition AddTrack (r : t) (obs : list (ViewId * Feature)) : TrackId * t :=
  let id := next_track_id r in
  (id,
   {| views := views r;
      tracks := <[id := {| Track.IsEstimated := false;
                           Track.Observations := obs |}]> (tracks r);
      next_view_id := next_view_id r;
      next_track_id := N.succ id |}).
End Reconstruction.

(** ** View graph *)

Module ViewGraph.
(** Modelled from the spec: theia/sfm/view_graph/view_graph.{h,cc} is not
    among the sources. Section 4.2 of the specification: edges are keyed by
    the unordered pair of their endpoints, at most one edge per pair,
    [AddEdge] inserts or overwrites, [RemoveView] deletes the view and every
    incident edge, and the queries are the view count, the edge count and
    the neighbour lookup. The comment in [AddMatchToViewGraph] says that the
    view graph requires the geometry it is handed to be the one from the
    smaller to the larger id and that the builder swaps for that purpose:
    the swap is therefore in the builder, and [AddEdge] stores the geometry
    it receives. *)
Record t (TwoViewInfo : Type) := {
  vertices : gmap ViewId (gset ViewId);
  edges : gmap (ViewId * ViewId) TwoViewInfo
}.
Arguments vertices {TwoViewInfo} _.
Arguments edges {TwoViewInfo} _.

Section ops.
Context {TwoViewInfo : Type}.
Implicit Types vg : t TwoViewInfo.

Definition empty : t TwoViewInfo := {| vertices := ∅; edges := ∅ |}.

Definition NumViews vg : nat := size (vertices vg).
Definition NumEdges vg : nat := size (edges vg).

Definition HasView vg (id : ViewId) : bool :=
  bool_decide (is_Some (vertices vg !! id)).

Definition GetNeighborIdsForView vg (id : ViewId) : option (gset ViewId) :=
  vertices vg !! id.

(** The key of an edge: the smaller id first. *)
Definition ViewIdPair (a b : ViewId) : ViewId * ViewId :=
  if (a <? b)%N then (a, b) else (b, a).

Definition GetEdge vg (a b : ViewId) : option TwoViewInfo :=
  edges vg !! ViewIdPair a b.

Definition add_neighbor (a b : ViewId)
    (vs : gmap ViewId (gset ViewId)) : gmap ViewId (gset ViewId) :=
  <[a := {[b]} ∪ default ∅ (vs !! a)]> vs.

(** Modelled from the spec: section 4.2, [AddEdge] inserts the edge of the
    pair or overwrites the existing one. *)
Definition AddEdge vg (a b : ViewId) (info : TwoViewInfo) : t TwoViewInfo :=
  {| vertices := add_neighbor b a (add_neighbor a b (vertices vg));
     edges := <[ViewIdPair a b := info]> (edges vg) |}.

(** Modelled from the spec: section 4.2, [RemoveView] deletes the view and
    every incident edge. *)
Definition RemoveView vg (id : ViewId) : t TwoViewInfo :=
  {| vertices := (λ s, s ∖ {[id]}) <$> delete id (vertices vg);
     edges := filter (λ kv, kv.1.1 ≠ id ∧ kv.1.2 ≠ id) (edges vg) |}.
End ops.
End ViewGraph.

(** ** Track builder *)

Module TrackBuilder.
(** Modelled from the spec: theia/sfm/track_builder.{h,cc} is not among the
    sources. Section 4.3 of the specification: [AddFeatureCorrespondence]
    unions the two (view, observation) keys into one connected component;
    [BuildTracks] turns each component into a track and drops a component
    whose view span is outside [min_length, max_length] or that holds two
    observations of one view. The union-find forest is kept as the list of
    its classes. *)
Record t := {
  min_track_length : Z;
  max_track_length : Z;
  components : list (list (ViewId * Feature))
}.

Definition Create (min_len max_len : Z) : t :=
  {| min_track_length := min_len; max_track_length := max_len;
     components := [] |}.

Definition class_of (k : ViewId * Feature)
    (cs : list (list (ViewId * Feature))) : list (ViewId * Feature) :=
  default [k] (head (filter (λ c, k ∈ c) cs)).

(** Modelled from the spec: section 4.3, the two keys end up in one
    component. *)
Definition AddFeatureCorrespondence (tb : t)
    (view_id1 : ViewId) (feature1 : Feature)
    (view_id2 : ViewId) (feature2 : Feature) : t :=
  let k1 := (view_id1, feature1) in
  let k2 := (view_id2, feature2) in
  let c1 := class_of k1 (components tb) in
  let c2 := class_of k2 (components tb) in
  let rest := filter (λ c, ¬ (k1 ∈ c ∨ k2 ∈ c)) (components tb) in
  {| min_track_length := min_track_length tb;
     max_track_length := max_track_length tb;
     components := (if bool_decide (k2 ∈ c1) then c1 else c1 ++ c2) :: rest |}.

Definition view_span (c : list (ViewId * Feature)) : nat :=
  length (remove_dups (c.*1)).

Definition keeps (tb : t) (c : list (ViewId * Feature)) : bool :=
  bool_decide (min_track_length tb ≤ Z.of_nat (view_span c)
               ≤ max_track_length tb)%Z
  && bool_decide (NoDup (c.*1)).

(** Modelled from the spec: section 4.3, every component that is kept
    becomes a track of the target reconstruction. *)
Definition BuildTracks (tb : t) (r : Reconstruction.t) : Reconstruction.t :=
  foldl (λ r c, if keeps tb c then snd (Reconstruction.AddTrack r c) else r)
        r (components tb).
End TrackBuilder.

(** ** Matches, the match database and the extractor *)

Record FeatureCorrespondence := {
  feature1 : Feature;
  feature2 : Feature
}.

Record ImagePairMatch (TwoViewInfo : Type) := {
  twoview_info : TwoViewInfo;
  correspondences : list FeatureCorrespondence
}.
Arguments twoview_info {TwoViewInfo} _.
Arguments correspondences {TwoViewInfo} _.

Module FeaturesAndMatchesDatabase.
(** Modelled from the spec: theia/matching/features_and_matches_database.h
    is not among the sources. Section 6 of the specification: the
    persistence layer is a key-value interface, looked up by image name or
    by image-pair name, and the core only calls its retrieval and
    enumeration operations. *)
Record t (TwoViewInfo : Type) := {
  intrinsics_priors : list (string * CameraIntrinsicsPrior);
  image_pair_matches : list ((string * string) * ImagePairMatch TwoViewInfo)
}.
Arguments intrinsics_priors {TwoViewInfo} _.
Arguments image_pair_matches {TwoViewInfo} _.

Section ops.
Context {TwoViewInfo : Type}.
Implicit Types db : t TwoViewInfo.

Definition NumMatches db : nat := length (image_pair_matches db).

Definition ImageNamesOfCameraIntrinsicsPriors db : list string :=
  (intrinsics_priors db).*1.

Definition GetCameraIntrinsicsPrior db (name : string)
    : CameraIntrinsicsPrior :=
  default unset_prior
    (snd <$> head (filter (λ kv, kv.1 = name) (intrinsics_priors db))).

Definition ImageNamesOfMatches db : list (string * string) :=
  (image_pair_matches db).*1.

Definition GetImagePairMatch db (image1 image2 : string)
    : option (ImagePairMatch TwoViewInfo) :=
  snd <$> head (filter (λ kv, kv.1 = (image1, image2))
                       (image_pair_matches db)).
End ops.
End FeaturesAndMatchesDatabase.

Module FeatureExtractorAndMatcher.
(** Modelled from the spec: theia/sfm/feature_extractor_and_matcher.{h,cc}
    is not among the sources, and section 1 of the specification places
    image decoding, descriptor extraction and pairwise matching outside the
    core. The model keeps what the builder hands over (the images with
    their priors, the masks, the forwarded options); what extraction and
    matching write into the database is a parameter of the builder. *)
Record Options := {
  num_threads : Z;
  only_calibrated_views : bool
}.

Record t := {
  options : Options;
  images : list (string * option CameraIntrinsicsPrior);
  masks : list (string * string)
}.

Definition Create (o : Options) : t :=
  {| options := o; images := []; masks := [] |}.

Definition AddImage (m : t) (image_filepath : string)
    (prior : option CameraIntrinsicsPrior) : bool * t :=
  (true, {| options := options m;
            images := images m ++ [(image_filepath, prior)];
            masks := masks m |}).

Definition AddMaskForFeaturesExtraction (m : t)
    (image_filepath mask_filepath : string) : t :=
  {| options := options m; images := images m;
     masks := masks m ++ [(image_filepath, mask_filepath)] |}.
End FeatureExtractorAndMatcher.

(** Monadic left fold: a [for] loop whose body may abort. *)
Fixpoint foldM {A B} (f : B → A → result B) (l : list A) (b : B) : result B :=
  match l with
  | [] => Returned b
  | a :: l => b' ← f b a; foldM f l b'
  end.

(** ** The reconstruction builder (reconstruction_builder.cc) *)

Record ReconstructionEstimatorSummary := {
  success : bool;
  estimated_views : list ViewId;
  estimated_tracks : list TrackId
}.

Record ReconstructionBuilderOptions (World : Type) := {
  rng : World;
  num_threads : Z;
  only_calibrated_views : bool;
  reconstruct_largest_connected_component : bool;
  min_track_length : Z;
  max_track_length : Z
}.
Arguments rng {World} _.
Arguments num_threads {World} _.
Arguments only_calibrated_views {World} _.
Arguments reconstruct_largest_connected_component {World} _.
Arguments min_track_length {World} _.
Arguments max_track_length {World} _.

(** The members of [ReconstructionBuilder]. The three owning pointers that a
    constructor may leave empty, or that are released later, are options.
    [rng_] is the object behind [options_.rng] and
    [options_.reconstruction_estimator_options.rng], one shared random source:
    the state that the whole-scene estimator and the geometric verification
    of the extractor read and advance. *)
Record ReconstructionBuilder (TwoViewInfo World : Type) := {
  options_ : ReconstructionBuilderOptions World;
  rng_ : World;
  image_filepaths_ : list string;
  reconstruction_ : Reconstruction.t;
  view_graph_ : ViewGraph.t TwoViewInfo;
  track_builder_ : option TrackBuilder.t;
  feature_extractor_and_matcher_ : option FeatureExtractorAndMatcher.t;
  features_and_matches_database_ :
    option (FeaturesAndMatchesDatabase.t TwoViewInfo)
}.
Arguments options_ {TwoViewInfo World} _.
Arguments rng_ {TwoViewInfo World} _.
Arguments image_filepaths_ {TwoViewInfo World} _.
Arguments reconstruction_ {TwoViewInfo World} _.
Arguments view_graph_ {TwoViewInfo World} _.
Arguments track_builder_ {TwoViewInfo World} _.
Arguments feature_extractor_and_matcher_ {TwoViewInfo World} _.
Arguments features_and_matches_database_ {TwoViewInfo World} _.

Section setters.
Context {TwoViewInfo World : Type}.
Implicit Types b : ReconstructionBuilder TwoViewInfo World.

Definition set_image_filepaths b (l : list string) :=
  {| options_ := options_ b; rng_ := rng_ b; image_filepaths_ := l;
     reconstruction_ := reconstruction_ b; view_graph_ := view_graph_ b;
     track_builder_ := track_builder_ b;
     feature_extractor_and_matcher_ := feature_extractor_and_matcher_ b;
     features_and_matches_database_ := features_and_matches_database_ b |}.

Definition set_reconstruction b (r : Reconstruction.t) :=
  {| options_ := options_ b; rng_ := rng_ b;
     image_filepaths_ := image_filepaths_ b;
     reconstruction_ := r; view_graph_ := view_graph_ b;
     track_builder_ := track_builder_ b;
     feature_extractor_and_matcher_ := feature_extractor_and_matcher_ b;
     features_and_matches_database_ := features_and_matches_database_ b |}.

Definition set_view_graph b (vg : ViewGraph.t TwoViewInfo) :=
  {| options_ := options_ b; rng_ := rng_ b;
     image_filepaths_ := image_filepaths_ b;
     reconstruction_ := reconstruction_ b; view_graph_ := vg;
     track_builder_ := track_builder_ b;
     feature_extractor_and_matcher_ := feature_extractor_and_matcher_ b;
     features_and_matches_database_ := features_and_matches_database_ b |}.

Definition set_track_builder b (tb : option TrackBuilder.t) :=
  {| options_ := options_ b; rng_ := rng_ b;
     image_filepaths_ := image_filepaths_ b;
     reconstruction_ := reconstruction_ b; view_graph_ := view_graph_ b;
     track_builder_ := tb;
     feature_extractor_and_matcher_ := feature_extractor_and_matcher_ b;
     features_and_matches_database_ := features_and_matches_database_ b |}.

Definition set_extractor b (m : option FeatureExtractorAndMatcher.t) :=
  {| options_ := options_ b; rng_ := rng_ b;
     image_filepaths_ := image_filepaths_ b;
     reconstruction_ := reconstruction_ b; view_graph_ := view_graph_ b;
     track_builder_ := track_builder_ b;
     feature_extractor_and_matcher_ := m;
     features_and_matches_database_ := features_and_matches_database_ b |}.

Definition set_database b
    (db : option (FeaturesAndMatchesDatabase.t TwoViewInfo)) :=
  {| options_ := options_ b; rng_ := rng_ b;
     image_filepaths_ := image_filepaths_ b;
     reconstruction_ := reconstruction_ b; view_graph_ := view_graph_ b;
     track_builder_ := track_builder_ b;
     feature_extractor_and_matcher_ := feature_extractor_and_matcher_ b;
     features_and_matches_database_ := db |}.

Definition set_rng b (w : World) :=
  {| options_ := options_ b; rng_ := w;
     image_filepaths_ := image_filepaths_ b;
     reconstruction_ := reconstruction_ b; view_graph_ := view_graph_ b;
     track_builder_ := track_builder_ b;
     feature_extractor_and_matcher_ := feature_extractor_and_matcher_ b;
     features_and_matches_database_ := features_and_matches_database_ b |}.
End setters.

(** *** The helpers of the anonymous namespace *)

Section namespace_helpers.
Context {TwoViewInfo : Type}.

(** theia/util/filesystem.h is not among the sources: the file-name
    extraction is a parameter; [None] stands for its [false] result. *)
Variable GetFilenameFromFilepath : string → bool → option string.

Definition AddViewToReconstruction (image_filepath : string)
    (intrinsics : option CameraIntrinsicsPrior)
    (intrinsics_group_id : CameraIntrinsicsGroupId)
    (reconstruction : Reconstruction.t) : result (bool * Reconstruction.t) :=
  match GetFilenameFromFilepath image_filepath true with
  | None => Aborted CHECK_GetFilename
  | Some image_filename =>
    let '(view_id, reconstruction) :=
      if bool_decide (intrinsics_group_id = kInvalidCameraIntrinsicsGroupId)
      then Reconstruction.AddView reconstruction image_filename None
      else Reconstruction.AddView reconstruction image_filename
             (Some intrinsics_group_id) in
    if bool_decide (view_id = kInvalidViewId) then
      Returned (false, reconstruction)
    else
      match intrinsics with
      | Some prior =>
        _ ← deref (Reconstruction.View reconstruction view_id);
        Returned (true,
                  Reconstruction.UpdateView reconstruction view_id
                    (View.SetCameraIntrinsicsPrior prior))
      | None => Returned (true, reconstruction)
      end
  end.

Definition CreateEstimatedSubreconstruction
    (input_reconstruction : Reconstruction.t) : Reconstruction.t :=
  let subreconstruction := input_reconstruction in
  let subreconstruction :=
    foldl (λ sub view_id,
             match Reconstruction.View sub view_id with
             | None => sub
             | Some view =>
               if negb (View.IsEstimated view)
               then Reconstruction.RemoveView sub view_id
               else sub
             end)
          subreconstruction (Reconstruction.ViewIds subreconstruction) in
  foldl (λ sub track_id,
           match Reconstruction.Track sub track_id with
           | None => sub
           | Some track =>
             if negb (Track.IsEstimated track)
             then Reconstruction.RemoveTrack sub track_id
             else sub
           end)
        subreconstruction (Reconstruction.TrackIds subreconstruction).

Definition RemoveEstimatedViewsAndTracks
    (reconstruction : Reconstruction.t) (view_graph : ViewGraph.t TwoViewInfo)
    : Reconstruction.t * ViewGraph.t TwoViewInfo :=
  let '(reconstruction, view_graph) :=
    foldl (λ '(r, vg) view_id,
             match Reconstruction.View r view_id with
             | None => (r, vg)
             | Some view =>
               if View.IsEstimated view
               then (Reconstruction.RemoveView r view_id,
                     ViewGraph.RemoveView vg view_id)
               else (r, vg)
             end)
          (reconstruction, view_graph)
          (Reconstruction.ViewIds reconstruction) in
  let reconstruction :=
    foldl (λ r track_id,
             match Reconstruction.Track r track_id with
             | None => r
             | Some track =>
               if Track.IsEstimated track
               then Reconstruction.RemoveTrack r track_id
               else r
             end)
          reconstruction (Reconstruction.TrackIds reconstruction) in
  (reconstruction, view_graph).
End namespace_helpers.

(** *** The member functions *)

Section builder.
Context {TwoViewInfo World : Type}.

(** theia/sfm/twoview_info.h is not among the sources: the geometry of a
    view pair and the function that re-expresses it with the two cameras
    exchanged are parameters. *)
Variable SwapCameras : TwoViewInfo → TwoViewInfo.

(** The whole-scene estimator is an external collaborator (section 1 of the
    specification). One call of [ReconstructionEstimator::Estimate] reads
    and writes the view graph, the reconstruction and the random source,
    and returns its summary. *)
Variable Estimate :
  World → ViewGraph.t TwoViewInfo → Reconstruction.t →
  ReconstructionEstimatorSummary * ViewGraph.t TwoViewInfo
  * Reconstruction.t * World.

Variable GetFilenameFromFilepath : string → bool → option string.

(** What a run of the extractor and matcher leaves in the database. The
    database constructor hands [options_.rng] to the geometric verification
    of the extractor (lines 186-189): the random source is one shared
    object, so the run reads the state [rng_] of the builder and leaves it
    advanced. *)
Variable ExtractAndMatch :
  World → FeatureExtractorAndMatcher.t →
  FeaturesAndMatchesDatabase.t TwoViewInfo →
  FeaturesAndMatchesDatabase.t TwoViewInfo * World.

Abbreviation Builder := (ReconstructionBuilder TwoViewInfo World).
Implicit Types b : Builder.

(** The constructor taking a reconstruction and a view graph. *)
Definition Create (options : ReconstructionBuilderOptions World)
    (reconstruction : Reconstruction.t)
    (view_graph : ViewGraph.t TwoViewInfo) : result Builder :=
  if bool_decide (0 < num_threads options)%Z then
    Returned {| options_ := options; rng_ := rng options;
                image_filepaths_ := [];
                reconstruction_ := reconstruction;
                view_graph_ := view_graph;
                track_builder_ := None;
                feature_extractor_and_matcher_ := None;
                features_and_matches_database_ := None |}
  else Aborted CHECK_GT_num_threads.

(** The constructor taking a features-and-matches database. The extractor it
    sets up shares the random source of the options (the assignment of
    [options_.rng] at lines 186-189 copies a shared pointer): its state is
    [rng_], which [ExtractAndMatch] is given and returns. *)
Definition CreateFromDatabase (options : ReconstructionBuilderOptions World)
    (features_and_matches_database : FeaturesAndMatchesDatabase.t TwoViewInfo)
    : result Builder :=
  if bool_decide (0 < num_threads options)%Z then
    let feam_options :=
      {| FeatureExtractorAndMatcher.num_threads := num_threads options;
         FeatureExtractorAndMatcher.only_calibrated_views :=
           only_calibrated_views options |} in
    Returned {| options_ := options; rng_ := rng options;
                image_filepaths_ := [];
                reconstruction_ := Reconstruction.empty;
                view_graph_ := ViewGraph.empty;
                track_builder_ :=
                  Some (TrackBuilder.Create (min_track_length options)
                                            (max_track_length options));
                feature_extractor_and_matcher_ :=
                  Some (FeatureExtractorAndMatcher.Create feam_options);
                features_and_matches_database_ :=
                  Some features_and_matches_database |}
  else Aborted CHECK_GT_num_threads.

(** The two overloads of [AddImage] (and of
    [AddImageWithCameraIntrinsicsPrior]) get two names: the one with an
    intrinsics group is [..InGroup]. *)
Definition AddImageInGroup b (image_filepath : string)
    (camera_intrinsics_group : CameraIntrinsicsGroupId)
    : result (bool * Builder) :=
  let b := set_image_filepaths b (image_filepaths_ b ++ [image_filepath]) in
  '(ok, r) ← AddViewToReconstruction GetFilenameFromFilepath image_filepath
               None camera_intrinsics_group (reconstruction_ b);
  let b := set_reconstruction b r in
  if negb ok then Returned (false, b)
  else
    feam ← deref (feature_extractor_and_matcher_ b);
    let '(ok, feam) :=
      FeatureExtractorAndMatcher.AddImage feam image_filepath None in
    Returned (ok, set_extractor b (Some feam)).

Definition AddImage b (image_filepath : string) : result (bool * Builder) :=
  AddImageInGroup b image_filepath kInvalidCameraIntrinsicsGroupId.

Definition AddImageWithCameraIntrinsicsPriorInGroup b
    (image_filepath : string)
    (camera_intrinsics_prior : CameraIntrinsicsPrior)
    (camera_intrinsics_group : CameraIntrinsicsGroupId)
    : result (bool * Builder) :=
  let b := set_image_filepaths b (image_filepaths_ b ++ [image_filepath]) in
  '(ok, r) ← AddViewToReconstruction GetFilenameFromFilepath image_filepath
               (Some camera_intrinsics_prior) camera_intrinsics_group
               (reconstruction_ b);
  let b := set_reconstruction b r in
  if negb ok then Returned (false, b)
  else
    feam ← deref (feature_extractor_and_matcher_ b);
    let '(ok, feam) :=
      FeatureExtractorAndMatcher.AddImage feam image_filepath
        (Some camera_intrinsics_prior) in
    Returned (ok, set_extractor b (Some feam)).

Definition AddImageWithCameraIntrinsicsPrior b (image_filepath : string)
    (camera_intrinsics_prior : CameraIntrinsicsPrior)
    : result (bool * Builder) :=
  AddImageWithCameraIntrinsicsPriorInGroup b image_filepath
    camera_intrinsics_prior kInvalidCameraIntrinsicsGroupId.

(** One turn of the loop of [RemoveUncalibratedViews]; the view pointer is
    used without a null test. *)
Definition RemoveUncalibratedViews_step b (view_id : ViewId)
    : result Builder :=
  view ← deref (Reconstruction.View (reconstruction_ b) view_id);
  if negb (is_set (focal_length (View.CameraIntrinsicsPrior view))) then
    Returned
      (set_view_graph
         (set_reconstruction b
            (Reconstruction.RemoveView (reconstruction_ b) view_id))
         (ViewGraph.RemoveView (view_graph_ b) view_id))
  else Returned b.

Definition RemoveUncalibratedViews b : result Builder :=
  foldM RemoveUncalibratedViews_step
        (Reconstruction.ViewIds (reconstruction_ b)) b.

Definition AddMaskForFeaturesExtraction b
    (image_filepath mask_filepath : string) : result (bool * Builder) :=
  feam ← deref (feature_extractor_and_matcher_ b);
  Returned (true,
            set_extractor b
              (Some (FeatureExtractorAndMatcher.AddMaskForFeaturesExtraction
                       feam image_filepath mask_filepath))).

Definition AddMatchToViewGraph b (view_id1 view_id2 : ViewId)
    (image_matches : ImagePairMatch TwoViewInfo) : Builder :=
  let twoview_info := twoview_info image_matches in
  let twoview_info :=
    (* if (view_id1 > view_id2) SwapCameras(&twoview_info); *)
    if (view_id2 <? view_id1)%N then SwapCameras twoview_info
    else twoview_info in
  set_view_graph b
    (ViewGraph.AddEdge (view_graph_ b) view_id1 view_id2 twoview_info).

Definition AddTracksForMatch b (view_id1 view_id2 : ViewId)
    (matches : ImagePairMatch TwoViewInfo) : result Builder :=
  foldM (λ b m,
           tb ← deref (track_builder_ b);
           Returned
             (set_track_builder b
                (Some (TrackBuilder.AddFeatureCorrespondence tb
                         view_id1 (feature1 m) view_id2 (feature2 m)))))
        (correspondences matches) b.

(** The test of the calibrated-only filter of [AddTwoViewMatch], with the
    evaluation order of [&&] and [||]. *)
Definition skips_match b (view1 view2 : option View.t) : result bool :=
  if only_calibrated_views (options_ b) then
    v1 ← deref view1;
    if negb (is_set (focal_length (View.CameraIntrinsicsPrior v1))) then
      Returned true
    else
      v2 ← deref view2;
      Returned (negb (is_set (focal_length (View.CameraIntrinsicsPrior v2))))
  else Returned false.

Definition AddTwoViewMatch b (image1 image2 : string)
    (matches : ImagePairMatch TwoViewInfo) : result (bool * Builder) :=
  let view_id1 := Reconstruction.ViewIdFromName (reconstruction_ b) image1 in
  let view_id2 := Reconstruction.ViewIdFromName (reconstruction_ b) image2 in
  if bool_decide (view_id1 = kInvalidViewId) then Aborted CHECK_NE_view_id1
  else if bool_decide (view_id2 = kInvalidViewId) then
    Aborted CHECK_NE_view_id2
  else
    let view1 := Reconstruction.View (reconstruction_ b) view_id1 in
    let view2 := Reconstruction.View (reconstruction_ b) view_id2 in
    skip ← skips_match b view1 view2;
    if (skip : bool) then Returned (true, b)
    else
      let b := AddMatchToViewGraph b view_id1 view_id2 matches in
      b ← AddTracksForMatch b view_id1 view_id2 matches;
      Returned (true, b).

Definition ExtractAndMatchFeatures b : result (bool * Builder) :=
  if bool_decide (ViewGraph.NumViews (view_graph_ b) = 0) then
    feam ← deref (feature_extractor_and_matcher_ b);
    db ← deref (features_and_matches_database_ b);
    let '(db, w) := ExtractAndMatch (rng_ b) feam db in
    let b := set_rng (set_database (set_extractor b None) (Some db)) w in
    (* Add the EXIF metadata to each view. *)
    b ← foldM (λ b name,
                 let view_id :=
                   Reconstruction.ViewIdFromName (reconstruction_ b) name in
                 _ ← deref (Reconstruction.View (reconstruction_ b) view_id);
                 let intrinsics_prior :=
                   FeaturesAndMatchesDatabase.GetCameraIntrinsicsPrior
                     db name in
                 Returned
                   (set_reconstruction b
                      (Reconstruction.UpdateView (reconstruction_ b) view_id
                         (View.SetCameraIntrinsicsPrior intrinsics_prior))))
              (FeaturesAndMatchesDatabase.ImageNamesOfCameraIntrinsicsPriors
                 db) b;
    (* Add the matches to the view graph and reconstruction. *)
    b ← foldM (λ b match_key,
                 m ← deref (FeaturesAndMatchesDatabase.GetImagePairMatch
                              db match_key.1 match_key.2);
                 '(_, b) ← AddTwoViewMatch b match_key.1 match_key.2 m;
                 Returned b)
              (FeaturesAndMatchesDatabase.ImageNamesOfMatches db) b;
    Returned (true, b)
  else Aborted CHECK_EQ_NumViews_0.

(** The [while] loop of [BuildReconstruction]. [reconstructions] is the
    caller's output vector. *)
Fixpoint EstimationLoop (fuel : nat) b
    (reconstructions : list Reconstruction.t)
    : result (bool * Builder * list Reconstruction.t) :=
  if bool_decide (1 < Reconstruction.NumViews (reconstruction_ b)) then
    match fuel with
    | O => Timeout
    | S fuel =>
      let '(summary, vg, r, w) :=
        Estimate (rng_ b) (view_graph_ b) (reconstruction_ b) in
      let b := set_rng (set_view_graph (set_reconstruction b r) vg) w in
      (* If a reconstruction can no longer be estimated, return. *)
      if negb (success summary) then
        Returned (bool_decide (0 < length reconstructions), b,
                  reconstructions)
      else
        let reconstructions :=
          reconstructions
          ++ [CreateEstimatedSubreconstruction (reconstruction_ b)] in
        let '(r, vg) :=
          RemoveEstimatedViewsAndTracks (reconstruction_ b)
                                        (view_graph_ b) in
        let b := set_view_graph (set_reconstruction b r) vg in
        if reconstruct_largest_connected_component (options_ b) then
          Returned (bool_decide (0 < length reconstructions), b,
                    reconstructions)
        else if bool_decide
                  (Reconstruction.NumViews (reconstruction_ b) < 3) then
          Returned (bool_decide (0 < length reconstructions), b,
                    reconstructions)
        else EstimationLoop fuel b reconstructions
    end
  else Returned (true, b, reconstructions).

(** The part of [BuildReconstruction] before the loop. *)
Definition PrepareReconstruction b : result Builder :=
  if bool_decide (2 ≤ ViewGraph.NumViews (view_graph_ b)) then
    (* Build tracks if they were not explicitly specified. *)
    b ← (if bool_decide
              (Reconstruction.NumTracks (reconstruction_ b) = 0) then
           tb ← deref (track_builder_ b);
           Returned (set_reconstruction b
                       (TrackBuilder.BuildTracks tb (reconstruction_ b)))
         else Returned b);
    (* Remove uncalibrated views from the reconstruction and view graph. *)
    if only_calibrated_views (options_ b) then RemoveUncalibratedViews b
    else Returned b
  else Aborted CHECK_GE_NumViews_2.

Definition BuildReconstruction (fuel : nat) b
    (reconstructions : list Reconstruction.t)
    : result (bool * Builder * list Reconstruction.t) :=
  b ← PrepareReconstruction b;
  EstimationLoop fuel b reconstructions.
End builder.

(** ** Stand-ins for the external collaborators

    The examples below run the builder with simple stand-ins: a one-dimensional
    "geometry" (the signed offset of the second camera from the first), a
    file-name function that keeps the path, a database that the extractor
    leaves as it is, and a whole-scene estimator that estimates one connected
    component of the view graph per call. *)

Module Mock.
Definition SwapCameras (offset : Z) : Z := (- offset)%Z.

Definition GetFilenameFromFilepath (path : string) (with_extension : bool)
    : option string := Some path.

Definition ExtractAndMatch (log : list Reconstruction.t)
    (m : FeatureExtractorAndMatcher.t)
    (db : FeaturesAndMatchesDatabase.t Z)
    : FeaturesAndMatchesDatabase.t Z * list Reconstruction.t :=
  (db, log).

(** The views reachable from [s] in one step. *)
Definition reach_step (vg : ViewGraph.t Z) (s : gset N) : gset N :=
  s ∪ ⋃ ((λ id, default ∅ (ViewGraph.vertices vg !! id)) <$> elements s).

Definition component (vg : ViewGraph.t Z) (seed : N) : gset N :=
  Nat.iter (ViewGraph.NumViews vg) (reach_step vg) {[seed]}.

Definition failed : ReconstructionEstimatorSummary :=
  {| success := false; estimated_views := []; estimated_tracks := [] |}.

Definition seen_twice (comp : gset N) (r : Reconstruction.t) (id : N)
    : bool :=
  match Reconstruction.Track r id with
  | Some tr =>
    bool_decide (2 ≤ length (filter (λ o, o.1 ∈ comp)
                                    (Track.Observations tr)))
  | None => false
  end.

(** The stand-in estimator. Its state is the log of the reconstructions it
    was called on. It picks the smallest view that is in the view graph,
    fails when the component of that view has fewer than two views, and
    otherwise flags as estimated the views of the component and the tracks
    seen by at least two of them. *)
Definition Estimate (log : list Reconstruction.t) (vg : ViewGraph.t Z)
    (r : Reconstruction.t)
    : ReconstructionEstimatorSummary * ViewGraph.t Z * Reconstruction.t
      * list Reconstruction.t :=
  let log := log ++ [r] in
  match filter (λ id, is_Some (ViewGraph.vertices vg !! id))
               (Reconstruction.ViewIds r) with
  | [] => (failed, vg, r, log)
  | id0 :: ids =>
    let comp := component vg (foldr N.min id0 ids) in
    let est_views := filter (λ id, id ∈ comp) (Reconstruction.ViewIds r) in
    if (length est_views <? 2)%nat then (failed, vg, r, log)
    else
      let est_tracks :=
        filter (λ id, seen_twice comp r id = true)
               (Reconstruction.TrackIds r) in
      let r := foldl (λ r id,
                        Reconstruction.UpdateView r id
                          (View.SetEstimated true)) r est_views in
      let r := foldl (λ r id,
                        Reconstruction.UpdateTrack r id
                          (Track.SetEstimated true)) r est_tracks in
      ({| success := true; estimated_views := est_views;
          estimated_tracks := est_tracks |}, vg, r, log)
  end.

Abbreviation Builder := (ReconstructionBuilder Z (list Reconstruction.t)).

Definition options (calibrated largest : bool) (min_len : Z)
    : ReconstructionBuilderOptions (list Reconstruction.t) :=
  {| rng := []; num_threads := 1;
     only_calibrated_views := calibrated;
     reconstruct_largest_connected_component := largest;
     min_track_length := min_len; max_track_length := 20 |}.

Definition empty_database : FeaturesAndMatchesDatabase.t Z :=
  {| FeaturesAndMatchesDatabase.intrinsics_priors := [];
     FeaturesAndMatchesDatabase.image_pair_matches := [] |}.

(** A match whose single correspondence is the image point [(x, x)] seen in
    both images. *)
Definition point_match (x : Z) : ImagePairMatch Z :=
  {| twoview_info := 1%Z;
     correspondences := [ {| feature1 := (x, x); feature2 := (x, x) |} ] |}.

(** Ingestion through the public interface: the images, then the matches. *)
Definition add_images (names : list string) (b : Builder) : result Builder :=
  foldM (λ b name, '(_, b) ← AddImage GetFilenameFromFilepath b name;
                   Returned b) names b.

Definition add_matches (ms : list (string * string * Z)) (b : Builder)
    : result Builder :=
  foldM (λ b m, '(_, b) ← AddTwoViewMatch SwapCameras b m.1.1 m.1.2
                             (point_match m.2);
                Returned b) ms b.

Definition ingest (o : ReconstructionBuilderOptions (list Reconstruction.t))
    (names : list string) (ms : list (string * string * Z))
    : result Builder :=
  b ← CreateFromDatabase o empty_database;
  b ← add_images names b;
  add_matches ms b.

Definition run (fuel : nat) (b : result Builder)
    : result (bool * Builder * list Reconstruction.t) :=
  b ← b; BuildReconstruction Estimate fuel b [].

(** Two components of three views each, [a-b-c] and [d-e-f]. *)
Definition three_and_three (largest : bool) : result Builder :=
  ingest (options false largest 2) ["a"; "b"; "c"; "d"; "e"; "f"]
    [("a", "b", 1%Z); ("b", "c", 1%Z); ("d", "e", 2%Z); ("e", "f", 2%Z)].

(** A component of three views and a component of two, [a-b-c] and [d-e]. *)
Definition three_and_two : result Builder :=
  ingest (options false false 2) ["a"; "b"; "c"; "d"; "e"]
    [("a", "b", 1%Z); ("b", "c", 1%Z); ("d", "e", 2%Z)].

(** Tracks need three views here: [a-b-c] carries one track, the matches of
    [d-e-f] are about two different points and give none. *)
Definition tracks_only_in_first : result Builder :=
  ingest (options false false 3) ["a"; "b"; "c"; "d"; "e"; "f"]
    [("a", "b", 1%Z); ("b", "c", 1%Z); ("d", "e", 2%Z); ("e", "f", 3%Z)].

(** A builder over an empty scene, and the builder that a successful call
    returned. *)
Definition blank : Builder :=
  {| options_ := options false false 2; rng_ := [];
     image_filepaths_ := [];
     reconstruction_ := Reconstruction.empty;
     view_graph_ := ViewGraph.empty;
     track_builder_ := Some (TrackBuilder.Create 2 20);
     feature_extractor_and_matcher_ := None;
     features_and_matches_database_ := None |}.

Definition returned (x : result Builder) : Builder :=
  match x with
  | Returned b => b
  | _ => blank
  end.

Definition outcome (x : result (bool * Builder * list Reconstruction.t))
    : bool * Builder * list Reconstruction.t :=
  match x with
  | Returned y => y
  | _ => (false, blank, [])
  end.

(** Calibrated-only mode, two images without a prior, nothing matched yet. *)
Definition two_uncalibrated_images : Builder :=
  returned (ingest (options true false 2) ["a"; "b"] []).

(** A scene handed over ready-made, as the first constructor takes it: two
    views without a prior, joined by an edge and by one track. *)
Definition ready_made_reconstruction : Reconstruction.t :=
  let r := Reconstruction.empty in
  let r := snd (Reconstruction.AddView r "a" None) in
  let r := snd (Reconstruction.AddView r "b" None) in
  snd (Reconstruction.AddTrack r [(0%N, (1, 1)%Z); (1%N, (1, 1)%Z)]).

Definition ready_made_view_graph : ViewGraph.t Z :=
  ViewGraph.AddEdge ViewGraph.empty 0%N 1%N 1%Z.

Definition ready_made_uncalibrated : Builder :=
  returned (Create (options true false 2) ready_made_reconstruction
                   ready_made_view_graph).

(** Two images, then the one-time extract-and-match step on a database
    without matches: the builder is in its matched state. *)
Definition two_images : Builder :=
  returned (ingest (options false false 2) ["a"; "b"] []).

Definition two_images_matched : Builder :=
  returned ('(_, b) ← ExtractAndMatchFeatures SwapCameras ExtractAndMatch
                        two_images;
            Returned b).

(** An estimator that always fails, and one that reports success without
    estimating anything; both log the reconstruction they are called on. *)
Definition EstimateFailure (log : list Reconstruction.t) (vg : ViewGraph.t Z)
    (r : Reconstruction.t)
    : ReconstructionEstimatorSummary * ViewGraph.t Z * Reconstruction.t
      * list Reconstruction.t :=
  (failed, vg, r, log ++ [r]).

Definition EstimateIdle (log : list Reconstruction.t) (vg : ViewGraph.t Z)
    (r : Reconstruction.t)
    : ReconstructionEstimatorSummary * ViewGraph.t Z * Reconstruction.t
      * list Reconstruction.t :=
  ({| success := true; estimated_views := []; estimated_tracks := [] |},
   vg, r, log ++ [r]).

Definition set_prior : CameraIntrinsicsPrior :=
  {| focal_length := {| is_set := true |} |}.

(** Calibrated-only mode: ["a"] and ["b"] come with a focal-length prior and
    are matched, ["c"] comes without one and its match with ["b"] is
    skipped. *)
Definition calibrated_pair_and_stray : Builder :=
  returned (b ← CreateFromDatabase (options true false 2) empty_database;
            '(_, b) ← AddImageWithCameraIntrinsicsPrior
                        GetFilenameFromFilepath b "a" set_prior;
            '(_, b) ← AddImageWithCameraIntrinsicsPrior
                        GetFilenameFromFilepath b "b" set_prior;
            '(_, b) ← AddImage GetFilenameFromFilepath b "c";
            add_matches [("a", "b", 1%Z); ("b", "c", 1%Z)] b).

(** The same three images with the calibrated-only option off, so that the
    match of ["b"] with the uncalibrated ["c"] is stored: ["c"] is a view of
    the reconstruction and of the view graph. *)
Definition pair_and_matched_stray : Builder :=
  returned (b ← CreateFromDatabase (options false false 2) empty_database;
            '(_, b) ← AddImageWithCameraIntrinsicsPrior
                        GetFilenameFromFilepath b "a" set_prior;
            '(_, b) ← AddImageWithCameraIntrinsicsPrior
                        GetFilenameFromFilepath b "b" set_prior;
            '(_, b) ← AddImage GetFilenameFromFilepath b "c";
            add_matches [("a", "b", 1%Z); ("b", "c", 1%Z)] b).

(** An extractor whose geometric verification draws from the random source:
    it leaves an entry in the log that stands for the state of the source. *)
Definition ExtractAndMatchDrawing (log : list Reconstruction.t)
    (m : FeatureExtractorAndMatcher.t)
    (db : FeaturesAndMatchesDatabase.t Z)
    : FeaturesAndMatchesDatabase.t Z * list Reconstruction.t :=
  (db, log ++ [Reconstruction.empty]).

(** A database that holds a prior for ["a"] and the match of ["a"] and
    ["b"], and a builder on it to which the two images have been added; a
    database that holds a prior for an image ["z"] nobody added. *)
Definition database_ab : FeaturesAndMatchesDatabase.t Z :=
  {| FeaturesAndMatchesDatabase.intrinsics_priors := [("a", set_prior)];
     FeaturesAndMatchesDatabase.image_pair_matches :=
       [(("a", "b"), point_match 1)] |}.

Definition two_images_on_database : Builder :=
  returned (b ← CreateFromDatabase (options false false 2) database_ab;
            add_images ["a"; "b"] b).

Definition database_z : FeaturesAndMatchesDatabase.t Z :=
  {| FeaturesAndMatchesDatabase.intrinsics_priors := [("z", set_prior)];
     FeaturesAndMatchesDatabase.image_pair_matches := [] |}.

Definition two_images_on_database_z : Builder :=
  returned (b ← CreateFromDatabase (options false false 2) database_z;
            add_images ["a"; "b"] b).

(** The geometry of the stand-in: view [i] sits at position [i] on a line, and
    [g] is the geometry from [a] to [b] when it is the offset of [b] from
    [a]. *)
Definition offset_from_to (a b : N) (g : Z) : Prop :=
  g = (Z.of_N b - Z.of_N a)%Z.
End Mock.

(** ** Vocabulary of the properties *)

(** The loops over a snapshot of the keys delete an entry when a test on its
    value succeeds; on a bare map one turn of such a loop is [delete_if]. *)
Definition delete_if `{Countable K} {V : Type} (P : V → bool)
    (m : gmap K V) (k : K) : gmap K V :=
  match m !! k with
  | None => m
  | Some v => if P v then delete k m else m
  end.

(** The views (tracks) of a reconstruction that pass a test. *)
Definition select_views (P : View.t → bool) (r : Reconstruction.t)
    : gmap ViewId View.t :=
  filter (λ kv, P kv.2 = true) (Reconstruction.views r).

Definition select_tracks (P : Track.t → bool) (r : Reconstruction.t)
    : gmap TrackId Track.t :=
  filter (λ kv, P kv.2 = true) (Reconstruction.tracks r).

Definition with_views (r : Reconstruction.t) (m : gmap ViewId View.t)
    : Reconstruction.t :=
  {| Reconstruction.views := m;
     Reconstruction.tracks := Reconstruction.tracks r;
     Reconstruction.next_view_id := Reconstruction.next_view_id r;
     Reconstruction.next_track_id := Reconstruction.next_track_id r |}.

Definition with_tracks (r : Reconstruction.t) (m : gmap TrackId Track.t)
    : Reconstruction.t :=
  {| Reconstruction.views := Reconstruction.views r;
     Reconstruction.tracks := m;
     Reconstruction.next_view_id := Reconstruction.next_view_id r;
     Reconstruction.next_track_id := Reconstruction.next_track_id r |}.

Definition uncalibrated (v : View.t) : bool :=
  negb (is_set (focal_length (View.CameraIntrinsicsPrior v))).

Definition calibrated (v : View.t) : bool :=
  is_set (focal_length (View.CameraIntrinsicsPrior v)).

Definition unestimated_view (v : View.t) : bool := negb (View.IsEstimated v).
Definition unestimated_track (t : Track.t) : bool := negb (Track.IsEstimated t).

(** A view graph from which a set of views, and the edges that touch them,
    are gone. *)
Definition without_views {TwoViewInfo : Type} (vg : ViewGraph.t TwoViewInfo)
    (s : gset ViewId) : ViewGraph.t TwoViewInfo :=
  {| ViewGraph.vertices :=
       (λ n, n ∖ s) <$> filter (λ kv, kv.1 ∉ s) (ViewGraph.vertices vg);
     ViewGraph.edges :=
       filter (λ kv, ¬ (kv.1.1 ∈ s ∨ kv.1.2 ∈ s)) (ViewGraph.edges vg) |}.

(** The synchronisation invariant of section 9 of the specification: every
    view of the view graph is a view of the reconstruction. *)
Definition in_sync {TwoViewInfo : Type} (r : Reconstruction.t)
    (vg : ViewGraph.t TwoViewInfo) : Prop :=
  dom (ViewGraph.vertices vg) ⊆ dom (Reconstruction.views r).

Definition builder_in_sync {TwoViewInfo World : Type}
    (b : ReconstructionBuilder TwoViewInfo World) : Prop :=
  in_sync (reconstruction_ b) (view_graph_ b).

(** The keys in [l] whose entry of [m] passes the test [P]. *)
Definition passing `{Countable K} {V : Type} (P : V → bool) (m : gmap K V)
    (l : list K) : gset K :=
  list_to_set (filter (λ k, from_option P false (m !! k) = true) l).

(** Every stored edge is keyed smaller id first and holds the geometry from
    the smaller to the larger id; [from_to a b g] reads "[g] is the geometry
    from view [a] to view [b]". *)
Definition well_directed {TwoViewInfo : Type}
    (from_to : ViewId → ViewId → TwoViewInfo → Prop)
    (vg : ViewGraph.t TwoViewInfo) : Prop :=
  ∀ a b g, ViewGraph.edges vg !! (a, b) = Some g →
           (a ≤ b)%N ∧ from_to a b g.

(** The two halves of a successful round of the loop of
    [BuildReconstruction]: the builder once the estimator has run on the
    working scene (with the summary of the run), and the builder once the
    estimated views and tracks have been removed from the working scene. *)
Section rounds.
Context {TwoViewInfo World : Type}.
Variable Estimate :
  World → ViewGraph.t TwoViewInfo → Reconstruction.t →
  ReconstructionEstimatorSummary * ViewGraph.t TwoViewInfo
  * Reconstruction.t * World.
Implicit Types b : ReconstructionBuilder TwoViewInfo World.

Definition estimated b
    : ReconstructionEstimatorSummary * ReconstructionBuilder TwoViewInfo World :=
  let '(summary, vg, r, w) :=
    Estimate (rng_ b) (view_graph_ b) (reconstruction_ b) in
  (summary, set_rng (set_view_graph (set_reconstruction b r) vg) w).

Definition harvested b : ReconstructionBuilder TwoViewInfo World :=
  let '(r, vg) :=
    RemoveEstimatedViewsAndTracks (reconstruction_ b) (view_graph_ b) in
  set_view_graph (set_reconstruction b r) vg.
End rounds.

(** ** Further vocabulary *)

(** A reconstruction all of whose views and tracks are flagged estimated. *)
Definition fully_estimated (s : Reconstruction.t) : Prop :=
  (∀ id v, Reconstruction.View s id = Some v → View.IsEstimated v = true)
  ∧ (∀ id t, Reconstruction.Track s id = Some t → Track.IsEstimated t = true).

(** Reconstructions no two of which share a view identifier. *)
Definition views_disjoint (l : list Reconstruction.t) : Prop :=
  ∀ i j s1 s2, i < j → l !! i = Some s1 → l !! j = Some s2 →
               dom (Reconstruction.views s1) ## dom (Reconstruction.views s2).

(** A reconstruction in which a name identifies a view: no view sits under the
    sentinel identifier and no two views carry the same name. *)
Definition well_named (r : Reconstruction.t) : Prop :=
  Reconstruction.views r !! kInvalidViewId = None
  ∧ ∀ i j v w, Reconstruction.views r !! i = Some v →
               Reconstruction.views r !! j = Some w →
               View.Name v = View.Name w → i = j.

(** The match of a pair of images, told with the two images exchanged. *)
Definition mirrored {TwoViewInfo : Type}
    (SwapCameras : TwoViewInfo → TwoViewInfo)
    (m : ImagePairMatch TwoViewInfo) : ImagePairMatch TwoViewInfo :=
  {| twoview_info := SwapCameras (twoview_info m);
     correspondences :=
       (λ c, {| feature1 := feature2 c; feature2 := feature1 c |})
         <$> correspondences m |}.

(** The bodies of the two loops of [ExtractAndMatchFeatures], under a name:
    the copy of a prior of the database into its view, and the ingestion of a
    match of the database. *)
Section loops_of_extraction.
Context {TwoViewInfo World : Type}.
Variable SwapCameras : TwoViewInfo → TwoViewInfo.

Definition copy_prior (db : FeaturesAndMatchesDatabase.t TwoViewInfo)
    (b : ReconstructionBuilder TwoViewInfo World) (name : string)
    : result (ReconstructionBuilder TwoViewInfo World) :=
  let view_id := Reconstruction.ViewIdFromName (reconstruction_ b) name in
  _ ← deref (Reconstruction.View (reconstruction_ b) view_id);
  let intrinsics_prior :=
    FeaturesAndMatchesDatabase.GetCameraIntrinsicsPrior db name in
  Returned
    (set_reconstruction b
       (Reconstruction.UpdateView (reconstruction_ b) view_id
          (View.SetCameraIntrinsicsPrior intrinsics_prior))).

Definition ingest_match (db : FeaturesAndMatchesDatabase.t TwoViewInfo)
    (b : ReconstructionBuilder TwoViewInfo World)
    (match_key : string * string)
    : result (ReconstructionBuilder TwoViewInfo World) :=
  m ← deref (FeaturesAndMatchesDatabase.GetImagePairMatch
               db match_key.1 match_key.2);
  '(_, b) ← AddTwoViewMatch SwapCameras b match_key.1 match_key.2 m;
  Returned b.
End loops_of_extraction.

(** Two reconstructions that differ at most in the priors of their views. *)
Definition same_but_priors (r r' : Reconstruction.t) : Prop :=
  Reconstruction.tracks r' = Reconstruction.tracks r
  ∧ ∀ id, View.Name <$> Reconstruction.views r' !! id
          = View.Name <$> Reconstruction.views r !! id
          ∧ View.IsEstimated <$> Reconstruction.views r' !! id
            = View.IsEstimated <$> Reconstruction.views r !! id.

(** * Properties *)

(** ** Loops that delete from a map *)

Section fold_delete.
Context `{Countable K} {V : Type}.
Implicit Types (m : gmap K V) (P : V → bool).

Lemma lookup_delete_if P m k i :
  delete_if P m k !! i =
  match m !! i with
  | Some v => if bool_decide (i = k) && P v then None else Some v
  | None => None
  end.
Proof.
  unfold delete_if. destruct (decide (i = k)) as [->|Hne].
  - rewrite bool_decide_eq_true_2 by done. simpl.
    destruct (m !! k) as [v|] eqn:Hk; [|by rewrite Hk].
    destruct (P v); [by rewrite lookup_delete_eq | by rewrite Hk].
  - rewrite bool_decide_eq_false_2 by done. simpl.
    destruct (m !! k) as [v|]; [destruct (P v)|];
      rewrite ?lookup_delete_ne by done; by destruct (m !! i).
Qed.

Lemma lookup_foldl_delete_if P (l : list K) m i :
  foldl (delete_if P) m l !! i =
  match m !! i with
  | Some v => if bool_decide (i ∈ l) && P v then None else Some v
  | None => None
  end.
Proof.
  revert m. induction l as [|k l IH]; intros m; cbn [foldl].
  - rewrite bool_decide_eq_false_2 by apply not_elem_of_nil.
    by destruct (m !! i).
  - rewrite IH, lookup_delete_if.
    destruct (m !! i) as [v|]; [|done].
    destruct (P v) eqn:HP; rewrite ?andb_true_r, ?andb_false_r.
    + destruct (decide (i = k)) as [->|Hne].
      * rewrite !bool_decide_eq_true_2; [done|apply elem_of_cons; by left|done].
      * rewrite (bool_decide_eq_false_2 (i = k)) by done.
        rewrite HP, andb_true_r.
        destruct (decide (i ∈ l)) as [Hin|Hin].
        -- rewrite !bool_decide_eq_true_2; [done|apply elem_of_cons; by right|done].
        -- rewrite !bool_decide_eq_false_2; [done| |done].
           rewrite elem_of_cons. by intros [?|?].
    + by rewrite HP, andb_false_r.
Qed.

(** Run over all the keys, the loop is a filter. *)
Lemma foldl_delete_if_keys P m :
  foldl (delete_if P) m (map_to_list m).*1 = filter (λ kv, P kv.2 = false) m.
Proof.
  apply map_eq. intros i. rewrite lookup_foldl_delete_if.
  destruct (m !! i) as [v|] eqn:Hi.
  - assert (i ∈ (map_to_list m).*1) as Hin.
    { apply list_elem_of_fmap. exists (i, v). split; [done|].
      by apply elem_of_map_to_list. }
    rewrite bool_decide_eq_true_2 by done. simpl.
    destruct (P v) eqn:HP; symmetry.
    + apply map_lookup_filter_None. right. intros v' Hv'. simpl.
      simplify_eq. congruence.
    + by apply map_lookup_filter_Some.
  - symmetry. apply map_lookup_filter_None. by left.
Qed.
End fold_delete.

(** ** The view graph without a set of views *)

Section without_views.
Context {TwoViewInfo : Type}.
Implicit Types (vg : ViewGraph.t TwoViewInfo) (s : gset ViewId).

Lemma lookup_vertices_without vg s i :
  ViewGraph.vertices (without_views vg s) !! i =
  if decide (i ∈ s) then None
  else (λ n, n ∖ s) <$> ViewGraph.vertices vg !! i.
Proof.
  unfold without_views; simpl. rewrite lookup_fmap, map_lookup_filter.
  destruct (ViewGraph.vertices vg !! i) as [n|]; simpl.
  - case_guard; simpl in *; by case_decide.
  - by case_decide.
Qed.

Lemma lookup_edges_without vg s k :
  ViewGraph.edges (without_views vg s) !! k =
  if decide (k.1 ∈ s ∨ k.2 ∈ s) then None else ViewGraph.edges vg !! k.
Proof.
  unfold without_views; simpl. rewrite map_lookup_filter.
  destruct (ViewGraph.edges vg !! k) as [e|]; simpl.
  - case_guard; simpl in *; case_decide; naive_solver.
  - by case_decide.
Qed.

Lemma view_graph_eq vg1 vg2 :
  (∀ i, ViewGraph.vertices vg1 !! i = ViewGraph.vertices vg2 !! i) →
  (∀ k, ViewGraph.edges vg1 !! k = ViewGraph.edges vg2 !! k) →
  vg1 = vg2.
Proof.
  destruct vg1, vg2; simpl. intros Hv He.
  f_equal; by apply map_eq.
Qed.

Lemma without_views_empty vg : without_views vg ∅ = vg.
Proof.
  apply view_graph_eq.
  - intros i. rewrite lookup_vertices_without.
    case_decide; [set_solver|].
    destruct (ViewGraph.vertices vg !! i); simpl; [|done].
    f_equal. set_solver.
  - intros k. rewrite lookup_edges_without. case_decide; set_solver.
Qed.

Lemma RemoveView_without vg s id :
  ViewGraph.RemoveView (without_views vg s) id = without_views vg (s ∪ {[id]}).
Proof.
  apply view_graph_eq.
  - intros i. unfold ViewGraph.RemoveView; cbn [ViewGraph.vertices].
    rewrite lookup_fmap, lookup_delete, !lookup_vertices_without.
    repeat case_decide; try set_solver.
    destruct (ViewGraph.vertices vg !! i); simpl; [|done].
    f_equal. set_solver.
  - intros k. unfold ViewGraph.RemoveView; cbn [ViewGraph.edges].
    rewrite map_lookup_filter, !lookup_edges_without.
    repeat case_decide; try set_solver.
    + destruct (ViewGraph.edges vg !! k); simpl; [|done].
      case_guard; [|done]. simpl in *. set_solver.
    + destruct (ViewGraph.edges vg !! k); simpl; [|done].
      case_guard; [done|]. simpl in *. exfalso. set_solver.
Qed.

Lemma dom_vertices_without vg s :
  dom (ViewGraph.vertices (without_views vg s))
  = dom (ViewGraph.vertices vg) ∖ s.
Proof.
  apply set_eq. intros i.
  rewrite elem_of_difference, !elem_of_dom, lookup_vertices_without.
  case_decide.
  - split; [by intros [? ?]|naive_solver].
  - rewrite fmap_is_Some. naive_solver.
Qed.
End without_views.

(** ** The two helpers of the anonymous namespace, in closed form *)

Section closed_forms.
Context {TwoViewInfo : Type}.
Implicit Types (r : Reconstruction.t) (vg : ViewGraph.t TwoViewInfo).

Lemma foldl_remove_views (P : View.t → bool) l r :
  foldl (λ sub view_id,
           match Reconstruction.View sub view_id with
           | None => sub
           | Some view =>
             if P view then Reconstruction.RemoveView sub view_id else sub
           end) r l
  = with_views r (foldl (delete_if P) (Reconstruction.views r) l).
Proof.
  revert r. induction l as [|k l IH]; intros r; cbn [foldl].
  - by destruct r.
  - rewrite IH. unfold delete_if at 3. unfold Reconstruction.View.
    destruct (Reconstruction.views r !! k) as [v|]; [|done].
    by destruct (P v).
Qed.

Lemma foldl_remove_tracks (P : Track.t → bool) l r :
  foldl (λ sub track_id,
           match Reconstruction.Track sub track_id with
           | None => sub
           | Some track =>
             if P track then Reconstruction.RemoveTrack sub track_id else sub
           end) r l
  = with_tracks r (foldl (delete_if P) (Reconstruction.tracks r) l).
Proof.
  revert r. induction l as [|k l IH]; intros r; cbn [foldl].
  - by destruct r.
  - rewrite IH. unfold delete_if at 3. unfold Reconstruction.Track.
    destruct (Reconstruction.tracks r !! k) as [v|]; [|done].
    by destruct (P v).
Qed.

Lemma filter_false_negb {A} `{Countable K} (P : A → bool) (m : gmap K A) :
  filter (λ kv, negb (P kv.2) = false) m = filter (λ kv, P kv.2 = true) m.
Proof.
  apply map_filter_ext. intros i x _. simpl. by destruct (P x).
Qed.

Lemma filter_false_true {A} `{Countable K} (P : A → bool) (m : gmap K A) :
  filter (λ kv, P kv.2 = false) m = filter (λ kv, negb (P kv.2) = true) m.
Proof.
  apply map_filter_ext. intros i x _. simpl. by destruct (P x).
Qed.

(** The snapshot keeps the estimated views and the estimated tracks, and
    nothing else. *)
Lemma CreateEstimatedSubreconstruction_eq r :
  CreateEstimatedSubreconstruction r
  = with_tracks (with_views r (select_views View.IsEstimated r))
                (select_tracks Track.IsEstimated r).
Proof.
  unfold CreateEstimatedSubreconstruction.
  rewrite (foldl_remove_views (λ v, negb (View.IsEstimated v))).
  rewrite (foldl_remove_tracks (λ t, negb (Track.IsEstimated t))).
  unfold Reconstruction.ViewIds, Reconstruction.TrackIds.
  rewrite foldl_delete_if_keys. cbn [with_views Reconstruction.tracks].
  rewrite foldl_delete_if_keys.
  unfold select_views, select_tracks.
  by rewrite !filter_false_negb.
Qed.

Lemma passing_cons_true `{Countable K} {V} (P : V → bool) (m : gmap K V)
    k v l :
  m !! k = Some v → P v = true →
  passing P m (k :: l) = {[k]} ∪ passing P (delete k m) l.
Proof.
  intros Hk HP. apply set_eq. intros i. unfold passing.
  rewrite elem_of_union, elem_of_singleton, !elem_of_list_to_set,
    !list_elem_of_filter, elem_of_cons.
  destruct (decide (i = k)) as [->|Hne].
  - rewrite Hk. simpl. naive_solver.
  - rewrite lookup_delete_ne by done. naive_solver.
Qed.

Lemma passing_cons_false `{Countable K} {V} (P : V → bool) (m : gmap K V)
    k l :
  from_option P false (m !! k) = false →
  passing P m (k :: l) = passing P m l.
Proof.
  intros Hk. apply set_eq. intros i. unfold passing.
  rewrite !elem_of_list_to_set, !list_elem_of_filter, elem_of_cons.
  split; [|naive_solver]. intros [Hi [->|?]]; [congruence|done].
Qed.

Lemma passing_keys `{Countable K} {V} (P : V → bool) (m : gmap K V) :
  passing P m (map_to_list m).*1 = dom (filter (λ kv, P kv.2 = true) m).
Proof.
  apply set_eq. intros i. unfold passing.
  rewrite elem_of_list_to_set, list_elem_of_filter, elem_of_dom.
  split.
  - intros [Hi _]. destruct (m !! i) as [v|] eqn:Hm; [|done]. simpl in Hi.
    exists v. by apply map_lookup_filter_Some.
  - intros [v [Hm HP]%map_lookup_filter_Some]. simpl in HP. rewrite Hm.
    split; [done|]. apply list_elem_of_fmap. exists (i, v).
    split; [done|]. by apply elem_of_map_to_list.
Qed.

(** The loop over the views of [RemoveEstimatedViewsAndTracks], started on a
    view graph from which [s] is already gone. *)
Lemma foldl_remove_views_both (P : View.t → bool) l r vg s :
  foldl (λ '(r, vg) view_id,
           match Reconstruction.View r view_id with
           | None => (r, vg)
           | Some view =>
             if P view
             then (Reconstruction.RemoveView r view_id,
                   ViewGraph.RemoveView vg view_id)
             else (r, vg)
           end) (r, without_views vg s) l
  = (with_views r (foldl (delete_if P) (Reconstruction.views r) l),
     without_views vg (s ∪ passing P (Reconstruction.views r) l)).
Proof.
  revert r s. induction l as [|k l IH]; intros r s; cbn [foldl].
  - unfold passing; simpl. rewrite union_empty_r_L. by destruct r.
  - unfold Reconstruction.View. unfold delete_if at 2.
    destruct (Reconstruction.views r !! k) as [v|] eqn:Hk.
    + destruct (P v) eqn:HP.
      * rewrite RemoveView_without, IH; cbn [Reconstruction.RemoveView
          Reconstruction.views with_views].
        rewrite (passing_cons_true P _ k v) by done.
        f_equal. f_equal. set_solver.
      * rewrite IH, passing_cons_false; [done|]. by rewrite Hk.
    + rewrite IH, passing_cons_false; [done|]. by rewrite Hk.
Qed.

Lemma RemoveEstimatedViewsAndTracks_eq r vg :
  RemoveEstimatedViewsAndTracks r vg
  = (with_tracks (with_views r (select_views unestimated_view r))
                 (select_tracks unestimated_track r),
     without_views vg (dom (select_views View.IsEstimated r))).
Proof.
  unfold RemoveEstimatedViewsAndTracks.
  rewrite <- (without_views_empty vg) at 1.
  rewrite (foldl_remove_views_both View.IsEstimated).
  rewrite (foldl_remove_tracks Track.IsEstimated).
  unfold Reconstruction.ViewIds, Reconstruction.TrackIds.
  rewrite foldl_delete_if_keys, passing_keys, union_empty_l_L.
  cbn [with_views Reconstruction.tracks].
  rewrite foldl_delete_if_keys.
  unfold select_views, select_tracks, unestimated_view, unestimated_track.
  by rewrite !filter_false_true.
Qed.
End closed_forms.

(** ** The calibration filter *)

Section calibration_filter.
Context {TwoViewInfo World : Type}.
Implicit Types b : ReconstructionBuilder TwoViewInfo World.

Lemma NoDup_map_keys `{Countable K} {V} (m : gmap K V) :
  NoDup (map_to_list m).*1.
Proof. apply NoDup_fst_map_to_list. Qed.

Lemma elem_of_map_keys `{Countable K} {V} (m : gmap K V) i :
  i ∈ (map_to_list m).*1 ↔ is_Some (m !! i).
Proof.
  rewrite list_elem_of_fmap. split.
  - intros [[k v] [-> Hkv%elem_of_map_to_list]]. by exists v.
  - intros [v Hv]. exists (i, v). by rewrite elem_of_map_to_list.
Qed.

Lemma bind_Returned {A B} (a : A) (k : A → result B) :
  Returned a ≫= k = k a.
Proof. done. Qed.

Lemma RemoveUncalibratedViews_step_eq b k v :
  Reconstruction.views (reconstruction_ b) !! k = Some v →
  RemoveUncalibratedViews_step b k
  = Returned
      (if uncalibrated v then
         set_view_graph
           (set_reconstruction b
              (Reconstruction.RemoveView (reconstruction_ b) k))
           (ViewGraph.RemoveView (view_graph_ b) k)
       else b).
Proof.
  intros Hv. unfold RemoveUncalibratedViews_step, Reconstruction.View.
  rewrite Hv. cbn [deref]. rewrite bind_Returned.
  fold (uncalibrated v). by destruct (uncalibrated v).
Qed.

(** The loop of [RemoveUncalibratedViews] over distinct present views never
    meets a null view. *)
Lemma foldM_RemoveUncalibratedViews_step l b vg s :
  view_graph_ b = without_views vg s →
  NoDup l →
  (∀ id, id ∈ l → is_Some (Reconstruction.views (reconstruction_ b) !! id)) →
  foldM RemoveUncalibratedViews_step l b
  = Returned
      (set_view_graph
         (set_reconstruction b
            (with_views (reconstruction_ b)
               (foldl (delete_if uncalibrated)
                      (Reconstruction.views (reconstruction_ b)) l)))
         (without_views vg
            (s ∪ passing uncalibrated
                   (Reconstruction.views (reconstruction_ b)) l))).
Proof.
  revert b s. induction l as [|k l IH]; intros b s Hvg Hnd Hin; cbn [foldM foldl].
  - unfold passing; simpl. rewrite union_empty_r_L, <- Hvg.
    by destruct b as [? ? ? [] ? ? ? ?].
  - apply NoDup_cons in Hnd as [Hk Hnd].
    destruct (Hin k) as [v Hv]; [by left|].
    rewrite (RemoveUncalibratedViews_step_eq b k v Hv), bind_Returned.
    unfold delete_if at 2. rewrite Hv.
    destruct (uncalibrated v) eqn:Hu.
    + rewrite (IH _ (s ∪ {[k]})); cbn [reconstruction_ set_view_graph
        set_reconstruction view_graph_ Reconstruction.RemoveView
        Reconstruction.views]; [| |done|].
      * rewrite (passing_cons_true uncalibrated _ k v) by done.
        do 2 f_equal. f_equal. set_solver.
      * by rewrite Hvg, RemoveView_without.
      * intros id Hid. rewrite lookup_delete_ne by (intros ->; done).
        apply Hin. by right.
    + rewrite (IH _ s); [|done..|].
      * rewrite passing_cons_false; [done|]. by rewrite Hv.
      * intros id Hid. apply Hin. by right.
Qed.

Lemma RemoveUncalibratedViews_eq b :
  RemoveUncalibratedViews b
  = Returned
      (set_view_graph
         (set_reconstruction b
            (with_views (reconstruction_ b)
                        (select_views calibrated (reconstruction_ b))))
         (without_views (view_graph_ b)
            (dom (select_views uncalibrated (reconstruction_ b))))).
Proof.
  unfold RemoveUncalibratedViews, Reconstruction.ViewIds.
  rewrite (foldM_RemoveUncalibratedViews_step _ b (view_graph_ b) ∅).
  - rewrite foldl_delete_if_keys, passing_keys, union_empty_l_L.
    unfold select_views.
    assert (filter (λ kv : N * View.t, uncalibrated kv.2 = false)
                   (Reconstruction.views (reconstruction_ b))
            = filter (λ kv : N * View.t, calibrated kv.2 = true)
                     (Reconstruction.views (reconstruction_ b))) as ->; [|done].
    apply map_filter_ext. intros i x _. unfold uncalibrated, calibrated.
    simpl. by destruct (is_set _).
  - by rewrite without_views_empty.
  - apply NoDup_map_keys.
  - intros id. by rewrite elem_of_map_keys.
Qed.

Lemma select_views_calibrated_twice (r : Reconstruction.t) :
  select_views calibrated (with_views r (select_views calibrated r))
  = select_views calibrated r.
Proof.
  unfold select_views; simpl. apply map_eq. intros i.
  rewrite !map_lookup_filter.
  destruct (Reconstruction.views r !! i) as [v|]; simpl; [|done].
  case_guard; simpl; [|done]. by rewrite option_guard_True.
Qed.

Lemma select_views_uncalibrated_after (r : Reconstruction.t) :
  select_views uncalibrated (with_views r (select_views calibrated r)) = ∅.
Proof.
  unfold select_views; simpl. apply map_eq. intros i.
  rewrite !map_lookup_filter, lookup_empty.
  destruct (Reconstruction.views r !! i) as [v|]; simpl; [|done].
  case_guard as Hc; simpl in *; [|done].
  rewrite option_guard_False; [done|].
  unfold uncalibrated, calibrated in *. simpl. by rewrite Hc.
Qed.
End calibration_filter.

(** ** Idempotence of the calibration filter *)

Section claims_filter.
Context {TwoViewInfo World : Type}.
Implicit Types b : ReconstructionBuilder TwoViewInfo World.

(** C7. The calibration filter is idempotent: [RemoveUncalibratedViews]
    always returns, and invoked on the state it returned it returns that very
    state, reconstruction and view graph included, so the second invocation
    removes nothing. *)
Theorem RemoveUncalibratedViews_idempotent b :
  ∃ b1, RemoveUncalibratedViews b = Returned b1
        ∧ RemoveUncalibratedViews b1 = Returned b1.
Proof.
  eexists. split; [apply RemoveUncalibratedViews_eq|].
  rewrite RemoveUncalibratedViews_eq.
  cbn [reconstruction_ view_graph_ set_view_graph set_reconstruction].
  rewrite select_views_calibrated_twice, select_views_uncalibrated_after.
  by rewrite dom_empty_L, without_views_empty.
Qed.
End claims_filter.

(** ** The calibrated-only filter of match ingestion *)

Section claims_match.
Context {TwoViewInfo World : Type}.
Variable SwapCameras : TwoViewInfo → TwoViewInfo.
Implicit Types b : ReconstructionBuilder TwoViewInfo World.

(** C10. With the only-calibrated-views option on, a match between two known
    views of which one has no focal-length prior makes [AddTwoViewMatch]
    return true and leave the builder, hence its view graph and its track
    builder, exactly as it was. *)
Theorem AddTwoViewMatch_skips_uncalibrated b image1 image2 matches v1 v2 :
  let id1 := Reconstruction.ViewIdFromName (reconstruction_ b) image1 in
  let id2 := Reconstruction.ViewIdFromName (reconstruction_ b) image2 in
  id1 ≠ kInvalidViewId →
  id2 ≠ kInvalidViewId →
  Reconstruction.View (reconstruction_ b) id1 = Some v1 →
  Reconstruction.View (reconstruction_ b) id2 = Some v2 →
  only_calibrated_views (options_ b) = true →
  calibrated v1 = false ∨ calibrated v2 = false →
  AddTwoViewMatch SwapCameras b image1 image2 matches = Returned (true, b).
Proof.
  intros id1 id2 Hid1 Hid2 Hv1 Hv2 Hopt Hcal.
  unfold AddTwoViewMatch. fold id1 id2.
  rewrite !bool_decide_eq_false_2 by done.
  rewrite Hv1, Hv2. unfold skips_match. rewrite Hopt. cbn [deref].
  rewrite bind_Returned. unfold calibrated in Hcal.
  destruct (is_set (focal_length (View.CameraIntrinsicsPrior v1))); simpl.
  - destruct Hcal as [?|Hcal]; [done|]. by rewrite Hcal.
  - done.
Qed.
End claims_match.

Lemma AddTwoViewMatch_skips_uncalibrated_witness :
  AddTwoViewMatch Mock.SwapCameras Mock.two_uncalibrated_images "a" "b"
    (Mock.point_match 1)
  = Returned (true, Mock.two_uncalibrated_images).
Proof.
  eapply (AddTwoViewMatch_skips_uncalibrated Mock.SwapCameras
            Mock.two_uncalibrated_images "a" "b" (Mock.point_match 1)).
  - vm_compute. discriminate.
  - vm_compute. discriminate.
  - vm_compute. reflexivity.
  - vm_compute. reflexivity.
  - vm_compute. reflexivity.
  - left. vm_compute. reflexivity.
Defined.

(** ** Fatal precondition checks *)

Section claims_checks.
Context {TwoViewInfo World : Type}.
Variable Estimate :
  World → ViewGraph.t TwoViewInfo → Reconstruction.t →
  ReconstructionEstimatorSummary * ViewGraph.t TwoViewInfo
  * Reconstruction.t * World.
Implicit Types b : ReconstructionBuilder TwoViewInfo World.

(** The loop itself contains no check: it returns or runs out of fuel. *)
Lemma EstimationLoop_not_Aborted fuel b recs e :
  EstimationLoop Estimate fuel b recs ≠ Aborted e.
Proof.
  revert b recs. induction fuel as [|fuel IH]; intros b recs; simpl.
  - by case_bool_decide.
  - case_bool_decide; [|done].
    destruct (Estimate _ _ _) as [[[s vg] r] w].
    destruct (success s); simpl; [|done].
    destruct (RemoveEstimatedViewsAndTracks _ _) as [r' vg'].
    cbn [options_ set_view_graph set_reconstruction set_rng reconstruction_].
    destruct (reconstruct_largest_connected_component _); [done|].
    case_bool_decide; [done|]. apply IH.
Qed.

Lemma PrepareReconstruction_spec b :
  PrepareReconstruction b =
  if bool_decide (2 ≤ ViewGraph.NumViews (view_graph_ b)) then
    if bool_decide (Reconstruction.NumTracks (reconstruction_ b) = 0) then
      match track_builder_ b with
      | Some tb =>
        let b1 := set_reconstruction b
                    (TrackBuilder.BuildTracks tb (reconstruction_ b)) in
        if only_calibrated_views (options_ b) then RemoveUncalibratedViews b1
        else Returned b1
      | None => Aborted NullDereference
      end
    else if only_calibrated_views (options_ b) then RemoveUncalibratedViews b
    else Returned b
  else Aborted CHECK_GE_NumViews_2.
Proof.
  unfold PrepareReconstruction.
  case_bool_decide; [|done]. case_bool_decide; [|done].
  by destruct (track_builder_ b).
Qed.

Lemma PrepareReconstruction_checked b :
  2 ≤ ViewGraph.NumViews (view_graph_ b) →
  PrepareReconstruction b = Aborted NullDereference
  ∨ ∃ b1, PrepareReconstruction b = Returned b1.
Proof.
  intros Hn. rewrite PrepareReconstruction_spec.
  rewrite bool_decide_eq_true_2 by done.
  case_bool_decide.
  - destruct (track_builder_ b) as [tb|]; [|by left]. right. simpl.
    destruct (only_calibrated_views _); [|by eexists].
    rewrite RemoveUncalibratedViews_eq. by eexists.
  - right. destruct (only_calibrated_views _); [|by eexists].
    rewrite RemoveUncalibratedViews_eq. by eexists.
Qed.

(** C6. A violated precondition is fatal and is not reported through the
    return value: both constructors abort on [CHECK_GT(num_threads, 0)]
    exactly when the thread count is not positive and otherwise return a
    builder, and [BuildReconstruction] aborts on
    [CHECK_GE(NumViews(), 2)] exactly when the view graph has fewer than two
    views, whatever the fuel and the output vector. *)
Theorem precondition_checks_are_fatal :
  (∀ (o : ReconstructionBuilderOptions World) r (vg : ViewGraph.t TwoViewInfo),
     (num_threads o ≤ 0)%Z → Create o r vg = Aborted CHECK_GT_num_threads)
  ∧ (∀ (o : ReconstructionBuilderOptions World)
       (db : FeaturesAndMatchesDatabase.t TwoViewInfo),
       (num_threads o ≤ 0)%Z →
       CreateFromDatabase o db = Aborted CHECK_GT_num_threads)
  ∧ (∀ (o : ReconstructionBuilderOptions World) r (vg : ViewGraph.t TwoViewInfo),
       (0 < num_threads o)%Z → ∃ b, Create o r vg = Returned b)
  ∧ (∀ (o : ReconstructionBuilderOptions World)
       (db : FeaturesAndMatchesDatabase.t TwoViewInfo),
       (0 < num_threads o)%Z → ∃ b, CreateFromDatabase o db = Returned b)
  ∧ (∀ fuel b recs,
       ViewGraph.NumViews (view_graph_ b) < 2 ↔
       BuildReconstruction Estimate fuel b recs = Aborted CHECK_GE_NumViews_2).
Proof.
  repeat split.
  - intros o r vg Hn. unfold Create.
    by rewrite bool_decide_eq_false_2 by lia.
  - intros o db Hn. unfold CreateFromDatabase.
    by rewrite bool_decide_eq_false_2 by lia.
  - intros o r vg Hn. unfold Create.
    rewrite bool_decide_eq_true_2 by lia. by eexists.
  - intros o db Hn. unfold CreateFromDatabase.
    rewrite bool_decide_eq_true_2 by lia. by eexists.
  - intros Hn. unfold BuildReconstruction, PrepareReconstruction.
    by rewrite bool_decide_eq_false_2 by lia.
  - intros Hab. destruct (decide (ViewGraph.NumViews (view_graph_ b) < 2))
      as [|Hge]; [done|]. exfalso.
    unfold BuildReconstruction in Hab.
    destruct (PrepareReconstruction_checked b) as [Hp|[b1 Hp]]; [lia|..];
      rewrite Hp in Hab; [done|].
    rewrite bind_Returned in Hab. by apply EstimationLoop_not_Aborted in Hab.
Qed.
End claims_checks.

(** The checks at work: a builder asked for zero threads, and a build on a
    view graph without views. *)
Lemma precondition_checks_are_fatal_witness :
  Create (TwoViewInfo := Z)
    {| rng := @nil Reconstruction.t; num_threads := 0;
       only_calibrated_views := false;
       reconstruct_largest_connected_component := false;
       min_track_length := 2; max_track_length := 20 |}
    Reconstruction.empty ViewGraph.empty
  = Aborted CHECK_GT_num_threads
  ∧ BuildReconstruction Mock.Estimate 5 Mock.two_uncalibrated_images []
    = Aborted CHECK_GE_NumViews_2.
Proof.
  destruct (precondition_checks_are_fatal Mock.Estimate)
    as (Hc & _ & _ & _ & Hb).
  split.
  - apply Hc. simpl. lia.
  - apply Hb. vm_compute. lia.
Defined.

(** ** Direction of the stored two-view geometry *)

Section claims_direction.
Context {TwoViewInfo World : Type}.
Variable SwapCameras : TwoViewInfo → TwoViewInfo.
Variable from_to : ViewId → ViewId → TwoViewInfo → Prop.
Hypothesis SwapCameras_from_to :
  ∀ a b g, from_to a b g → from_to b a (SwapCameras g).
Implicit Types b : ReconstructionBuilder TwoViewInfo World.

Lemma ViewIdPair_min_max (a b : ViewId) :
  ViewGraph.ViewIdPair a b = (N.min a b, N.max a b).
Proof.
  unfold ViewGraph.ViewIdPair.
  destruct (N.ltb_spec a b); f_equal; lia.
Qed.

(** C5. Match ingestion stores the geometry directed from the smaller view
    id to the larger one. For a match whose geometry is the one from
    [view_id1] to [view_id2], [AddMatchToViewGraph] hands the view graph the
    supplied geometry when [view_id1 <= view_id2] and the geometry with the
    cameras swapped when [view_id1 > view_id2]; the edge is stored under the
    pair (smaller id, larger id), its geometry is the one from the smaller to
    the larger id, and a view graph all of whose edges are so directed stays
    so. *)
Theorem AddMatchToViewGraph_directed b view_id1 view_id2
    (image_matches : ImagePairMatch TwoViewInfo) :
  from_to view_id1 view_id2 (twoview_info image_matches) →
  let b' := AddMatchToViewGraph SwapCameras b view_id1 view_id2
              image_matches in
  let stored :=
    if (view_id2 <? view_id1)%N then SwapCameras (twoview_info image_matches)
    else twoview_info image_matches in
  ViewGraph.edges (view_graph_ b')
    !! (N.min view_id1 view_id2, N.max view_id1 view_id2) = Some stored
  ∧ ViewGraph.GetEdge (view_graph_ b') view_id1 view_id2 = Some stored
  ∧ from_to (N.min view_id1 view_id2) (N.max view_id1 view_id2) stored
  ∧ (well_directed from_to (view_graph_ b) →
     well_directed from_to (view_graph_ b')).
Proof.
  intros Hm b' stored.
  assert (ViewGraph.edges (view_graph_ b')
            !! (N.min view_id1 view_id2, N.max view_id1 view_id2)
          = Some stored) as Hstored.
  { unfold b', AddMatchToViewGraph, ViewGraph.AddEdge; simpl.
    rewrite ViewIdPair_min_max. apply lookup_insert_eq. }
  assert (from_to (N.min view_id1 view_id2) (N.max view_id1 view_id2) stored)
    as Hdir.
  { unfold stored. destruct (N.ltb_spec view_id2 view_id1) as [Hlt|Hle].
    - rewrite N.min_r, N.max_l by lia. by apply SwapCameras_from_to.
    - by rewrite N.min_l, N.max_r by lia. }
  split; [done|]. split; [|split; [done|]].
  - unfold ViewGraph.GetEdge. by rewrite ViewIdPair_min_max.
  - intros Hwd x y g. unfold b', AddMatchToViewGraph, ViewGraph.AddEdge; simpl.
    rewrite ViewIdPair_min_max, lookup_insert. case_decide as Hk.
    + intros [= <-]. inversion Hk; subst. split; [lia|done].
    + apply Hwd.
Qed.
End claims_direction.

(** The second view has the smaller id: the offset -1 from view 2 to view 1
    is stored under (1, 2) as the offset +1. *)
Lemma AddMatchToViewGraph_directed_witness :
  ViewGraph.edges
    (view_graph_
       (AddMatchToViewGraph Mock.SwapCameras Mock.blank 2%N 1%N
          {| twoview_info := (-1)%Z; correspondences := [] |}))
    !! (1%N, 2%N) = Some 1%Z.
Proof.
  assert (∀ a b g, Mock.offset_from_to a b g →
                   Mock.offset_from_to b a (Mock.SwapCameras g)) as Hswap.
  { unfold Mock.offset_from_to, Mock.SwapCameras. intros a b g ->. lia. }
  assert (Mock.offset_from_to 2 1 (-1)) as Hm.
  { unfold Mock.offset_from_to. reflexivity. }
  exact (proj1 (AddMatchToViewGraph_directed Mock.SwapCameras
                  Mock.offset_from_to Hswap Mock.blank 2%N 1%N
                  {| twoview_info := (-1)%Z; correspondences := [] |} Hm)).
Defined.

(** ** Reconstruction and view graph stay in sync *)

Lemma foldM_invariant {A B} (I : B → Prop) (f : B → A → result B) l b b' :
  (∀ b a b', I b → f b a = Returned b' → I b') →
  I b → foldM f l b = Returned b' → I b'.
Proof.
  intros Hf. revert b. induction l as [|a l IH]; intros b Hb; simpl.
  - by intros [= <-].
  - destruct (f b a) as [b1| |] eqn:Hfa; [|done..].
    rewrite bind_Returned. apply IH. by eapply Hf.
Qed.

Lemma ViewIdFromName_valid (r : Reconstruction.t) name :
  Reconstruction.ViewIdFromName r name ≠ kInvalidViewId →
  Reconstruction.ViewIdFromName r name ∈ dom (Reconstruction.views r).
Proof.
  unfold Reconstruction.ViewIdFromName.
  destruct (filter _ _) as [|[k v] l] eqn:Hf; [done|]. intros _. simpl.
  assert ((k, v) ∈ filter (λ kv : N * View.t, View.Name kv.2 = name)
                     (map_to_list (Reconstruction.views r))) as Hin.
  { rewrite Hf. by left. }
  apply list_elem_of_filter in Hin as [_ Hin%elem_of_map_to_list].
  apply elem_of_dom. by exists v.
Qed.

Lemma dom_add_neighbor (a b : ViewId) (vs : gmap ViewId (gset ViewId)) :
  dom (ViewGraph.add_neighbor a b vs) = {[a]} ∪ dom vs.
Proof. unfold ViewGraph.add_neighbor. by rewrite dom_insert_L. Qed.

Lemma dom_vertices_AddEdge {TwoViewInfo} (vg : ViewGraph.t TwoViewInfo)
    a b g :
  dom (ViewGraph.vertices (ViewGraph.AddEdge vg a b g))
  = {[a; b]} ∪ dom (ViewGraph.vertices vg).
Proof.
  unfold ViewGraph.AddEdge; simpl. rewrite !dom_add_neighbor. set_solver.
Qed.

Lemma views_BuildTracks tb r :
  Reconstruction.views (TrackBuilder.BuildTracks tb r)
  = Reconstruction.views r.
Proof.
  unfold TrackBuilder.BuildTracks. generalize (TrackBuilder.components tb).
  intros l. revert r. induction l as [|c l IH]; intros r; simpl; [done|].
  rewrite IH. by destruct (TrackBuilder.keeps tb c).
Qed.

Lemma dom_AddView r name group :
  dom (Reconstruction.views r)
  ⊆ dom (Reconstruction.views (Reconstruction.AddView r name group).2).
Proof.
  unfold Reconstruction.AddView. case_bool_decide; simpl; [|done].
  rewrite dom_insert_L. set_solver.
Qed.

Lemma dom_UpdateView r id f :
  dom (Reconstruction.views (Reconstruction.UpdateView r id f))
  = dom (Reconstruction.views r).
Proof. unfold Reconstruction.UpdateView; simpl. apply dom_alter_L. Qed.

Section sync.
Context {TwoViewInfo World : Type}.
Variable SwapCameras : TwoViewInfo → TwoViewInfo.
Variable Estimate :
  World → ViewGraph.t TwoViewInfo → Reconstruction.t →
  ReconstructionEstimatorSummary * ViewGraph.t TwoViewInfo
  * Reconstruction.t * World.
Variable GetFilenameFromFilepath : string → bool → option string.
Variable ExtractAndMatch :
  World → FeatureExtractorAndMatcher.t →
  FeaturesAndMatchesDatabase.t TwoViewInfo →
  FeaturesAndMatchesDatabase.t TwoViewInfo * World.
Implicit Types b : ReconstructionBuilder TwoViewInfo World.
Implicit Types (r : Reconstruction.t) (vg : ViewGraph.t TwoViewInfo).

Lemma dom_select_views_split (P : View.t → bool) r id :
  id ∈ dom (Reconstruction.views r) →
  id ∉ dom (select_views P r) →
  id ∈ dom (select_views (λ v, negb (P v)) r).
Proof.
  unfold select_views. rewrite !elem_of_dom. intros [v Hv] Hn.
  exists v. apply map_lookup_filter_Some. split; [done|]. simpl.
  destruct (P v) eqn:HP; [|done]. exfalso. apply Hn. exists v.
  by apply map_lookup_filter_Some.
Qed.

Lemma dom_select_views_sub (P : View.t → bool) r :
  dom (select_views P r) ⊆ dom (Reconstruction.views r).
Proof. unfold select_views. apply dom_filter_subseteq. Qed.

Lemma AddViewToReconstruction_dom path prior group r ok r' :
  AddViewToReconstruction GetFilenameFromFilepath path prior group r
  = Returned (ok, r') →
  dom (Reconstruction.views r) ⊆ dom (Reconstruction.views r').
Proof.
  unfold AddViewToReconstruction.
  destruct (GetFilenameFromFilepath path true) as [name|]; [|done].
  set (g := if bool_decide (group = kInvalidCameraIntrinsicsGroupId)
            then None else Some group).
  assert ((if bool_decide (group = kInvalidCameraIntrinsicsGroupId)
           then Reconstruction.AddView r name None
           else Reconstruction.AddView r name (Some group))
          = Reconstruction.AddView r name g) as ->.
  { unfold g. by case_bool_decide. }
  pose proof (dom_AddView r name g) as Hdom.
  destruct (Reconstruction.AddView r name g) as [id r1]; simpl in Hdom.
  case_bool_decide; [by intros [= <- <-]|].
  destruct prior as [p|]; [|by intros [= <- <-]].
  destruct (Reconstruction.View r1 id); simpl; [|done].
  intros [= <- <-]. by rewrite dom_UpdateView.
Qed.

Lemma AddTracksForMatch_scene b view_id1 view_id2 m b' :
  AddTracksForMatch b view_id1 view_id2 m = Returned b' →
  reconstruction_ b' = reconstruction_ b ∧ view_graph_ b' = view_graph_ b.
Proof.
  unfold AddTracksForMatch.
  apply (foldM_invariant
           (λ x, reconstruction_ x = reconstruction_ b
                 ∧ view_graph_ x = view_graph_ b)); [|done].
  intros x c x' [Hr Hvg]. destruct (track_builder_ x); simpl; [|done].
  by intros [= <-].
Qed.

Lemma AddTwoViewMatch_in_sync b image1 image2 m ok b' :
  builder_in_sync b →
  AddTwoViewMatch SwapCameras b image1 image2 m = Returned (ok, b') →
  builder_in_sync b'.
Proof.
  intros Hs. unfold AddTwoViewMatch.
  case_bool_decide as H1; [done|]. case_bool_decide as H2; [done|].
  destruct (skips_match _ _ _) as [[]| |]; simpl; [by intros [= <- <-]| |done..].
  destruct (AddTracksForMatch _ _ _ _) as [b1| |] eqn:Ht; simpl; [|done..].
  intros [= <- <-]. apply AddTracksForMatch_scene in Ht as [Hr Hvg].
  unfold builder_in_sync, in_sync in *. rewrite Hr, Hvg.
  cbn [AddMatchToViewGraph view_graph_ reconstruction_ set_view_graph].
  rewrite dom_vertices_AddEdge.
  apply ViewIdFromName_valid in H1, H2. set_solver.
Qed.

Lemma RemoveUncalibratedViews_in_sync b b1 :
  builder_in_sync b → RemoveUncalibratedViews b = Returned b1 →
  builder_in_sync b1.
Proof.
  rewrite RemoveUncalibratedViews_eq. intros Hs [= <-].
  unfold builder_in_sync, in_sync in *.
  cbn [view_graph_ reconstruction_ set_view_graph set_reconstruction
       with_views Reconstruction.views].
  rewrite dom_vertices_without. intros id [Hid Hn]%elem_of_difference.
  apply Hs in Hid.
  destruct (decide (id ∈ dom (select_views calibrated (reconstruction_ b))))
    as [|Hc]; [done|].
  exfalso. apply Hn.
  apply (dom_select_views_split calibrated) in Hc; [|done]. done.
Qed.

Lemma RemoveEstimatedViewsAndTracks_in_sync r vg :
  in_sync r vg →
  in_sync (RemoveEstimatedViewsAndTracks r vg).1
          (RemoveEstimatedViewsAndTracks r vg).2.
Proof.
  rewrite RemoveEstimatedViewsAndTracks_eq. intros Hs.
  unfold in_sync in *.
  cbn [fst snd with_views with_tracks Reconstruction.views].
  rewrite dom_vertices_without. intros id [Hid Hn]%elem_of_difference.
  apply Hs in Hid.
  destruct (decide (id ∈ dom (select_views unestimated_view r)))
    as [|Hc]; [done|].
  exfalso. apply Hn.
  apply (dom_select_views_split unestimated_view) in Hc; [|done].
  revert Hc. unfold select_views, unestimated_view. rewrite !elem_of_dom.
  intros [v [Hv HP]%map_lookup_filter_Some]. exists v.
  apply map_lookup_filter_Some. split; [done|]. simpl in *.
  by destruct (View.IsEstimated v).
Qed.
Lemma AddImageInGroup_in_sync b path group ok b' :
  builder_in_sync b →
  AddImageInGroup GetFilenameFromFilepath b path group = Returned (ok, b') →
  builder_in_sync b'.
Proof.
  intros Hs. unfold AddImageInGroup.
  destruct (AddViewToReconstruction _ _ _ _ _) as [[ok1 r1]| |] eqn:Ha;
    simpl; [|done..].
  apply AddViewToReconstruction_dom in Ha. simpl in Ha.
  destruct ok1; simpl.
  - destruct (feature_extractor_and_matcher_ b); simpl; [|done].
    intros [= <- <-]. unfold builder_in_sync, in_sync in *. simpl.
    set_solver.
  - intros [= <- <-]. unfold builder_in_sync, in_sync in *. simpl.
    set_solver.
Qed.

Lemma AddImageWithCameraIntrinsicsPriorInGroup_in_sync b path p group ok b' :
  builder_in_sync b →
  AddImageWithCameraIntrinsicsPriorInGroup GetFilenameFromFilepath b path p
    group = Returned (ok, b') →
  builder_in_sync b'.
Proof.
  intros Hs. unfold AddImageWithCameraIntrinsicsPriorInGroup.
  destruct (AddViewToReconstruction _ _ _ _ _) as [[ok1 r1]| |] eqn:Ha;
    simpl; [|done..].
  apply AddViewToReconstruction_dom in Ha. simpl in Ha.
  destruct ok1; simpl.
  - destruct (feature_extractor_and_matcher_ b); simpl; [|done].
    intros [= <- <-]. unfold builder_in_sync, in_sync in *. simpl.
    set_solver.
  - intros [= <- <-]. unfold builder_in_sync, in_sync in *. simpl.
    set_solver.
Qed.

Lemma AddMaskForFeaturesExtraction_in_sync b image mask ok b' :
  builder_in_sync b →
  AddMaskForFeaturesExtraction b image mask = Returned (ok, b') →
  builder_in_sync b'.
Proof.
  intros Hs. unfold AddMaskForFeaturesExtraction.
  destruct (feature_extractor_and_matcher_ b); simpl; [|done].
  by intros [= <- <-].
Qed.

Lemma ExtractAndMatchFeatures_in_sync b ok b' :
  builder_in_sync b →
  ExtractAndMatchFeatures SwapCameras ExtractAndMatch b = Returned (ok, b') →
  builder_in_sync b'.
Proof.
  intros Hs. unfold ExtractAndMatchFeatures.
  case_bool_decide; [|done].
  destruct (feature_extractor_and_matcher_ b) as [feam|]; simpl; [|done].
  destruct (features_and_matches_database_ b) as [db|]; simpl; [|done].
  destruct (ExtractAndMatch (rng_ b) feam db) as [db1 w1].
  destruct (foldM _ _ _) as [b1| |] eqn:H1; simpl; [|done..].
  destruct (foldM _ _ b1) as [b2| |] eqn:H2; simpl; [|done..].
  intros [= <- <-].
  eapply (foldM_invariant builder_in_sync) in H2; [done| |].
  - intros x key x' Hx.
    destruct (FeaturesAndMatchesDatabase.GetImagePairMatch _ _ _) as [m|];
      simpl; [|done].
    destruct (AddTwoViewMatch _ _ _ _ _) as [[ok1 x1]| |] eqn:Ht; simpl;
      [|done..].
    intros [= <-]. by eapply AddTwoViewMatch_in_sync.
  - eapply (foldM_invariant builder_in_sync) in H1; [done| |done].
    intros x name x' Hx.
    destruct (Reconstruction.View _ _); simpl; [|done].
    intros [= <-]. unfold builder_in_sync, in_sync in *. simpl.
    by rewrite dom_alter_L.
Qed.

(** The estimator is external; the loop keeps the invariant as long as a call
    of the estimator does. *)
Hypothesis Estimate_in_sync : ∀ w vg r,
  in_sync r vg →
  in_sync (Estimate w vg r).1.2 (Estimate w vg r).1.1.2.

Lemma EstimationLoop_in_sync fuel b recs ok b' out :
  builder_in_sync b →
  EstimationLoop Estimate fuel b recs = Returned (ok, b', out) →
  builder_in_sync b'.
Proof.
  revert b recs. induction fuel as [|fuel IH]; intros b recs Hs; simpl.
  - case_bool_decide; [done|]. by intros [= <- <- <-].
  - case_bool_decide; [|by intros [= <- <- <-]].
    pose proof (Estimate_in_sync (rng_ b) _ _ Hs) as He.
    destruct (Estimate _ _ _) as [[[s vg] r] w]. simpl in He.
    destruct (success s); simpl; [|by intros [= <- <- <-]].
    pose proof (RemoveEstimatedViewsAndTracks_in_sync r vg He) as Hr.
    destruct (RemoveEstimatedViewsAndTracks r vg) as [r' vg'].
    simpl in Hr.
    cbn [options_ set_view_graph set_reconstruction set_rng reconstruction_].
    destruct (reconstruct_largest_connected_component _);
      [by intros [= <- <- <-]|].
    case_bool_decide; [by intros [= <- <- <-]|]. by apply IH.
Qed.

Lemma PrepareReconstruction_in_sync b b1 :
  builder_in_sync b → PrepareReconstruction b = Returned b1 →
  builder_in_sync b1.
Proof.
  intros Hs. rewrite PrepareReconstruction_spec.
  case_bool_decide; [|done]. case_bool_decide.
  - destruct (track_builder_ b) as [tb|]; [|done]. simpl.
    assert (builder_in_sync
              (set_reconstruction b
                 (TrackBuilder.BuildTracks tb (reconstruction_ b)))) as Hs1.
    { unfold builder_in_sync, in_sync in *. simpl.
      by rewrite views_BuildTracks. }
    destruct (only_calibrated_views _); [|by intros [= <-]].
    by apply RemoveUncalibratedViews_in_sync.
  - destruct (only_calibrated_views _); [|by intros [= <-]].
    by apply RemoveUncalibratedViews_in_sync.
Qed.

Lemma BuildReconstruction_in_sync fuel b recs ok b' out :
  builder_in_sync b →
  BuildReconstruction Estimate fuel b recs = Returned (ok, b', out) →
  builder_in_sync b'.
Proof.
  intros Hs. unfold BuildReconstruction.
  destruct (PrepareReconstruction b) as [b1| |] eqn:Hp; simpl; [|done..].
  apply EstimationLoop_in_sync. by eapply PrepareReconstruction_in_sync.
Qed.

Lemma elem_of_dom_select_views (P : View.t → bool) r id :
  id ∈ dom (select_views P r)
  ↔ ∃ v, Reconstruction.View r id = Some v ∧ P v = true.
Proof.
  unfold select_views, Reconstruction.View. rewrite elem_of_dom.
  split.
  - intros [v [Hv HP]%map_lookup_filter_Some]. by exists v.
  - intros (v & Hv & HP). exists v. by apply map_lookup_filter_Some.
Qed.

(** What a filter of the views keeps and what the matching removal leaves in
    the view graph, view by view: the views that fail the test [keep] are
    gone from both, all others stay where they were. *)
Lemma removal_is_mirrored (keep : View.t → bool) r vg id :
  let gone := ∃ v, Reconstruction.View r id = Some v ∧ keep v = false in
  (id ∈ dom (select_views keep r)
   ↔ id ∈ dom (Reconstruction.views r) ∧ ¬ gone)
  ∧ (id ∈ dom (ViewGraph.vertices
                 (without_views vg
                    (dom (select_views (λ v, negb (keep v)) r))))
     ↔ id ∈ dom (ViewGraph.vertices vg) ∧ ¬ gone).
Proof.
  intros gone. subst gone.
  rewrite dom_vertices_without, elem_of_difference.
  rewrite !elem_of_dom_select_views, elem_of_dom.
  unfold Reconstruction.View.
  destruct (Reconstruction.views r !! id) as [v|].
  - assert (∀ Q : View.t → Prop, (∃ v0, Some v = Some v0 ∧ Q v0) ↔ Q v)
      as Hex.
    { intros Q. split; [by intros (? & [= <-] & ?)|intros ?; by exists v]. }
    rewrite !Hex.
    assert (is_Some (Some v)) as Hv by (by exists v).
    destruct (keep v); simpl; split; split; intuition congruence.
  - assert (∀ Q : View.t → Prop, ¬ ∃ v0, None = Some v0 ∧ Q v0) as Hex.
    { by intros Q (? & ? & ?). }
    split; split.
    + intros H. by apply Hex in H.
    + intros [[? ?] _]. discriminate.
    + intros [H _]. split; [done|]. apply Hex.
    + intros [H _]. split; [done|]. apply Hex.
Qed.

(** C9. View removals are mirrored in both collections. The calibration
    filter takes the views of the reconstruction that have no focal-length
    prior, and only those, out of the working reconstruction and out of the
    working view graph alike: a view is in the reconstruction afterwards
    exactly when it was there and has a prior, and in the view graph
    afterwards exactly when it was there and is not such a view. The
    post-round removal does the same with the views flagged estimated. And
    the invariant that every view of the view graph is a view of the
    reconstruction is kept by the two removals, by the ingestion operations,
    by [ExtractAndMatchFeatures] and, given an estimator that keeps it, by
    [BuildReconstruction]. *)
Theorem view_removals_are_mirrored :
  (∀ b b1 id,
     RemoveUncalibratedViews b = Returned b1 →
     let gone :=
       ∃ v, Reconstruction.View (reconstruction_ b) id = Some v
            ∧ calibrated v = false in
     (id ∈ dom (Reconstruction.views (reconstruction_ b1))
      ↔ id ∈ dom (Reconstruction.views (reconstruction_ b)) ∧ ¬ gone)
     ∧ (id ∈ dom (ViewGraph.vertices (view_graph_ b1))
        ↔ id ∈ dom (ViewGraph.vertices (view_graph_ b)) ∧ ¬ gone))
  ∧ (∀ r vg id,
       let gone :=
         ∃ v, Reconstruction.View r id = Some v
              ∧ View.IsEstimated v = true in
       (id ∈ dom (Reconstruction.views
                    (RemoveEstimatedViewsAndTracks r vg).1)
        ↔ id ∈ dom (Reconstruction.views r) ∧ ¬ gone)
       ∧ (id ∈ dom (ViewGraph.vertices
                      (RemoveEstimatedViewsAndTracks r vg).2)
          ↔ id ∈ dom (ViewGraph.vertices vg) ∧ ¬ gone))
  ∧ (∀ b b1, builder_in_sync b → RemoveUncalibratedViews b = Returned b1 →
             builder_in_sync b1)
  ∧ (∀ r vg, in_sync r vg →
             in_sync (RemoveEstimatedViewsAndTracks r vg).1
                     (RemoveEstimatedViewsAndTracks r vg).2)
  ∧ (∀ b image1 image2 m ok b',
       builder_in_sync b →
       AddTwoViewMatch SwapCameras b image1 image2 m = Returned (ok, b') →
       builder_in_sync b')
  ∧ (∀ b path group ok b',
       builder_in_sync b →
       AddImageInGroup GetFilenameFromFilepath b path group
       = Returned (ok, b') →
       builder_in_sync b')
  ∧ (∀ b path p group ok b',
       builder_in_sync b →
       AddImageWithCameraIntrinsicsPriorInGroup GetFilenameFromFilepath b
         path p group = Returned (ok, b') →
       builder_in_sync b')
  ∧ (∀ b image mask ok b',
       builder_in_sync b →
       AddMaskForFeaturesExtraction b image mask = Returned (ok, b') →
       builder_in_sync b')
  ∧ (∀ b ok b',
       builder_in_sync b →
       ExtractAndMatchFeatures SwapCameras ExtractAndMatch b
       = Returned (ok, b') →
       builder_in_sync b')
  ∧ (∀ fuel b recs ok b' out,
       builder_in_sync b →
       BuildReconstruction Estimate fuel b recs = Returned (ok, b', out) →
       builder_in_sync b').
Proof.
  split; [|split; [|split; [|split; [|split; [|split; [|split; [|split;
    [|split]]]]]]]].
  - intros b b1 id. rewrite RemoveUncalibratedViews_eq. intros [= <-].
    cbn [view_graph_ reconstruction_ set_view_graph set_reconstruction
         with_views Reconstruction.views].
    apply (removal_is_mirrored calibrated).
  - intros r vg id. rewrite RemoveEstimatedViewsAndTracks_eq.
    cbn [fst snd with_views with_tracks Reconstruction.views].
    pose proof (removal_is_mirrored unestimated_view r vg id) as [Hr Hvg].
    assert (select_views (λ v, negb (unestimated_view v)) r
            = select_views View.IsEstimated r) as Heq.
    { unfold select_views, unestimated_view. apply map_filter_ext.
      intros i v _. simpl. by rewrite negb_involutive. }
    rewrite Heq in Hvg.
    assert ((∃ v, Reconstruction.View r id = Some v
                  ∧ unestimated_view v = false)
            ↔ ∃ v, Reconstruction.View r id = Some v
                   ∧ View.IsEstimated v = true) as Hg.
    { unfold unestimated_view.
      split; intros (v & Hv & He); exists v; (split; [done|]);
        by destruct (View.IsEstimated v). }
    cbn zeta in *. rewrite <- Hg. by split.
  - apply RemoveUncalibratedViews_in_sync.
  - apply RemoveEstimatedViewsAndTracks_in_sync.
  - apply AddTwoViewMatch_in_sync.
  - apply AddImageInGroup_in_sync.
  - apply AddImageWithCameraIntrinsicsPriorInGroup_in_sync.
  - apply AddMaskForFeaturesExtraction_in_sync.
  - apply ExtractAndMatchFeatures_in_sync.
  - apply BuildReconstruction_in_sync.
Qed.
End sync.

Lemma dom_foldl_UpdateView f l r :
  dom (Reconstruction.views
         (foldl (λ r id, Reconstruction.UpdateView r id f) r l))
  = dom (Reconstruction.views r).
Proof.
  revert r. induction l as [|k l IH]; intros r; simpl; [done|].
  by rewrite IH, dom_UpdateView.
Qed.

Lemma views_foldl_UpdateTrack f l r :
  Reconstruction.views
    (foldl (λ r id, Reconstruction.UpdateTrack r id f) r l)
  = Reconstruction.views r.
Proof.
  revert r. induction l as [|k l IH]; intros r; simpl; [done|].
  by rewrite IH.
Qed.

(** The stand-in estimator leaves the view graph alone and only sets flags in
    the reconstruction, so it keeps the invariant. *)
Lemma Mock_Estimate_in_sync w vg r :
  in_sync r vg →
  in_sync (Mock.Estimate w vg r).1.2 (Mock.Estimate w vg r).1.1.2.
Proof.
  intros Hs. unfold Mock.Estimate.
  destruct (filter _ (Reconstruction.ViewIds r)) as [|id0 ids]; [done|].
  destruct (_ <? 2)%nat; [done|]. cbn [fst snd].
  unfold in_sync in *.
  by rewrite views_foldl_UpdateTrack, dom_foldl_UpdateView.
Qed.

(** The calibration filter on the scene whose uncalibrated view ["c"] was
    matched: ["c"] leaves the reconstruction and the view graph, ["b"] stays
    in both. And the invariant after ingestion through the public interface
    and a run that leaves the component of two views behind. *)
Lemma view_removals_are_mirrored_witness :
  let b := Mock.pair_and_matched_stray in
  let b1 := Mock.returned (RemoveUncalibratedViews b) in
  (2%N ∈ dom (Reconstruction.views (reconstruction_ b))
   ∧ 2%N ∈ dom (ViewGraph.vertices (view_graph_ b)))
  ∧ (¬ (2%N ∈ dom (Reconstruction.views (reconstruction_ b1)))
     ∧ ¬ (2%N ∈ dom (ViewGraph.vertices (view_graph_ b1))))
  ∧ (1%N ∈ dom (Reconstruction.views (reconstruction_ b1))
     ∧ 1%N ∈ dom (ViewGraph.vertices (view_graph_ b1)))
  ∧ builder_in_sync (Mock.outcome (Mock.run 10 Mock.three_and_two)).1.2.
Proof.
  intros b b1.
  pose proof (view_removals_are_mirrored Mock.SwapCameras Mock.Estimate
                Mock.GetFilenameFromFilepath Mock.ExtractAndMatch
                Mock_Estimate_in_sync) as H.
  destruct H as (Hf & _ & _ & _ & _ & _ & _ & _ & _ & H).
  assert (RemoveUncalibratedViews b = Returned b1) as Hb1.
  { vm_compute. reflexivity. }
  destruct (Hf b b1 2%N Hb1) as [Hr2 Hvg2].
  destruct (Hf b b1 1%N Hb1) as [Hr1 Hvg1].
  split; [|split; [|split]].
  - split; apply (bool_decide_unpack _); vm_compute; exact I.
  - split.
    + intros [_ Hn]%Hr2. apply Hn. eexists.
      split; vm_compute; reflexivity.
    + intros [_ Hn]%Hvg2. apply Hn. eexists.
      split; vm_compute; reflexivity.
  - split.
    + apply Hr1. split; [apply (bool_decide_unpack _); vm_compute; exact I|].
      intros (v & Hv & Hc). vm_compute in Hv. injection Hv as <-.
      vm_compute in Hc. discriminate.
    + apply Hvg1. split; [apply (bool_decide_unpack _); vm_compute; exact I|].
      intros (v & Hv & Hc). vm_compute in Hv. injection Hv as <-.
      vm_compute in Hc. discriminate.
  - apply (H 10 (Mock.returned Mock.three_and_two) []
             (Mock.outcome (Mock.run 10 Mock.three_and_two)).1.1
             _
             (Mock.outcome (Mock.run 10 Mock.three_and_two)).2).
    + unfold builder_in_sync, in_sync. apply (bool_decide_unpack _).
      vm_compute. exact I.
    + vm_compute. reflexivity.
Defined.

(** ** One round of the estimation loop *)

Section rounds_facts.
Context {TwoViewInfo World : Type}.
Variable Estimate :
  World → ViewGraph.t TwoViewInfo → Reconstruction.t →
  ReconstructionEstimatorSummary * ViewGraph.t TwoViewInfo
  * Reconstruction.t * World.
Implicit Types b : ReconstructionBuilder TwoViewInfo World.
Implicit Types recs : list Reconstruction.t.

Lemma options_estimated b : options_ (estimated Estimate b).2 = options_ b.
Proof.
  unfold estimated. by destruct (Estimate _ _ _) as [[[s vg] r] w].
Qed.

Lemma options_harvested b : options_ (harvested b) = options_ b.
Proof.
  unfold harvested. by destruct (RemoveEstimatedViewsAndTracks _ _).
Qed.

Lemma length_snoc_pos {A} (l : list A) x :
  bool_decide (0 < length (l ++ [x])) = true.
Proof. apply bool_decide_eq_true_2. rewrite length_app. simpl. lia. Qed.

(** The loop, one round unrolled. *)
Lemma EstimationLoop_round fuel b recs :
  1 < Reconstruction.NumViews (reconstruction_ b) →
  EstimationLoop Estimate (S fuel) b recs =
  let b1 := (estimated Estimate b).2 in
  if negb (success (estimated Estimate b).1) then
    Returned (bool_decide (0 < length recs), b1, recs)
  else
    let recs1 :=
      recs ++ [CreateEstimatedSubreconstruction (reconstruction_ b1)] in
    let b2 := harvested b1 in
    if reconstruct_largest_connected_component (options_ b)
       || bool_decide (Reconstruction.NumViews (reconstruction_ b2) < 3)
    then Returned (true, b2, recs1)
    else EstimationLoop Estimate fuel b2 recs1.
Proof.
  intros Hn. cbn [EstimationLoop]. rewrite bool_decide_eq_true_2 by done.
  unfold estimated, harvested.
  destruct (Estimate _ _ _) as [[[s vg] r] w]. cbn [fst snd].
  destruct (success s); cbn [negb]; [|done].
  cbn [reconstruction_ view_graph_ set_rng set_view_graph set_reconstruction
       options_].
  destruct (RemoveEstimatedViewsAndTracks r vg) as [r' vg'].
  cbn [reconstruction_ view_graph_ set_rng set_view_graph set_reconstruction
       options_].
  rewrite length_snoc_pos.
  destruct (reconstruct_largest_connected_component _); [done|].
  cbn [orb]. by case_bool_decide.
Qed.

Lemma EstimationLoop_done fuel b recs :
  ¬ 1 < Reconstruction.NumViews (reconstruction_ b) →
  EstimationLoop Estimate fuel b recs = Returned (true, b, recs).
Proof.
  intros Hn. destruct fuel; cbn [EstimationLoop];
    by rewrite bool_decide_eq_false_2.
Qed.

(** The output vector only grows at its end. *)
Lemma EstimationLoop_prefix fuel b recs ok b' out :
  EstimationLoop Estimate fuel b recs = Returned (ok, b', out) →
  recs `prefix_of` out.
Proof.
  revert b recs. induction fuel as [|fuel IH]; intros b recs.
  - cbn [EstimationLoop]. case_bool_decide; [done|]. by intros [= <- <- <-].
  - destruct (decide (1 < Reconstruction.NumViews (reconstruction_ b)))
      as [Hn|Hn].
    + rewrite EstimationLoop_round by done. cbn zeta.
      destruct (negb _); [by intros [= <- <- <-]|].
      destruct (_ || _).
      * intros [= <- <- <-]. by apply prefix_app_r.
      * intros Hl%IH. etrans; [|done]. by apply prefix_app_r.
    + rewrite EstimationLoop_done by done. by intros [= <- <- <-].
Qed.

Lemma lookup_select_views (P : View.t → bool) (r : Reconstruction.t) id :
  select_views P r !! id =
  match Reconstruction.views r !! id with
  | Some v => if P v then Some v else None
  | None => None
  end.
Proof.
  unfold select_views. rewrite map_lookup_filter.
  destruct (Reconstruction.views r !! id) as [v|]; simpl; [|done].
  case_guard as HP; simpl in HP; destruct (P v); done.
Qed.

Lemma lookup_select_tracks (P : Track.t → bool) (r : Reconstruction.t) id :
  select_tracks P r !! id =
  match Reconstruction.tracks r !! id with
  | Some v => if P v then Some v else None
  | None => None
  end.
Proof.
  unfold select_tracks. rewrite map_lookup_filter.
  destruct (Reconstruction.tracks r !! id) as [v|]; simpl; [|done].
  case_guard as HP; simpl in HP; destruct (P v); done.
Qed.

(** C2. After a successful round the snapshot appended to the output vector
    holds exactly the views and exactly the tracks that the estimator flagged
    as estimated, each with the value it has in the working scene; the
    working reconstruction is left with exactly the views and tracks that are
    not flagged, and the working view graph loses the views of the snapshot
    together with their edges. The snapshot is the new last element of the
    output vector and, being a value of its own, stays what it is whatever
    later rounds do to the working scene. *)
Theorem successful_round_snapshots_and_removes fuel b recs :
  1 < Reconstruction.NumViews (reconstruction_ b) →
  success (estimated Estimate b).1 = true →
  let b1 := (estimated Estimate b).2 in
  let snapshot := CreateEstimatedSubreconstruction (reconstruction_ b1) in
  let b2 := harvested b1 in
  (∀ id, Reconstruction.View snapshot id =
         match Reconstruction.View (reconstruction_ b1) id with
         | Some v => if View.IsEstimated v then Some v else None
         | None => None
         end)
  ∧ (∀ id, Reconstruction.Track snapshot id =
           match Reconstruction.Track (reconstruction_ b1) id with
           | Some t => if Track.IsEstimated t then Some t else None
           | None => None
           end)
  ∧ (∀ id, Reconstruction.View (reconstruction_ b2) id =
           match Reconstruction.View (reconstruction_ b1) id with
           | Some v => if View.IsEstimated v then None else Some v
           | None => None
           end)
  ∧ (∀ id, Reconstruction.Track (reconstruction_ b2) id =
           match Reconstruction.Track (reconstruction_ b1) id with
           | Some t => if Track.IsEstimated t then None else Some t
           | None => None
           end)
  ∧ view_graph_ b2
    = without_views (view_graph_ b1) (dom (Reconstruction.views snapshot))
  ∧ EstimationLoop Estimate (S fuel) b recs
    = (if reconstruct_largest_connected_component (options_ b)
          || bool_decide (Reconstruction.NumViews (reconstruction_ b2) < 3)
       then Returned (true, b2, recs ++ [snapshot])
       else EstimationLoop Estimate fuel b2 (recs ++ [snapshot]))
  ∧ (∀ ok b' out,
       EstimationLoop Estimate (S fuel) b recs = Returned (ok, b', out) →
       (recs ++ [snapshot]) `prefix_of` out).
Proof.
  intros Hn Hs b1 snapshot b2.
  assert (EstimationLoop Estimate (S fuel) b recs
          = (if reconstruct_largest_connected_component (options_ b)
                || bool_decide
                     (Reconstruction.NumViews (reconstruction_ b2) < 3)
             then Returned (true, b2, recs ++ [snapshot])
             else EstimationLoop Estimate fuel b2 (recs ++ [snapshot])))
    as Hloop.
  { rewrite EstimationLoop_round by done. cbn zeta. by rewrite Hs. }
  assert (reconstruction_ b2
          = with_tracks
              (with_views (reconstruction_ b1)
                          (select_views unestimated_view (reconstruction_ b1)))
              (select_tracks unestimated_track (reconstruction_ b1))
          ∧ view_graph_ b2
            = without_views (view_graph_ b1)
                (dom (select_views View.IsEstimated (reconstruction_ b1))))
    as [Hr2 Hvg2].
  { unfold b2, harvested. rewrite RemoveEstimatedViewsAndTracks_eq. done. }
  assert (snapshot
          = with_tracks
              (with_views (reconstruction_ b1)
                          (select_views View.IsEstimated (reconstruction_ b1)))
              (select_tracks Track.IsEstimated (reconstruction_ b1)))
    as Hsnap by apply CreateEstimatedSubreconstruction_eq.
  split; [|split; [|split; [|split; [|split; [|split]]]]].
  - intros id. rewrite Hsnap. apply lookup_select_views.
  - intros id. rewrite Hsnap. apply lookup_select_tracks.
  - intros id. rewrite Hr2. unfold Reconstruction.View.
    cbn [with_views with_tracks Reconstruction.views].
    rewrite lookup_select_views. unfold unestimated_view.
    destruct (Reconstruction.views (reconstruction_ b1) !! id) as [v|];
      [|done]. by destruct (View.IsEstimated v).
  - intros id. rewrite Hr2. unfold Reconstruction.Track.
    cbn [with_views with_tracks Reconstruction.tracks].
    rewrite lookup_select_tracks. unfold unestimated_track.
    destruct (Reconstruction.tracks (reconstruction_ b1) !! id) as [v|];
      [|done]. by destruct (Track.IsEstimated v).
  - by rewrite Hvg2, Hsnap.
  - exact Hloop.
  - intros ok b' out. rewrite Hloop.
    destruct (_ || _).
    + by intros [= <- <- <-].
    + apply EstimationLoop_prefix.
Qed.
End rounds_facts.

(** The first round on the scene with two components of three views. *)
Lemma successful_round_snapshots_and_removes_witness :
  EstimationLoop Mock.Estimate 2
    (Mock.returned (Mock.three_and_three true)) []
  = Returned
      (true,
       harvested
         (estimated Mock.Estimate
            (Mock.returned (Mock.three_and_three true))).2,
       [CreateEstimatedSubreconstruction
          (reconstruction_
             (estimated Mock.Estimate
                (Mock.returned (Mock.three_and_three true))).2)]).
Proof.
  pose proof (successful_round_snapshots_and_removes Mock.Estimate 1
                (Mock.returned (Mock.three_and_three true)) []) as H.
  destruct H as (_ & _ & _ & _ & _ & H & _).
  - vm_compute. lia.
  - vm_compute. reflexivity.
  - rewrite H. reflexivity.
Defined.

(** ** The result of [BuildReconstruction] *)

Section claims_result.
Context {TwoViewInfo World : Type}.
Variable Estimate :
  World → ViewGraph.t TwoViewInfo → Reconstruction.t →
  ReconstructionEstimatorSummary * ViewGraph.t TwoViewInfo
  * Reconstruction.t * World.
Implicit Types b : ReconstructionBuilder TwoViewInfo World.
Implicit Types recs : list Reconstruction.t.

(** Once the loop has been entered, the result is true exactly when the
    output vector is not empty. *)
Lemma EstimationLoop_flag fuel b recs ok b' out :
  1 < Reconstruction.NumViews (reconstruction_ b) →
  EstimationLoop Estimate fuel b recs = Returned (ok, b', out) →
  ok = bool_decide (0 < length out).
Proof.
  revert b recs. induction fuel as [|fuel IH]; intros b recs Hn.
  - cbn [EstimationLoop]. by rewrite bool_decide_eq_true_2.
  - rewrite EstimationLoop_round by done. cbn zeta.
    destruct (negb _); [intros ?; by simplify_eq|].
    destruct (reconstruct_largest_connected_component _); cbn [orb].
    + intros ?; simplify_eq. symmetry. apply bool_decide_eq_true_2.
      rewrite length_app. simpl. lia.
    + destruct (bool_decide (Reconstruction.NumViews _ < 3)) eqn:Hlt.
      * intros ?; simplify_eq. symmetry. apply bool_decide_eq_true_2.
        rewrite length_app. simpl. lia.
      * apply IH. apply bool_decide_eq_false_1 in Hlt. lia.
Qed.

(** A failed round ends the loop with the output vector as it stands. *)
Lemma EstimationLoop_failed_round fuel b recs :
  1 < Reconstruction.NumViews (reconstruction_ b) →
  success (estimated Estimate b).1 = false →
  EstimationLoop Estimate (S fuel) b recs
  = Returned (bool_decide (0 < length recs), (estimated Estimate b).2, recs).
Proof.
  intros Hn Hs. rewrite EstimationLoop_round by done. cbn zeta.
  by rewrite Hs.
Qed.

(** The loop can run for ever only on an estimator that reports success
    without estimating a view. If every successful round leaves fewer views
    than it found, as many units of fuel as there are views suffice. *)
Lemma EstimationLoop_returns fuel b recs :
  (∀ b0, 1 < Reconstruction.NumViews (reconstruction_ b0) →
         success (estimated Estimate b0).1 = true →
         Reconstruction.NumViews
           (reconstruction_ (harvested (estimated Estimate b0).2))
         < Reconstruction.NumViews (reconstruction_ b0)) →
  Reconstruction.NumViews (reconstruction_ b) ≤ fuel →
  ∃ res, EstimationLoop Estimate fuel b recs = Returned res.
Proof.
  intros Hprogress. revert b recs.
  induction fuel as [|fuel IH]; intros b recs Hfuel.
  - rewrite EstimationLoop_done by lia. by eexists.
  - destruct (decide (1 < Reconstruction.NumViews (reconstruction_ b)))
      as [Hn|Hn]; [|rewrite EstimationLoop_done by done; by eexists].
    rewrite EstimationLoop_round by done. cbn zeta.
    destruct (success (estimated Estimate b).1) eqn:Hs; cbn [negb];
      [|by eexists].
    destruct (_ || _); [by eexists|].
    apply IH. specialize (Hprogress b Hn Hs). lia.
Qed.

(** When no view survives the preparation, the loop is not entered and the
    function answers true, output or not. *)
Lemma BuildReconstruction_loop_not_entered fuel b b1 recs :
  PrepareReconstruction b = Returned b1 →
  ¬ 1 < Reconstruction.NumViews (reconstruction_ b1) →
  BuildReconstruction Estimate fuel b recs = Returned (true, b1, recs).
Proof.
  intros Hp Hn. unfold BuildReconstruction. rewrite Hp, bind_Returned.
  by apply EstimationLoop_done.
Qed.
End claims_result.

(** C1. [BuildReconstruction] is meant to succeed exactly when the output
    vector holds a reconstruction: every exit inside the loop returns
    [reconstructions->size() > 0]. The exit after the loop returns true
    unconditionally. On a ready-made scene of two views without a prior, in
    calibrated-only mode, the calibration filter removes both views, the loop
    is not entered, and the call answers true with an empty output vector. *)
Theorem BuildReconstruction_true_without_reconstruction :
  2 ≤ ViewGraph.NumViews (view_graph_ Mock.ready_made_uncalibrated)
  ∧ ∃ b', BuildReconstruction Mock.Estimate 1 Mock.ready_made_uncalibrated []
          = Returned (true, b', []).
Proof.
  split; [vm_compute; lia|].
  eexists. eapply BuildReconstruction_loop_not_entered.
  - vm_compute. reflexivity.
  - vm_compute. lia.
Qed.

(** ** When tracks are built *)

Section claims_tracks.
Context {TwoViewInfo World : Type}.
Variable Estimate :
  World → ViewGraph.t TwoViewInfo → Reconstruction.t →
  ReconstructionEstimatorSummary * ViewGraph.t TwoViewInfo
  * Reconstruction.t * World.
Implicit Types b : ReconstructionBuilder TwoViewInfo World.
Implicit Types recs : list Reconstruction.t.

Lemma set_track_builder_estimated b tb :
  estimated Estimate (set_track_builder b tb)
  = ((estimated Estimate b).1, set_track_builder (estimated Estimate b).2 tb).
Proof.
  unfold estimated. cbn [rng_ view_graph_ reconstruction_ set_track_builder].
  by destruct (Estimate _ _ _) as [[[s vg] r] w].
Qed.

Lemma set_track_builder_harvested b tb :
  harvested (set_track_builder b tb) = set_track_builder (harvested b) tb.
Proof.
  unfold harvested. cbn [view_graph_ reconstruction_ set_track_builder].
  by destruct (RemoveEstimatedViewsAndTracks _ _).
Qed.

(** The loop neither reads nor writes the track builder. *)
Lemma EstimationLoop_ignores_track_builder fuel b recs tb :
  EstimationLoop Estimate fuel (set_track_builder b tb) recs
  = x ← EstimationLoop Estimate fuel b recs;
    Returned (x.1.1, set_track_builder x.1.2 tb, x.2).
Proof.
  revert b recs. induction fuel as [|fuel IH]; intros b recs.
  - cbn [EstimationLoop reconstruction_ set_track_builder].
    by case_bool_decide.
  - destruct (decide (1 < Reconstruction.NumViews (reconstruction_ b)))
      as [Hn|Hn].
    + rewrite !EstimationLoop_round by done. cbn zeta.
      rewrite !set_track_builder_estimated. cbn [fst snd].
      destruct (negb _); [done|].
      rewrite !set_track_builder_harvested.
      cbn [options_ reconstruction_ set_track_builder].
      destruct (_ || _); [done|]. apply IH.
    + by rewrite !EstimationLoop_done.
Qed.

Lemma tracks_RemoveUncalibratedViews b b1 :
  RemoveUncalibratedViews b = Returned b1 →
  Reconstruction.tracks (reconstruction_ b1)
  = Reconstruction.tracks (reconstruction_ b).
Proof. rewrite RemoveUncalibratedViews_eq. by intros [= <-]. Qed.

(** C3, as the code has it. Tracks are built once, before the loop and
    before the calibration filter: when the view graph has at least two views,
    the working reconstruction has no tracks and the track builder is there,
    the preparation returns a builder whose tracks are the ones built from the
    accumulated correspondences, and [BuildReconstruction] is the loop run on
    that builder. The rounds of the loop do not build tracks: the loop runs
    the same whatever the track builder holds and hands it back untouched. *)
Theorem tracks_are_built_once_before_the_loop :
  (∀ fuel b recs tb,
     2 ≤ ViewGraph.NumViews (view_graph_ b) →
     Reconstruction.NumTracks (reconstruction_ b) = 0 →
     track_builder_ b = Some tb →
     ∃ b1, PrepareReconstruction b = Returned b1
           ∧ Reconstruction.tracks (reconstruction_ b1)
             = Reconstruction.tracks
                 (TrackBuilder.BuildTracks tb (reconstruction_ b))
           ∧ BuildReconstruction Estimate fuel b recs
             = EstimationLoop Estimate fuel b1 recs)
  ∧ (∀ fuel b recs tb,
       EstimationLoop Estimate fuel (set_track_builder b tb) recs
       = x ← EstimationLoop Estimate fuel b recs;
         Returned (x.1.1, set_track_builder x.1.2 tb, x.2)).
Proof.
  split; [|apply EstimationLoop_ignores_track_builder].
  intros fuel b recs tb Hn Ht Htb.
  assert (∃ b1, PrepareReconstruction b = Returned b1
                ∧ Reconstruction.tracks (reconstruction_ b1)
                  = Reconstruction.tracks
                      (TrackBuilder.BuildTracks tb (reconstruction_ b)))
    as (b1 & Hp & Htr).
  { rewrite PrepareReconstruction_spec.
    rewrite !bool_decide_eq_true_2 by done. rewrite Htb. cbn zeta.
    destruct (only_calibrated_views _); [|by eexists].
    rewrite RemoveUncalibratedViews_eq. by eexists. }
  exists b1. split; [done|]. split; [done|].
  unfold BuildReconstruction. by rewrite Hp.
Qed.
End claims_tracks.

(** The scene with one track in its first component: the preparation builds
    that track, and the build is the loop on the prepared builder. *)
Lemma tracks_are_built_once_before_the_loop_witness :
  ∃ b1, PrepareReconstruction (Mock.returned Mock.tracks_only_in_first)
        = Returned b1
        ∧ Reconstruction.NumTracks (reconstruction_ b1) = 1
        ∧ BuildReconstruction Mock.Estimate 10
            (Mock.returned Mock.tracks_only_in_first) []
          = EstimationLoop Mock.Estimate 10 b1 [].
Proof.
  destruct (proj1 (tracks_are_built_once_before_the_loop Mock.Estimate) 10
              (Mock.returned Mock.tracks_only_in_first) []
              (default (TrackBuilder.Create 2 20)
                 (track_builder_ (Mock.returned Mock.tracks_only_in_first))))
    as (b1 & Hp & Ht & Hb).
  - vm_compute. lia.
  - vm_compute. reflexivity.
  - vm_compute. reflexivity.
  - exists b1. split; [exact Hp|]. split; [|exact Hb].
    unfold Reconstruction.NumTracks. rewrite Ht. vm_compute. reflexivity.
Defined.

(** C3 as stated fails. In the second round of this run the working
    reconstruction has three views and no track, the estimator is called on
    it as it is (the second entry of its log), and the track builder of the
    run would have given it a track. *)
Lemma tracks_are_not_rebuilt_in_later_rounds :
  let b0 := Mock.returned Mock.tracks_only_in_first in
  let res := Mock.outcome (BuildReconstruction Mock.Estimate 10 b0 []) in
  BuildReconstruction Mock.Estimate 10 b0 [] = Returned res
  ∧ ∃ tb r2,
      track_builder_ b0 = Some tb
      ∧ rng_ res.1.2 !! 1 = Some r2
      ∧ Reconstruction.NumViews r2 = 3
      ∧ Reconstruction.NumTracks r2 = 0
      ∧ Reconstruction.NumTracks (TrackBuilder.BuildTracks tb r2) = 1.
Proof.
  split; [vm_compute; reflexivity|].
  eexists _, _. split; [vm_compute; reflexivity|].
  split; [vm_compute; reflexivity|].
  repeat split; vm_compute; reflexivity.
Qed.

(** ** Single-largest-component mode and the number of reconstructions *)

Section claims_components.
Context {TwoViewInfo World : Type}.
Variable Estimate :
  World → ViewGraph.t TwoViewInfo → Reconstruction.t →
  ReconstructionEstimatorSummary * ViewGraph.t TwoViewInfo
  * Reconstruction.t * World.
Implicit Types b : ReconstructionBuilder TwoViewInfo World.
Implicit Types recs : list Reconstruction.t.



End claims_components.



(** ** The extract-and-match step and later ingestion *)

Section claims_states.
Context {TwoViewInfo World : Type}.
Variable SwapCameras : TwoViewInfo → TwoViewInfo.
Variable GetFilenameFromFilepath : string → bool → option string.
Variable ExtractAndMatch :
  World → FeatureExtractorAndMatcher.t →
  FeaturesAndMatchesDatabase.t TwoViewInfo →
  FeaturesAndMatchesDatabase.t TwoViewInfo * World.
Implicit Types b : ReconstructionBuilder TwoViewInfo World.

Lemma AddTracksForMatch_set_extractor b x view_id1 view_id2 m :
  AddTracksForMatch (set_extractor b x) view_id1 view_id2 m
  = b' ← AddTracksForMatch b view_id1 view_id2 m;
    Returned (set_extractor b' x).
Proof.
  unfold AddTracksForMatch. generalize (correspondences m). intros l.
  revert b. induction l as [|c l IH]; intros b; cbn [foldM]; [done|].
  cbn [track_builder_ set_extractor].
  destruct (track_builder_ b) as [tb|]; cbn [deref]; [|done].
  rewrite !bind_Returned.
  change (set_track_builder (set_extractor b x) ?t)
    with (set_extractor (set_track_builder b t) x).
  apply IH.
Qed.

Lemma AddTracksForMatch_extractor b view_id1 view_id2 m b' :
  AddTracksForMatch b view_id1 view_id2 m = Returned b' →
  feature_extractor_and_matcher_ b' = feature_extractor_and_matcher_ b.
Proof.
  unfold AddTracksForMatch.
  apply (foldM_invariant
           (λ x, feature_extractor_and_matcher_ x
                 = feature_extractor_and_matcher_ b)); [|done].
  intros x c x' Hx. destruct (track_builder_ x); simpl; [|done].
  by intros [= <-].
Qed.

Lemma AddTwoViewMatch_extractor b image1 image2 m ok b' :
  AddTwoViewMatch SwapCameras b image1 image2 m = Returned (ok, b') →
  feature_extractor_and_matcher_ b' = feature_extractor_and_matcher_ b.
Proof.
  unfold AddTwoViewMatch.
  case_bool_decide; [done|]. case_bool_decide; [done|].
  destruct (skips_match _ _ _) as [[]| |]; simpl; [by intros [= <- <-]| |done..].
  destruct (AddTracksForMatch _ _ _ _) as [b1| |] eqn:Ht; simpl; [|done..].
  intros [= <- <-]. by apply AddTracksForMatch_extractor in Ht.
Qed.

Lemma NumViews_AddEdge (vg : ViewGraph.t TwoViewInfo) (i j : ViewId) g :
  ViewGraph.NumViews (ViewGraph.AddEdge vg i j g) ≠ 0.
Proof.
  unfold ViewGraph.NumViews. rewrite map_size_non_empty_iff.
  intros He. pose proof (dom_vertices_AddEdge vg i j g) as Hd.
  rewrite He, dom_empty_L in Hd. set_solver.
Qed.

Lemma ExtractAndMatchFeatures_guard b :
  ViewGraph.NumViews (view_graph_ b) ≠ 0 →
  ExtractAndMatchFeatures SwapCameras ExtractAndMatch b
  = Aborted CHECK_EQ_NumViews_0.
Proof.
  intros Hn. unfold ExtractAndMatchFeatures.
  by rewrite bool_decide_eq_false_2.
Qed.

Lemma AddTwoViewMatch_outcome b image1 image2 m ok b' :
  AddTwoViewMatch SwapCameras b image1 image2 m = Returned (ok, b') →
  ok = true ∧ (b' = b ∨ ViewGraph.NumViews (view_graph_ b') ≠ 0).
Proof.
  unfold AddTwoViewMatch.
  case_bool_decide; [done|]. case_bool_decide; [done|].
  destruct (skips_match _ _ _) as [[]| |]; simpl;
    [intros [= <- <-]; by split; [|left]| |done..].
  destruct (AddTracksForMatch _ _ _ _) as [b1| |] eqn:Ht; simpl; [|done..].
  intros [= <- <-]. split; [done|]. right.
  apply AddTracksForMatch_scene in Ht as [_ ->].
  apply NumViews_AddEdge.
Qed.

Lemma skips_match_set_extractor b x v1 v2 :
  skips_match (set_extractor b x) v1 v2 = skips_match b v1 v2.
Proof. done. Qed.

Lemma AddTwoViewMatch_set_extractor b x image1 image2 m :
  AddTwoViewMatch SwapCameras (set_extractor b x) image1 image2 m
  = y ← AddTwoViewMatch SwapCameras b image1 image2 m;
    Returned (y.1, set_extractor y.2 x).
Proof.
  unfold AddTwoViewMatch. cbn [reconstruction_ set_extractor].
  set (id1 := Reconstruction.ViewIdFromName (reconstruction_ b) image1).
  set (id2 := Reconstruction.ViewIdFromName (reconstruction_ b) image2).
  case_bool_decide; [done|]. case_bool_decide; [done|].
  rewrite skips_match_set_extractor.
  destruct (skips_match _ _ _) as [[]| |]; [reflexivity| |reflexivity..].
  rewrite !bind_Returned.
  change (AddMatchToViewGraph SwapCameras (set_extractor b x) id1 id2 m)
    with (set_extractor (AddMatchToViewGraph SwapCameras b id1 id2 m) x).
  rewrite AddTracksForMatch_set_extractor.
  destruct (AddTracksForMatch _ id1 id2 m); reflexivity.
Qed.

Lemma ExtractAndMatchFeatures_releases b ok b' :
  ExtractAndMatchFeatures SwapCameras ExtractAndMatch b = Returned (ok, b') →
  feature_extractor_and_matcher_ b' = None.
Proof.
  unfold ExtractAndMatchFeatures.
  case_bool_decide; [|done].
  destruct (feature_extractor_and_matcher_ b) as [feam|]; simpl; [|done].
  destruct (features_and_matches_database_ b) as [db|]; simpl; [|done].
  destruct (ExtractAndMatch (rng_ b) feam db) as [db1 w1].
  destruct (foldM _ _ _) as [b1| |] eqn:H1; simpl; [|done..].
  destruct (foldM _ _ b1) as [b2| |] eqn:H2; simpl; [|done..].
  intros [= <- <-].
  eapply (foldM_invariant (λ x, feature_extractor_and_matcher_ x = None))
    in H2; [done| |].
  - intros x key x' Hx.
    destruct (FeaturesAndMatchesDatabase.GetImagePairMatch _ _ _) as [m|];
      simpl; [|done].
    destruct (AddTwoViewMatch _ _ _ _ _) as [[ok1 x1]| |] eqn:Ht; simpl;
      [|done..].
    intros [= <-]. apply AddTwoViewMatch_extractor in Ht. congruence.
  - eapply (foldM_invariant (λ x, feature_extractor_and_matcher_ x = None))
      in H1; [done| |done].
    intros x name x' Hx.
    destruct (Reconstruction.View _ _); simpl; [|done].
    by intros [= <-].
Qed.

Lemma AddImageInGroup_released b path group :
  feature_extractor_and_matcher_ b = None →
  match AddImageInGroup GetFilenameFromFilepath b path group with
  | Returned (ok, _) => ok = false
  | Aborted e => e = CHECK_GetFilename ∨ e = NullDereference
  | Timeout => False
  end.
Proof.
  intros Hx. unfold AddImageInGroup.
  destruct (AddViewToReconstruction _ _ _ _ _) as [[ok r]|e|] eqn:Ha; simpl.
  - destruct ok; simpl; [|done]. rewrite Hx. simpl. by right.
  - revert Ha. unfold AddViewToReconstruction.
    destruct (GetFilenameFromFilepath path true); [|intros [= <-]; by left].
    destruct (if bool_decide _ then _ else _) as [id r1].
    case_bool_decide; [done|]. done.
  - revert Ha. unfold AddViewToReconstruction.
    destruct (GetFilenameFromFilepath path true); [|done].
    destruct (if bool_decide _ then _ else _) as [id r1].
    by case_bool_decide.
Qed.

(** C8, as the code has it. [ExtractAndMatchFeatures] aborts on
    [CHECK_EQ(NumViews(), 0)] whenever the view graph holds a view, which is
    the case after every call of [AddTwoViewMatch] that stored its match
    instead of skipping it; the step is one-time, for it releases the
    extractor and a second call aborts. Ingestion after the step is not
    closed by a check of its own: [AddTwoViewMatch] does not look at the
    extractor and does in the matched state what it does before it, and
    [AddImage] gets as far as the released extractor, where it aborts, unless
    the view could not be added, in which case it returns false. *)
Theorem extract_and_match_is_guarded :
  (∀ b, ViewGraph.NumViews (view_graph_ b) ≠ 0 →
        ExtractAndMatchFeatures SwapCameras ExtractAndMatch b
        = Aborted CHECK_EQ_NumViews_0)
  ∧ (∀ b image1 image2 m ok b',
       AddTwoViewMatch SwapCameras b image1 image2 m = Returned (ok, b') →
       ok = true
       ∧ (b' = b
          ∨ ExtractAndMatchFeatures SwapCameras ExtractAndMatch b'
            = Aborted CHECK_EQ_NumViews_0))
  ∧ (∀ b ok b',
       ExtractAndMatchFeatures SwapCameras ExtractAndMatch b
       = Returned (ok, b') →
       feature_extractor_and_matcher_ b' = None
       ∧ (ExtractAndMatchFeatures SwapCameras ExtractAndMatch b'
          = Aborted CHECK_EQ_NumViews_0
          ∨ ExtractAndMatchFeatures SwapCameras ExtractAndMatch b'
            = Aborted NullDereference))
  ∧ (∀ b x image1 image2 m,
       AddTwoViewMatch SwapCameras (set_extractor b x) image1 image2 m
       = y ← AddTwoViewMatch SwapCameras b image1 image2 m;
         Returned (y.1, set_extractor y.2 x))
  ∧ (∀ b path group,
       feature_extractor_and_matcher_ b = None →
       match AddImageInGroup GetFilenameFromFilepath b path group with
       | Returned (ok, _) => ok = false
       | Aborted e => e = CHECK_GetFilename ∨ e = NullDereference
       | Timeout => False
       end).
Proof.
  split; [apply ExtractAndMatchFeatures_guard|].
  split; [|split; [|split;
    [apply AddTwoViewMatch_set_extractor|apply AddImageInGroup_released]]].
  - intros b image1 image2 m ok b' [-> [->|Hn]]%AddTwoViewMatch_outcome;
      (split; [done|]); [by left|right].
    by apply ExtractAndMatchFeatures_guard.
  - intros b ok b' Hx%ExtractAndMatchFeatures_releases. split; [done|].
    unfold ExtractAndMatchFeatures. case_bool_decide; [|by left].
    rewrite Hx. by right.
Qed.
End claims_states.

(** A match stored before the step makes the step abort. *)
Lemma extract_and_match_is_guarded_witness :
  ExtractAndMatchFeatures Mock.SwapCameras Mock.ExtractAndMatch
    (Mock.returned (Mock.three_and_two))
  = Aborted CHECK_EQ_NumViews_0.
Proof.
  apply (proj1 (extract_and_match_is_guarded (World := list Reconstruction.t)
                  Mock.SwapCameras Mock.GetFilenameFromFilepath
                  Mock.ExtractAndMatch)).
  vm_compute. lia.
Defined.

(** C8 as stated fails. In the matched state (the step has returned and the
    extractor is released) [AddTwoViewMatch] is accepted: it returns true and
    the view graph, empty before, holds the edge. *)
Lemma ingestion_after_matching_is_accepted :
  let bm := Mock.two_images_matched in
  let res := AddTwoViewMatch Mock.SwapCameras bm "a" "b" (Mock.point_match 1) in
  ExtractAndMatchFeatures Mock.SwapCameras Mock.ExtractAndMatch
    Mock.two_images = Returned (true, bm)
  ∧ feature_extractor_and_matcher_ bm = None
  ∧ ViewGraph.NumEdges (view_graph_ bm) = 0
  ∧ ∃ b', res = Returned (true, b')
          ∧ ViewGraph.NumEdges (view_graph_ b') = 1
          ∧ ViewGraph.GetEdge (view_graph_ b') 0 1 = Some 1%Z.
Proof.
  split; [vm_compute; reflexivity|].
  split; [vm_compute; reflexivity|]. split; [vm_compute; reflexivity|].
  eexists. split; [vm_compute; reflexivity|].
  split; vm_compute; reflexivity.
Qed.

(** * Further properties of the builder *)

(** ** Ingestion of a two-view match *)

Section more_on_matches.
Context {TwoViewInfo World : Type}.
Variable SwapCameras : TwoViewInfo → TwoViewInfo.
Implicit Types b : ReconstructionBuilder TwoViewInfo World.

Lemma skips_match_outcome b v1 v2 :
  match skips_match b v1 v2 with
  | Returned _ => True
  | Aborted e => e = NullDereference
  | Timeout => False
  end.
Proof.
  unfold skips_match. destruct (only_calibrated_views _); [|done].
  destruct v1 as [v1|]; cbn [deref]; [|done]. rewrite bind_Returned.
  destruct (negb _); [done|]. by destruct v2.
Qed.

(** With a track builder the loop of [AddTracksForMatch] is a plain fold;
    without one it gets through an empty list only. *)
Lemma AddTracksForMatch_present b tb view_id1 view_id2 m :
  track_builder_ b = Some tb →
  AddTracksForMatch b view_id1 view_id2 m
  = Returned
      (set_track_builder b
         (Some (foldl (λ tb c,
                         TrackBuilder.AddFeatureCorrespondence tb
                           view_id1 (feature1 c) view_id2 (feature2 c))
                      tb (correspondences m)))).
Proof.
  unfold AddTracksForMatch. generalize (correspondences m). intros l.
  revert b tb. induction l as [|c l IH]; intros b tb Htb; cbn [foldM foldl].
  - rewrite <- Htb. by destruct b.
  - rewrite Htb. cbn [deref]. rewrite !bind_Returned.
    by rewrite (IH _ (TrackBuilder.AddFeatureCorrespondence tb view_id1
                        (feature1 c) view_id2 (feature2 c))).
Qed.

Lemma AddTracksForMatch_outcome b view_id1 view_id2 m :
  match AddTracksForMatch b view_id1 view_id2 m with
  | Returned _ => True
  | Aborted e => e = NullDereference
  | Timeout => False
  end.
Proof.
  destruct (track_builder_ b) as [tb|] eqn:Htb.
  - by rewrite (AddTracksForMatch_present b tb).
  - unfold AddTracksForMatch. destruct (correspondences m); cbn [foldM];
      [done|]. by rewrite Htb.
Qed.

Lemma add_neighbor_self (x y : ViewId) (vs : gmap ViewId (gset ViewId)) :
  ∃ n, ViewGraph.add_neighbor x y vs !! x = Some n ∧ y ∈ n.
Proof.
  unfold ViewGraph.add_neighbor. rewrite lookup_insert_eq.
  eexists. split; [done|]. set_solver.
Qed.

Lemma add_neighbor_mono (z w : ViewId) (vs : gmap ViewId (gset ViewId))
    (x y : ViewId) n :
  vs !! x = Some n → y ∈ n →
  ∃ n', ViewGraph.add_neighbor z w vs !! x = Some n' ∧ y ∈ n'.
Proof.
  intros Hn Hin. unfold ViewGraph.add_neighbor.
  destruct (decide (z = x)) as [->|Hne].
  - rewrite lookup_insert_eq, Hn. eexists. split; [done|]. set_solver.
  - rewrite lookup_insert_ne by done. by exists n.
Qed.

(** X1. A match that names an image unknown to the reconstruction is fatal,
    in calibrated-only mode too: [AddTwoViewMatch] aborts on the check of the
    first name exactly when the first name is unknown, and on the check of
    the second name exactly when the first is known and the second is not. *)
Theorem AddTwoViewMatch_unknown_image b image1 image2 m :
  let id1 := Reconstruction.ViewIdFromName (reconstruction_ b) image1 in
  let id2 := Reconstruction.ViewIdFromName (reconstruction_ b) image2 in
  (AddTwoViewMatch SwapCameras b image1 image2 m = Aborted CHECK_NE_view_id1
   ↔ id1 = kInvalidViewId)
  ∧ (AddTwoViewMatch SwapCameras b image1 image2 m = Aborted CHECK_NE_view_id2
     ↔ id1 ≠ kInvalidViewId ∧ id2 = kInvalidViewId).
Proof.
  intros id1 id2. unfold AddTwoViewMatch. fold id1 id2.
  assert (∀ e, e ≠ NullDereference →
    (skip ← skips_match b (Reconstruction.View (reconstruction_ b) id1)
                          (Reconstruction.View (reconstruction_ b) id2);
     if (skip : bool) then Returned (true, b)
     else b0 ← AddTracksForMatch
                 (AddMatchToViewGraph SwapCameras b id1 id2 m) id1 id2 m;
          Returned (true, b0)) ≠ Aborted e) as Hrest.
  { intros e He.
    pose proof (skips_match_outcome b
                  (Reconstruction.View (reconstruction_ b) id1)
                  (Reconstruction.View (reconstruction_ b) id2)) as Hs.
    destruct (skips_match _ _ _) as [[]|e'|]; cbn [mbind result_bind];
      [done| |congruence|done].
    pose proof (AddTracksForMatch_outcome
                  (AddMatchToViewGraph SwapCameras b id1 id2 m) id1 id2 m)
      as Ht.
    destruct (AddTracksForMatch _ _ _ _) as [b0|e'|]; cbn [mbind result_bind];
      [done|congruence|done]. }
  split.
  - case_bool_decide as H1; [done|]. split; [|done].
    case_bool_decide as H2; [done|]. intros Hr. by apply Hrest in Hr.
  - case_bool_decide as H1; [split; [done|by intros [? _]]|].
    case_bool_decide as H2; [done|]. split; [|by intros [_ ?]].
    intros Hr. by apply Hrest in Hr.
Qed.

(** X2. A match between two known views that is not skipped (the
    calibrated-only option is off, or both views have a focal-length prior) is
    stored when the track builder is there: [AddTwoViewMatch] returns true,
    leaves the reconstruction alone, stores under the pair the supplied
    geometry (with the cameras swapped when the first id is the larger one),
    keeps every other edge, makes the two views neighbours of each other, and
    feeds every correspondence of the match to the track builder, in order. *)
Theorem AddTwoViewMatch_stores b tb image1 image2 m :
  let id1 := Reconstruction.ViewIdFromName (reconstruction_ b) image1 in
  let id2 := Reconstruction.ViewIdFromName (reconstruction_ b) image2 in
  id1 ≠ kInvalidViewId →
  id2 ≠ kInvalidViewId →
  track_builder_ b = Some tb →
  (only_calibrated_views (options_ b) = false
   ∨ ∃ v1 v2, Reconstruction.View (reconstruction_ b) id1 = Some v1
              ∧ Reconstruction.View (reconstruction_ b) id2 = Some v2
              ∧ calibrated v1 = true ∧ calibrated v2 = true) →
  ∃ b', AddTwoViewMatch SwapCameras b image1 image2 m = Returned (true, b')
        ∧ reconstruction_ b' = reconstruction_ b
        ∧ ViewGraph.GetEdge (view_graph_ b') id1 id2
          = Some (if (id2 <? id1)%N then SwapCameras (twoview_info m)
                  else twoview_info m)
        ∧ (∀ k, k ≠ ViewGraph.ViewIdPair id1 id2 →
                ViewGraph.edges (view_graph_ b') !! k
                = ViewGraph.edges (view_graph_ b) !! k)
        ∧ (∃ n1 n2,
             ViewGraph.GetNeighborIdsForView (view_graph_ b') id1 = Some n1
             ∧ ViewGraph.GetNeighborIdsForView (view_graph_ b') id2 = Some n2
             ∧ id2 ∈ n1 ∧ id1 ∈ n2)
        ∧ track_builder_ b'
          = Some (foldl (λ tb c,
                           TrackBuilder.AddFeatureCorrespondence tb
                             id1 (feature1 c) id2 (feature2 c))
                        tb (correspondences m)).
Proof.
  intros id1 id2 H1 H2 Htb Hskip.
  unfold AddTwoViewMatch. fold id1 id2.
  rewrite !bool_decide_eq_false_2 by done.
  assert (skips_match b (Reconstruction.View (reconstruction_ b) id1)
            (Reconstruction.View (reconstruction_ b) id2) = Returned false)
    as ->.
  { unfold skips_match. destruct Hskip as [->|(v1 & v2 & -> & -> & Hc1 & Hc2)];
      [done|].
    destruct (only_calibrated_views _); [|done]. cbn [deref].
    rewrite !bind_Returned. unfold calibrated in *. by rewrite Hc1, Hc2. }
  rewrite bind_Returned.
  rewrite (AddTracksForMatch_present _ tb) by done. rewrite bind_Returned.
  eexists. split; [done|].
  cbn [reconstruction_ view_graph_ track_builder_ set_track_builder
       AddMatchToViewGraph set_view_graph].
  split; [done|]. split; [|split; [|split; [|done]]].
  - unfold ViewGraph.GetEdge, ViewGraph.AddEdge. cbn [ViewGraph.edges].
    apply lookup_insert_eq.
  - intros k Hk. unfold ViewGraph.AddEdge. cbn [ViewGraph.edges].
    by rewrite lookup_insert_ne.
  - unfold ViewGraph.GetNeighborIdsForView, ViewGraph.AddEdge.
    cbn [ViewGraph.vertices].
    destruct (add_neighbor_self id1 id2 (ViewGraph.vertices (view_graph_ b)))
      as (n & Hn & Hin).
    destruct (add_neighbor_mono id2 id1 _ id1 id2 n Hn Hin)
      as (n1 & Hn1 & Hin1).
    destruct (add_neighbor_self id2 id1
                (ViewGraph.add_neighbor id1 id2
                   (ViewGraph.vertices (view_graph_ b))))
      as (n2 & Hn2 & Hin2).
    by exists n1, n2.
Qed.

(** X3. Which of the two images is named first does not matter to the view
    graph, provided that swapping the cameras twice gives the geometry back:
    ingesting the match of two different views and ingesting the mirrored
    match with the views exchanged leave the same view graph. *)
Theorem AddMatchToViewGraph_mirrored b view_id1 view_id2
    (m : ImagePairMatch TwoViewInfo) :
  (∀ g, SwapCameras (SwapCameras g) = g) →
  view_id1 ≠ view_id2 →
  AddMatchToViewGraph SwapCameras b view_id2 view_id1
    (mirrored SwapCameras m)
  = AddMatchToViewGraph SwapCameras b view_id1 view_id2 m.
Proof.
  intros Hinv Hne. unfold AddMatchToViewGraph. f_equal.
  cbn [mirrored twoview_info]. apply view_graph_eq.
  - intros i. unfold ViewGraph.AddEdge. cbn [ViewGraph.vertices].
    unfold ViewGraph.add_neighbor.
    destruct (decide (i = view_id1)) as [->|H1];
      [|destruct (decide (i = view_id2)) as [->|H2]];
      by simplify_map_eq.
  - intros k. unfold ViewGraph.AddEdge. cbn [ViewGraph.edges].
    rewrite !ViewIdPair_min_max, N.min_comm, N.max_comm.
    destruct (N.ltb_spec view_id1 view_id2), (N.ltb_spec view_id2 view_id1);
      try lia; by rewrite ?Hinv.
Qed.
End more_on_matches.

(** The first match between the two images of a fresh builder. *)
Lemma AddTwoViewMatch_stores_witness :
  ∃ b', AddTwoViewMatch Mock.SwapCameras Mock.two_images "b" "a"
          (Mock.point_match 1) = Returned (true, b')
        ∧ ViewGraph.GetEdge (view_graph_ b') 1 0 = Some (-1)%Z.
Proof.
  destruct (AddTwoViewMatch_stores Mock.SwapCameras Mock.two_images
              (TrackBuilder.Create 2 20) "b" "a" (Mock.point_match 1))
    as (b' & Hr & _ & He & _).
  - vm_compute. discriminate.
  - vm_compute. discriminate.
  - vm_compute. reflexivity.
  - left. vm_compute. reflexivity.
  - exists b'. split; [exact Hr|]. exact He.
Defined.

Lemma AddMatchToViewGraph_mirrored_witness :
  AddMatchToViewGraph Mock.SwapCameras Mock.blank 2%N 1%N
    (mirrored Mock.SwapCameras (Mock.point_match 1))
  = AddMatchToViewGraph Mock.SwapCameras Mock.blank 1%N 2%N
      (Mock.point_match 1).
Proof.
  apply (AddMatchToViewGraph_mirrored Mock.SwapCameras Mock.blank 1%N 2%N
           (Mock.point_match 1)).
  - intros g. unfold Mock.SwapCameras. lia.
  - discriminate.
Defined.

(** ** Snapshot and remainder *)

Section more_on_harvest.
Context {TwoViewInfo : Type}.
Implicit Types (r : Reconstruction.t) (vg : ViewGraph.t TwoViewInfo).

Lemma size_filter_split `{Countable K} {V} (P : V → bool) (m : gmap K V) :
  size (filter (λ kv, P kv.2 = true) m)
  + size (filter (λ kv, negb (P kv.2) = true) m) = size m.
Proof.
  assert (filter (λ kv : K * V, negb (P kv.2) = true) m
          = filter (λ kv : K * V, ¬ P kv.2 = true) m) as ->.
  { apply map_filter_ext. intros i x _. simpl. by destruct (P x). }
  rewrite <- map_size_disj_union by apply map_disjoint_filter_complement.
  by rewrite map_filter_union_complement.
Qed.

(** X4. A harvest loses nothing and duplicates nothing: every view (track) of
    the working reconstruction is, with its value, either in the snapshot made
    by [CreateEstimatedSubreconstruction] or in what
    [RemoveEstimatedViewsAndTracks] leaves, never in both, so the two counts
    add up to the count before. *)
Theorem snapshot_and_remainder_partition r vg :
  let snapshot := CreateEstimatedSubreconstruction r in
  let remainder := (RemoveEstimatedViewsAndTracks r vg).1 in
  (∀ id, Reconstruction.View r id
         = match Reconstruction.View snapshot id with
           | Some v => Some v
           | None => Reconstruction.View remainder id
           end)
  ∧ (∀ id, Reconstruction.View snapshot id = None
           ∨ Reconstruction.View remainder id = None)
  ∧ (∀ id, Reconstruction.Track r id
           = match Reconstruction.Track snapshot id with
             | Some t => Some t
             | None => Reconstruction.Track remainder id
             end)
  ∧ (∀ id, Reconstruction.Track snapshot id = None
           ∨ Reconstruction.Track remainder id = None)
  ∧ Reconstruction.NumViews snapshot + Reconstruction.NumViews remainder
    = Reconstruction.NumViews r
  ∧ Reconstruction.NumTracks snapshot + Reconstruction.NumTracks remainder
    = Reconstruction.NumTracks r.
Proof.
  intros snapshot remainder. unfold snapshot, remainder.
  rewrite CreateEstimatedSubreconstruction_eq,
    RemoveEstimatedViewsAndTracks_eq.
  unfold Reconstruction.View, Reconstruction.Track,
    Reconstruction.NumViews, Reconstruction.NumTracks.
  cbn [fst with_views with_tracks Reconstruction.views Reconstruction.tracks].
  split; [|split; [|split; [|split; [|split]]]].
  - intros id. rewrite !lookup_select_views. unfold unestimated_view.
    destruct (Reconstruction.views r !! id) as [v|]; [|done].
    by destruct (View.IsEstimated v).
  - intros id. rewrite !lookup_select_views. unfold unestimated_view.
    destruct (Reconstruction.views r !! id) as [v|]; [|by left].
    destruct (View.IsEstimated v); [by right|by left].
  - intros id. rewrite !lookup_select_tracks. unfold unestimated_track.
    destruct (Reconstruction.tracks r !! id) as [v|]; [|done].
    by destruct (Track.IsEstimated v).
  - intros id. rewrite !lookup_select_tracks. unfold unestimated_track.
    destruct (Reconstruction.tracks r !! id) as [v|]; [|by left].
    destruct (Track.IsEstimated v); [by right|by left].
  - apply (size_filter_split View.IsEstimated).
  - apply (size_filter_split Track.IsEstimated).
Qed.

Lemma select_views_twice (P Q : View.t → bool) r t :
  select_views P (with_tracks (with_views r (select_views Q r)) t)
  = filter (λ kv, P kv.2 = true ∧ Q kv.2 = true) (Reconstruction.views r).
Proof.
  unfold select_views. cbn [with_views with_tracks Reconstruction.views].
  apply map_filter_filter.
Qed.

Lemma select_tracks_twice (P Q : Track.t → bool) r vs :
  select_tracks P (with_tracks (with_views r vs) (select_tracks Q r))
  = filter (λ kv, P kv.2 = true ∧ Q kv.2 = true) (Reconstruction.tracks r).
Proof.
  unfold select_tracks. cbn [with_views with_tracks Reconstruction.tracks].
  apply map_filter_filter.
Qed.

Lemma filter_and_same `{Countable K} {V} (P : V → bool) (m : gmap K V) :
  filter (λ kv, P kv.2 = true ∧ P kv.2 = true) m
  = filter (λ kv, P kv.2 = true) m.
Proof. apply map_filter_ext. naive_solver. Qed.

Lemma filter_and_negb `{Countable K} {V} (P : V → bool) (m : gmap K V) :
  filter (λ kv, P kv.2 = true ∧ negb (P kv.2) = true) m = ∅.
Proof.
  apply map_empty_filter_2. apply map_Forall_lookup_2. intros i x _. simpl.
  by destruct (P x); intros [].
Qed.

Lemma with_views_tracks_twice r vs ts vs' ts' :
  with_tracks (with_views (with_tracks (with_views r vs) ts) vs') ts'
  = with_tracks (with_views r vs') ts'.
Proof. done. Qed.

(** X5. Harvesting twice is harvesting once. The snapshot of a snapshot is
    the snapshot; the remainder holds nothing estimated, so a snapshot of it
    has neither views nor tracks and a second removal changes neither the
    reconstruction nor the view graph. *)
Theorem harvest_is_idempotent r vg :
  let snapshot := CreateEstimatedSubreconstruction r in
  let remainder := RemoveEstimatedViewsAndTracks r vg in
  CreateEstimatedSubreconstruction snapshot = snapshot
  ∧ Reconstruction.NumViews (CreateEstimatedSubreconstruction remainder.1) = 0
  ∧ Reconstruction.NumTracks (CreateEstimatedSubreconstruction remainder.1)
    = 0
  ∧ RemoveEstimatedViewsAndTracks remainder.1 remainder.2 = remainder.
Proof.
  intros snapshot remainder. unfold snapshot, remainder.
  rewrite !CreateEstimatedSubreconstruction_eq,
    !RemoveEstimatedViewsAndTracks_eq.
  cbn [fst snd]. unfold unestimated_view, unestimated_track.
  rewrite !select_views_twice, !select_tracks_twice.
  rewrite !with_views_tracks_twice.
  rewrite !filter_and_same, !filter_and_negb.
  split; [done|]. unfold Reconstruction.NumViews, Reconstruction.NumTracks.
  cbn [with_views with_tracks Reconstruction.views Reconstruction.tracks].
  rewrite !map_size_empty.
  rewrite (filter_and_same (λ v, negb (View.IsEstimated v))).
  rewrite (filter_and_same (λ t, negb (Track.IsEstimated t))).
  split; [done|]. split; [done|].
  by rewrite dom_empty_L, without_views_empty.
Qed.
End more_on_harvest.

(** ** The run of the estimation loop as a whole *)

Section more_on_the_loop.
Context {TwoViewInfo World : Type}.
Variable Estimate :
  World → ViewGraph.t TwoViewInfo → Reconstruction.t →
  ReconstructionEstimatorSummary * ViewGraph.t TwoViewInfo
  * Reconstruction.t * World.
Implicit Types b : ReconstructionBuilder TwoViewInfo World.
Implicit Types recs : list Reconstruction.t.

Lemma CreateEstimatedSubreconstruction_fully_estimated r :
  fully_estimated (CreateEstimatedSubreconstruction r).
Proof.
  rewrite CreateEstimatedSubreconstruction_eq.
  unfold fully_estimated, Reconstruction.View, Reconstruction.Track.
  cbn [with_views with_tracks Reconstruction.views Reconstruction.tracks].
  split; intros id v.
  - rewrite lookup_select_views.
    destruct (Reconstruction.views r !! id) as [v'|]; [|done].
    destruct (View.IsEstimated v') eqn:He; [|done]. by intros [= <-].
  - rewrite lookup_select_tracks.
    destruct (Reconstruction.tracks r !! id) as [v'|]; [|done].
    destruct (Track.IsEstimated v') eqn:He; [|done]. by intros [= <-].
Qed.

Lemma EstimationLoop_appends_fully_estimated fuel b recs ok b' out :
  EstimationLoop Estimate fuel b recs = Returned (ok, b', out) →
  ∃ new, out = recs ++ new ∧ length new ≤ fuel
         ∧ Forall fully_estimated new.
Proof.
  revert b recs. induction fuel as [|fuel IH]; intros b recs.
  - cbn [EstimationLoop]. case_bool_decide; [done|].
    intros ?; simplify_eq. exists []. rewrite app_nil_r.
    split; [done|]. split; [simpl; lia|constructor].
  - destruct (decide (1 < Reconstruction.NumViews (reconstruction_ b)))
      as [Hn|Hn].
    + rewrite EstimationLoop_round by done. cbn zeta.
      destruct (negb _).
      { intros ?; simplify_eq. exists []. rewrite app_nil_r.
        split; [done|]. split; [simpl; lia|constructor]. }
      destruct (_ || _).
      * intros ?; simplify_eq. eexists [_]. split; [done|].
        split; [simpl; lia|]. apply Forall_singleton.
        apply CreateEstimatedSubreconstruction_fully_estimated.
      * intros (new & -> & Hlen & Hall)%IH. eexists (_ :: new).
        rewrite <- app_assoc. split; [done|]. split; [simpl; lia|].
        apply Forall_cons. split; [|done].
        apply CreateEstimatedSubreconstruction_fully_estimated.
    + rewrite EstimationLoop_done by done. intros ?; simplify_eq.
      exists []. rewrite app_nil_r.
      split; [done|]. split; [simpl; lia|constructor].
Qed.

(** X6. Whatever the estimator does, [BuildReconstruction] keeps the
    reconstructions that the caller's vector already holds, in place, and
    appends after them at most one reconstruction per unit of fuel, each made
    only of views and tracks that are flagged estimated. *)
Theorem BuildReconstruction_appends_estimated fuel b recs ok b' out :
  BuildReconstruction Estimate fuel b recs = Returned (ok, b', out) →
  ∃ new, out = recs ++ new ∧ length new ≤ fuel
         ∧ Forall fully_estimated new.
Proof.
  unfold BuildReconstruction.
  destruct (PrepareReconstruction b) as [b1| |]; cbn [mbind result_bind];
    [|done..].
  apply EstimationLoop_appends_fully_estimated.
Qed.

(** X7. A false result comes with an empty output vector: when
    [BuildReconstruction] returns false, the caller's vector was empty, it
    still is, and the first estimation round has failed. *)
Theorem BuildReconstruction_false_means_empty fuel b recs b' out :
  BuildReconstruction Estimate fuel b recs = Returned (false, b', out) →
  recs = [] ∧ out = []
  ∧ ∃ b1, PrepareReconstruction b = Returned b1
          ∧ 1 < Reconstruction.NumViews (reconstruction_ b1)
          ∧ success (estimated Estimate b1).1 = false
          ∧ b' = (estimated Estimate b1).2.
Proof.
  unfold BuildReconstruction.
  destruct (PrepareReconstruction b) as [b1| |] eqn:Hp;
    cbn [mbind result_bind]; [|done..].
  intros Hloop.
  destruct (decide (1 < Reconstruction.NumViews (reconstruction_ b1)))
    as [Hn|Hn]; [|by rewrite EstimationLoop_done in Hloop].
  pose proof (EstimationLoop_flag Estimate _ _ _ _ _ _ Hn Hloop) as Hflag.
  symmetry in Hflag. apply bool_decide_eq_false_1 in Hflag.
  assert (out = []) as -> by (destruct out; [done|simpl in Hflag; lia]).
  apply EstimationLoop_prefix in Hloop as Hpre.
  apply prefix_nil_inv in Hpre as ->.
  split; [done|]. split; [done|]. exists b1. split; [done|]. split; [done|].
  destruct fuel as [|fuel].
  { cbn [EstimationLoop] in Hloop. by rewrite bool_decide_eq_true_2 in Hloop. }
  rewrite EstimationLoop_round in Hloop by done. cbn zeta in Hloop.
  destruct (success (estimated Estimate b1).1) eqn:Hs; cbn [negb] in Hloop.
  - exfalso. destruct (_ || _); [done|].
    apply EstimationLoop_prefix in Hloop. by apply prefix_nil_inv in Hloop.
  - by simplify_eq.
Qed.
End more_on_the_loop.

(** Two rounds on the scene with two components of three views: both
    reconstructions are made of estimated views and tracks only. *)
Lemma BuildReconstruction_appends_estimated_witness :
  ∃ new, (Mock.outcome (Mock.run 10 (Mock.three_and_three false))).2
         = [] ++ new
         ∧ length new ≤ 10 ∧ Forall fully_estimated new.
Proof.
  apply (BuildReconstruction_appends_estimated Mock.Estimate 10
           (Mock.returned (Mock.three_and_three false)) []
           (Mock.outcome (Mock.run 10 (Mock.three_and_three false))).1.1
           (Mock.outcome (Mock.run 10 (Mock.three_and_three false))).1.2).
  vm_compute. reflexivity.
Defined.

(** With an estimator that fails, the build returns false and the output
    vector stays empty. *)
Lemma BuildReconstruction_false_means_empty_witness :
  (Mock.outcome (BuildReconstruction Mock.EstimateFailure 10
                   (Mock.returned Mock.three_and_two) [])).2 = [].
Proof.
  apply (BuildReconstruction_false_means_empty Mock.EstimateFailure 10
           (Mock.returned Mock.three_and_two) []
           (Mock.outcome (BuildReconstruction Mock.EstimateFailure 10
                            (Mock.returned Mock.three_and_two) [])).1.2).
  vm_compute. reflexivity.
Defined.

(** ** The preparation before the loop *)

Section more_on_preparation.
Context {TwoViewInfo World : Type}.
Variable Estimate :
  World → ViewGraph.t TwoViewInfo → Reconstruction.t →
  ReconstructionEstimatorSummary * ViewGraph.t TwoViewInfo
  * Reconstruction.t * World.
Implicit Types b : ReconstructionBuilder TwoViewInfo World.
Implicit Types recs : list Reconstruction.t.

(** The views after the preparation: filtered in calibrated-only mode, the
    same otherwise; options and random source are kept. *)
Lemma PrepareReconstruction_views b b1 :
  PrepareReconstruction b = Returned b1 →
  options_ b1 = options_ b
  ∧ rng_ b1 = rng_ b
  ∧ Reconstruction.views (reconstruction_ b1)
    = if only_calibrated_views (options_ b)
      then select_views calibrated (reconstruction_ b)
      else Reconstruction.views (reconstruction_ b).
Proof.
  rewrite PrepareReconstruction_spec.
  case_bool_decide as Hn; [|done].
  case_bool_decide as Ht.
  - destruct (track_builder_ b) as [tb|] eqn:Htb; [|done]. cbn zeta.
    destruct (only_calibrated_views (options_ b)).
    + rewrite RemoveUncalibratedViews_eq. intros [= <-].
      cbn [options_ rng_ reconstruction_ set_view_graph set_reconstruction
           with_views Reconstruction.views].
      split; [done|]. split; [done|].
      unfold select_views. by rewrite views_BuildTracks.
    + intros [= <-]. cbn [options_ rng_ reconstruction_ set_reconstruction].
      split; [done|]. split; [done|]. apply views_BuildTracks.
  - destruct (only_calibrated_views (options_ b)).
    + rewrite RemoveUncalibratedViews_eq. by intros [= <-].
    + by intros [= <-].
Qed.

(** X8. What the first estimation round is given. When the preparation of
    [BuildReconstruction] returns, the options, the random source and the
    track builder are as before; the tracks are the old ones if there were
    any and otherwise the ones built by the track builder; with the
    calibrated-only option off, views and view graph are untouched; with the
    option on, the views are exactly the former views that have a
    focal-length prior, and the view graph has lost the other views of the
    reconstruction with their edges. *)
Theorem PrepareReconstruction_scene b b1 :
  PrepareReconstruction b = Returned b1 →
  options_ b1 = options_ b
  ∧ rng_ b1 = rng_ b
  ∧ track_builder_ b1 = track_builder_ b
  ∧ (Reconstruction.NumTracks (reconstruction_ b) ≠ 0 →
     Reconstruction.tracks (reconstruction_ b1)
     = Reconstruction.tracks (reconstruction_ b))
  ∧ (Reconstruction.NumTracks (reconstruction_ b) = 0 →
     ∃ tb, track_builder_ b = Some tb
           ∧ Reconstruction.tracks (reconstruction_ b1)
             = Reconstruction.tracks
                 (TrackBuilder.BuildTracks tb (reconstruction_ b)))
  ∧ (only_calibrated_views (options_ b) = false →
     Reconstruction.views (reconstruction_ b1)
     = Reconstruction.views (reconstruction_ b)
     ∧ view_graph_ b1 = view_graph_ b)
  ∧ (only_calibrated_views (options_ b) = true →
     (∀ id, Reconstruction.View (reconstruction_ b1) id
            = match Reconstruction.View (reconstruction_ b) id with
              | Some v => if calibrated v then Some v else None
              | None => None
              end)
     ∧ view_graph_ b1
       = without_views (view_graph_ b)
           (dom (select_views uncalibrated (reconstruction_ b)))).
Proof.
  rewrite PrepareReconstruction_spec.
  case_bool_decide as Hn; [|done].
  assert (∀ b0 : ReconstructionBuilder TwoViewInfo World,
            Reconstruction.views (reconstruction_ b0)
            = Reconstruction.views (reconstruction_ b) →
            view_graph_ b0 = view_graph_ b →
            options_ b0 = options_ b →
            (if only_calibrated_views (options_ b)
             then RemoveUncalibratedViews b0 else Returned b0) = Returned b1 →
            options_ b1 = options_ b0 ∧ rng_ b1 = rng_ b0
            ∧ track_builder_ b1 = track_builder_ b0
            ∧ Reconstruction.tracks (reconstruction_ b1)
              = Reconstruction.tracks (reconstruction_ b0)
            ∧ (only_calibrated_views (options_ b) = false →
               Reconstruction.views (reconstruction_ b1)
               = Reconstruction.views (reconstruction_ b)
               ∧ view_graph_ b1 = view_graph_ b)
            ∧ (only_calibrated_views (options_ b) = true →
               (∀ id, Reconstruction.View (reconstruction_ b1) id
                      = match Reconstruction.View (reconstruction_ b) id with
                        | Some v => if calibrated v then Some v else None
                        | None => None
                        end)
               ∧ view_graph_ b1
                 = without_views (view_graph_ b)
                     (dom (select_views uncalibrated (reconstruction_ b)))))
    as Hfilter.
  { intros b0 Hv Hvg Ho.
    destruct (only_calibrated_views (options_ b)).
    - rewrite RemoveUncalibratedViews_eq. intros [= <-].
      cbn [options_ rng_ track_builder_ reconstruction_ view_graph_
           set_view_graph set_reconstruction with_views
           Reconstruction.tracks Reconstruction.views].
      repeat split; try done.
      + intros id. unfold Reconstruction.View.
        cbn [with_views Reconstruction.views].
        rewrite lookup_select_views. by rewrite Hv.
      + rewrite Hvg. unfold select_views. by rewrite Hv.
    - intros [= <-]. repeat split; try done. }
  case_bool_decide as Ht.
  - destruct (track_builder_ b) as [tb|] eqn:Htb; [|done]. cbn zeta.
    intros Hr.
    destruct (Hfilter (set_reconstruction b
                         (TrackBuilder.BuildTracks tb (reconstruction_ b))))
      as (Ho & Hw & Htb' & Htr & Hoff & Hon); [..|done|].
    { cbn [reconstruction_ set_reconstruction]. apply views_BuildTracks. }
    { done. }
    { done. }
    cbn [options_ rng_ track_builder_ reconstruction_ set_reconstruction]
      in *.
    split; [done|]. split; [done|]. split; [congruence|].
    split; [done|]. split; [|done]. intros _. by exists tb.
  - intros Hr.
    destruct (Hfilter b) as (Ho & Hw & Htb' & Htr & Hoff & Hon); [done..|].
    split; [done|]. split; [done|]. split; [done|].
    split; [done|]. split; [|done]. done.
Qed.

(** X9. In calibrated-only mode a scene with fewer than two calibrated views
    is "built" without any estimation: the check on the view graph passes,
    the calibration filter leaves at most one view, the loop is not entered,
    and [BuildReconstruction] returns true with the output vector and the
    random source exactly as they were. *)
Theorem BuildReconstruction_too_few_calibrated_views fuel b recs :
  2 ≤ ViewGraph.NumViews (view_graph_ b) →
  only_calibrated_views (options_ b) = true →
  Reconstruction.NumTracks (reconstruction_ b) ≠ 0
  ∨ is_Some (track_builder_ b) →
  size (select_views calibrated (reconstruction_ b)) ≤ 1 →
  ∃ b1, BuildReconstruction Estimate fuel b recs = Returned (true, b1, recs)
        ∧ rng_ b1 = rng_ b
        ∧ Reconstruction.views (reconstruction_ b1)
          = select_views calibrated (reconstruction_ b).
Proof.
  intros Hn Ho Htr Hsize.
  assert (∃ b1, PrepareReconstruction b = Returned b1) as [b1 Hp].
  { destruct (PrepareReconstruction_checked b Hn) as [Hp|?]; [|done].
    exfalso. revert Hp. rewrite PrepareReconstruction_spec.
    rewrite bool_decide_eq_true_2 by done. rewrite Ho.
    case_bool_decide as Ht.
    - destruct Htr as [?|[tb ->]]; [done|]. cbn zeta.
      by rewrite RemoveUncalibratedViews_eq.
    - by rewrite RemoveUncalibratedViews_eq. }
  destruct (PrepareReconstruction_views b b1 Hp) as (_ & Hw & Hv).
  rewrite Ho in Hv.
  exists b1. split; [|done].
  apply BuildReconstruction_loop_not_entered; [done|].
  unfold Reconstruction.NumViews. rewrite Hv. lia.
Qed.
End more_on_preparation.

(** The preparation on the scene with a calibrated pair and a view without a
    prior: the view without a prior is gone, the pair is kept. *)
Lemma PrepareReconstruction_scene_witness :
  let b1 := Mock.returned
              (PrepareReconstruction Mock.calibrated_pair_and_stray) in
  Reconstruction.View (reconstruction_ b1) 2 = None
  ∧ is_Some (Reconstruction.View (reconstruction_ b1) 0)
  ∧ is_Some (Reconstruction.View (reconstruction_ b1) 1).
Proof.
  intros b1.
  destruct (PrepareReconstruction_scene Mock.calibrated_pair_and_stray b1)
    as (_ & _ & _ & _ & _ & _ & Hon).
  - vm_compute. reflexivity.
  - destruct Hon as [Hviews _]; [vm_compute; reflexivity|].
    rewrite !Hviews. split; [vm_compute; reflexivity|].
    split; vm_compute; eexists; reflexivity.
Defined.

Lemma BuildReconstruction_too_few_calibrated_views_witness :
  ∃ b1, BuildReconstruction Mock.Estimate 3 Mock.ready_made_uncalibrated []
        = Returned (true, b1, []).
Proof.
  destruct (BuildReconstruction_too_few_calibrated_views Mock.Estimate 3
              Mock.ready_made_uncalibrated []) as (b1 & Hb & _).
  - vm_compute. lia.
  - vm_compute. reflexivity.
  - left. vm_compute. lia.
  - vm_compute. lia.
  - exists b1. exact Hb.
Defined.

(** ** Disjoint outputs, and a run that does not end *)

Section more_on_rounds.
Context {TwoViewInfo World : Type}.
Variable Estimate :
  World → ViewGraph.t TwoViewInfo → Reconstruction.t →
  ReconstructionEstimatorSummary * ViewGraph.t TwoViewInfo
  * Reconstruction.t * World.
Implicit Types b : ReconstructionBuilder TwoViewInfo World.
Implicit Types recs : list Reconstruction.t.

Abbreviation view_ids r := (dom (Reconstruction.views r)).

Lemma views_harvested b :
  Reconstruction.views (reconstruction_ (harvested b))
  = select_views unestimated_view (reconstruction_ b).
Proof.
  unfold harvested. by rewrite RemoveEstimatedViewsAndTracks_eq.
Qed.

Lemma views_snapshot r :
  Reconstruction.views (CreateEstimatedSubreconstruction r)
  = select_views View.IsEstimated r.
Proof. by rewrite CreateEstimatedSubreconstruction_eq. Qed.

Lemma snapshot_disjoint_from_remainder r :
  dom (select_views View.IsEstimated r)
  ## dom (select_views unestimated_view r).
Proof.
  apply elem_of_disjoint. intros id.
  rewrite !elem_of_dom, !lookup_select_views. unfold unestimated_view.
  destruct (Reconstruction.views r !! id) as [v|]; [|by intros []].
  destruct (View.IsEstimated v); simpl; by intros [] [].
Qed.

Lemma views_disjoint_cons s l :
  Forall (λ s', view_ids s ## view_ids s') l →
  views_disjoint l → views_disjoint (s :: l).
Proof.
  intros Hs Hl i j s1 s2 Hij H1 H2.
  destruct j as [|j]; [lia|]. simpl in H2.
  destruct i as [|i]; simpl in H1.
  - simplify_eq. rewrite Forall_forall in Hs. apply Hs.
    by eapply list_elem_of_lookup_2.
  - apply (Hl i j); [lia|done..].
Qed.

(** An estimator that creates no view. *)
Hypothesis Estimate_no_new_view : ∀ w vg r,
  view_ids (Estimate w vg r).1.2 ⊆ view_ids r.

Lemma view_ids_estimated b :
  view_ids (reconstruction_ (estimated Estimate b).2)
  ⊆ view_ids (reconstruction_ b).
Proof.
  pose proof (Estimate_no_new_view (rng_ b) (view_graph_ b)
                (reconstruction_ b)) as H.
  unfold estimated. by destruct (Estimate _ _ _) as [[[s vg] r] w].
Qed.

Lemma EstimationLoop_disjoint fuel b recs ok b' out :
  EstimationLoop Estimate fuel b recs = Returned (ok, b', out) →
  ∃ new, out = recs ++ new
         ∧ views_disjoint new
         ∧ Forall (λ s, view_ids s ⊆ view_ids (reconstruction_ b)
                        ∧ view_ids s ## view_ids (reconstruction_ b')) new
         ∧ view_ids (reconstruction_ b') ⊆ view_ids (reconstruction_ b).
Proof.
  revert b recs. induction fuel as [|fuel IH]; intros b recs.
  - cbn [EstimationLoop]. case_bool_decide; [done|].
    intros ?; simplify_eq. exists []. rewrite app_nil_r.
    split; [done|]. split; [by intros i j ? ? ? ?|]. split; [constructor|done].
  - destruct (decide (1 < Reconstruction.NumViews (reconstruction_ b)))
      as [Hn|Hn].
    + rewrite EstimationLoop_round by done. cbn zeta.
      pose proof (view_ids_estimated b) as He.
      set (e := (estimated Estimate b).2) in *.
      pose proof (snapshot_disjoint_from_remainder (reconstruction_ e)) as Hd.
      pose proof (dom_select_views_sub View.IsEstimated (reconstruction_ e))
        as Hs1.
      pose proof (dom_select_views_sub unestimated_view (reconstruction_ e))
        as Hs2.
      rewrite <- views_snapshot in Hd, Hs1.
      rewrite <- views_harvested in Hd, Hs2.
      destruct (negb _).
      { intros ?; simplify_eq. exists []. rewrite app_nil_r.
        split; [done|]. split; [by intros i j ? ? ? ?|].
        split; [constructor|done]. }
      destruct (_ || _).
      * intros ?; simplify_eq. eexists [_]. split; [done|].
        split; [|split].
        -- intros i j s1 s2 Hij H1 H2. destruct j; [lia|]. by destruct j.
        -- apply Forall_singleton. split; [set_solver|done].
        -- set_solver.
      * intros (new & -> & Hdis & Hall & Hsub)%IH.
        eexists (_ :: new). rewrite <- app_assoc. split; [done|].
        split; [|split].
        -- apply views_disjoint_cons; [|done].
           eapply Forall_impl; [exact Hall|]. simpl. intros s [Hs _].
           set_solver.
        -- apply Forall_cons. split; [split; set_solver|].
           eapply Forall_impl; [exact Hall|]. simpl. intros s [Hs Hs'].
           split; set_solver.
        -- set_solver.
    + rewrite EstimationLoop_done by done. intros ?; simplify_eq.
      exists []. rewrite app_nil_r.
      split; [done|]. split; [by intros i j ? ? ? ?|].
      split; [constructor|done].
Qed.

(** X10. The outputs are disjoint. With an estimator that creates no view,
    the reconstructions that [BuildReconstruction] appends share no view
    identifier with one another, each is made of views of the working
    reconstruction the call started from, none of them shares a view with the
    working reconstruction that is left, and the latter has no view that the
    former did not have. *)
Theorem BuildReconstruction_outputs_disjoint fuel b recs ok b' out :
  BuildReconstruction Estimate fuel b recs = Returned (ok, b', out) →
  ∃ new, out = recs ++ new
         ∧ views_disjoint new
         ∧ Forall (λ s, view_ids s ⊆ view_ids (reconstruction_ b)
                        ∧ view_ids s ## view_ids (reconstruction_ b')) new
         ∧ view_ids (reconstruction_ b') ⊆ view_ids (reconstruction_ b).
Proof.
  unfold BuildReconstruction.
  destruct (PrepareReconstruction b) as [b1| |] eqn:Hp;
    cbn [mbind result_bind]; [|done..].
  assert (view_ids (reconstruction_ b1) ⊆ view_ids (reconstruction_ b))
    as Hsub.
  { destruct (PrepareReconstruction_views b b1 Hp) as (_ & _ & ->).
    destruct (only_calibrated_views (options_ b)); [|done].
    unfold select_views. apply dom_filter_subseteq. }
  intros (new & -> & Hdis & Hall & Hsub')%EstimationLoop_disjoint.
  exists new. split; [done|]. split; [done|]. split; [|set_solver].
  eapply Forall_impl; [exact Hall|]. simpl. intros s [Hs Hs'].
  split; [set_solver|done].
Qed.
End more_on_rounds.

Section a_run_without_end.
Context {TwoViewInfo World : Type}.
Variable Estimate :
  World → ViewGraph.t TwoViewInfo → Reconstruction.t →
  ReconstructionEstimatorSummary * ViewGraph.t TwoViewInfo
  * Reconstruction.t * World.
Implicit Types b : ReconstructionBuilder TwoViewInfo World.
Implicit Types recs : list Reconstruction.t.

(** An estimator that reports success and returns the views as it got
    them. *)
Hypothesis Estimate_idle : ∀ w vg r,
  success (Estimate w vg r).1.1.1 = true
  ∧ Reconstruction.views (Estimate w vg r).1.2 = Reconstruction.views r.

Lemma select_unestimated_all (r : Reconstruction.t) :
  (∀ id v, Reconstruction.View r id = Some v → View.IsEstimated v = false) →
  select_views unestimated_view r = Reconstruction.views r.
Proof.
  intros Hall. apply map_eq. intros id. rewrite lookup_select_views.
  destruct (Reconstruction.views r !! id) as [v|] eqn:Hv; [|done].
  unfold unestimated_view. by rewrite (Hall id v Hv).
Qed.

Lemma EstimationLoop_runs_out fuel b recs :
  reconstruct_largest_connected_component (options_ b) = false →
  3 ≤ Reconstruction.NumViews (reconstruction_ b) →
  (∀ id v, Reconstruction.View (reconstruction_ b) id = Some v →
           View.IsEstimated v = false) →
  EstimationLoop Estimate fuel b recs = Timeout.
Proof.
  revert b recs. induction fuel as [|fuel IH]; intros b recs Hl Hn Hnone.
  - cbn [EstimationLoop]. by rewrite bool_decide_eq_true_2 by lia.
  - rewrite EstimationLoop_round by lia. cbn zeta.
    destruct (Estimate_idle (rng_ b) (view_graph_ b) (reconstruction_ b))
      as [Hs Hv].
    assert (success (estimated Estimate b).1 = true
            ∧ Reconstruction.views (reconstruction_ (estimated Estimate b).2)
              = Reconstruction.views (reconstruction_ b)) as [Hs' Hv'].
    { unfold estimated. by destruct (Estimate _ _ _) as [[[s vg] r] w]. }
    rewrite Hs', Hl. cbn [negb orb].
    assert (Reconstruction.views
              (reconstruction_ (harvested (estimated Estimate b).2))
            = Reconstruction.views (reconstruction_ b)) as Hh.
    { rewrite views_harvested, select_unestimated_all; [done|].
      unfold Reconstruction.View. by rewrite Hv'. }
    rewrite bool_decide_eq_false_2
      by (unfold Reconstruction.NumViews in *; rewrite Hh; lia).
    apply IH.
    + by rewrite options_harvested, options_estimated.
    + unfold Reconstruction.NumViews in *. by rewrite Hh.
    + unfold Reconstruction.View in *. by rewrite Hh.
Qed.

(** X11. The loop has no guard against a round that estimates nothing. With
    the single-component and calibrated-only options off, at least three
    views none of which is flagged estimated, and an estimator that keeps
    reporting success while leaving the views as they are,
    [BuildReconstruction] does not return: it runs out of fuel, however much
    it is given. *)
Theorem BuildReconstruction_does_not_return fuel b recs :
  2 ≤ ViewGraph.NumViews (view_graph_ b) →
  only_calibrated_views (options_ b) = false →
  reconstruct_largest_connected_component (options_ b) = false →
  Reconstruction.NumTracks (reconstruction_ b) ≠ 0
  ∨ is_Some (track_builder_ b) →
  3 ≤ Reconstruction.NumViews (reconstruction_ b) →
  (∀ id v, Reconstruction.View (reconstruction_ b) id = Some v →
           View.IsEstimated v = false) →
  BuildReconstruction Estimate fuel b recs = Timeout.
Proof.
  intros Hn Hc Hl Htr Hviews Hnone.
  assert (∃ b1, PrepareReconstruction b = Returned b1) as [b1 Hp].
  { rewrite PrepareReconstruction_spec.
    rewrite bool_decide_eq_true_2 by done. rewrite Hc.
    case_bool_decide as Ht; [|by eexists].
    destruct Htr as [?|[tb ->]]; [done|]. by eexists. }
  destruct (PrepareReconstruction_views b b1 Hp) as (Ho & _ & Hv).
  rewrite Hc in Hv.
  unfold BuildReconstruction. rewrite Hp, bind_Returned.
  apply EstimationLoop_runs_out.
  - by rewrite Ho.
  - unfold Reconstruction.NumViews in *. by rewrite Hv.
  - unfold Reconstruction.View in *. by rewrite Hv.
Qed.
End a_run_without_end.

Lemma Mock_Estimate_no_new_view w vg r :
  dom (Reconstruction.views (Mock.Estimate w vg r).1.2)
  ⊆ dom (Reconstruction.views r).
Proof.
  unfold Mock.Estimate.
  destruct (filter _ (Reconstruction.ViewIds r)) as [|id0 ids]; [done|].
  destruct (_ <? 2)%nat; [done|]. cbn [fst snd].
  by rewrite views_foldl_UpdateTrack, dom_foldl_UpdateView.
Qed.

(** The two reconstructions of the scene with two components share no
    view. *)
Lemma BuildReconstruction_outputs_disjoint_witness :
  ∃ new, (Mock.outcome (Mock.run 10 (Mock.three_and_three false))).2
         = [] ++ new
         ∧ views_disjoint new.
Proof.
  destruct (BuildReconstruction_outputs_disjoint Mock.Estimate
              Mock_Estimate_no_new_view 10
              (Mock.returned (Mock.three_and_three false)) []
              (Mock.outcome (Mock.run 10 (Mock.three_and_three false))).1.1
              (Mock.outcome (Mock.run 10 (Mock.three_and_three false))).1.2
              (Mock.outcome (Mock.run 10 (Mock.three_and_three false))).2)
    as (new & Hn & Hd & _).
  - vm_compute. reflexivity.
  - exists new. split; [exact Hn|exact Hd].
Defined.

(** The idle estimator on the scene with a component of three views and one
    of two. *)
Lemma BuildReconstruction_does_not_return_witness :
  BuildReconstruction Mock.EstimateIdle 7 (Mock.returned Mock.three_and_two)
    [] = Timeout.
Proof.
  apply (BuildReconstruction_does_not_return Mock.EstimateIdle).
  - done.
  - vm_compute. lia.
  - vm_compute. reflexivity.
  - vm_compute. reflexivity.
  - right. vm_compute. eexists. reflexivity.
  - vm_compute. lia.
  - intros id v. unfold Reconstruction.View.
    intros Hv. apply elem_of_map_to_list in Hv. revert Hv.
    vm_compute. intros Hv.
    repeat (apply list_elem_of_In in Hv; destruct Hv as [Hv|Hv];
            [by inversion Hv|apply list_elem_of_In in Hv]).
    by apply elem_of_nil in Hv.
Defined.

(** ** A builder made from a ready-made scene *)

Section more_on_constructors.
Context {TwoViewInfo World : Type}.
Variable SwapCameras : TwoViewInfo → TwoViewInfo.
Variable Estimate :
  World → ViewGraph.t TwoViewInfo → Reconstruction.t →
  ReconstructionEstimatorSummary * ViewGraph.t TwoViewInfo
  * Reconstruction.t * World.
Variable GetFilenameFromFilepath : string → bool → option string.
Variable ExtractAndMatch :
  World → FeatureExtractorAndMatcher.t →
  FeaturesAndMatchesDatabase.t TwoViewInfo →
  FeaturesAndMatchesDatabase.t TwoViewInfo * World.
Implicit Types b : ReconstructionBuilder TwoViewInfo World.

Lemma AddTracksForMatch_absent b view_id1 view_id2 m :
  track_builder_ b = None →
  AddTracksForMatch b view_id1 view_id2 m
  = match correspondences m with
    | [] => Returned b
    | _ :: _ => Aborted NullDereference
    end.
Proof.
  intros Htb. unfold AddTracksForMatch.
  destruct (correspondences m); cbn [foldM]; [done|]. by rewrite Htb.
Qed.

(** X12. The constructor that takes a reconstruction and a view graph sets up
    neither an extractor nor a track builder nor a database, and the member
    functions that need one abort on the null pointer: on the builder it
    returns, [AddMaskForFeaturesExtraction] and [ExtractAndMatchFeatures]
    never return, [AddImage] returns only to report false, a match that is
    not skipped (the calibrated-only option is off, or both views have a
    focal-length prior) gets through only without correspondences, and
    [BuildReconstruction] aborts when the reconstruction has no tracks;
    given tracks and two views in the view graph it does not abort. *)
Theorem Create_leaves_only_the_build o r (vg : ViewGraph.t TwoViewInfo) b :
  Create o r vg = Returned b →
  (∀ image mask,
     AddMaskForFeaturesExtraction b image mask = Aborted NullDereference)
  ∧ ExtractAndMatchFeatures SwapCameras ExtractAndMatch b
    = (if bool_decide (ViewGraph.NumViews vg = 0)
       then Aborted NullDereference else Aborted CHECK_EQ_NumViews_0)
  ∧ (∀ path group,
       match AddImageInGroup GetFilenameFromFilepath b path group with
       | Returned (ok, _) => ok = false
       | Aborted e => e = CHECK_GetFilename ∨ e = NullDereference
       | Timeout => False
       end)
  ∧ (∀ image1 image2 m,
       Reconstruction.ViewIdFromName r image1 ≠ kInvalidViewId →
       Reconstruction.ViewIdFromName r image2 ≠ kInvalidViewId →
       only_calibrated_views o = false
       ∨ (∃ v1 v2,
            Reconstruction.View r (Reconstruction.ViewIdFromName r image1)
            = Some v1
            ∧ Reconstruction.View r (Reconstruction.ViewIdFromName r image2)
              = Some v2
            ∧ calibrated v1 = true ∧ calibrated v2 = true) →
       correspondences m ≠ [] →
       AddTwoViewMatch SwapCameras b image1 image2 m
       = Aborted NullDereference)
  ∧ (∀ fuel recs,
       2 ≤ ViewGraph.NumViews vg →
       Reconstruction.NumTracks r = 0 →
       BuildReconstruction Estimate fuel b recs = Aborted NullDereference)
  ∧ (∀ fuel recs e,
       2 ≤ ViewGraph.NumViews vg →
       Reconstruction.NumTracks r ≠ 0 →
       BuildReconstruction Estimate fuel b recs ≠ Aborted e).
Proof.
  unfold Create. case_bool_decide; [|done]. intros [= <-].
  split; [done|]. split; [|split; [|split; [|split]]].
  - unfold ExtractAndMatchFeatures.
    cbn [view_graph_ feature_extractor_and_matcher_]. by case_bool_decide.
  - intros path group. by apply AddImageInGroup_released.
  - intros image1 image2 m H1 H2 Ho Hc. unfold AddTwoViewMatch.
    cbn [reconstruction_]. rewrite !bool_decide_eq_false_2 by done.
    assert (skips_match
              {| options_ := o; rng_ := rng o; image_filepaths_ := [];
                 reconstruction_ := r; view_graph_ := vg;
                 track_builder_ := None;
                 feature_extractor_and_matcher_ := None;
                 features_and_matches_database_ := None |}
              (Reconstruction.View r (Reconstruction.ViewIdFromName r image1))
              (Reconstruction.View r (Reconstruction.ViewIdFromName r image2))
            = Returned false) as ->.
    { unfold skips_match. cbn [options_].
      destruct Ho as [->|(v1 & v2 & -> & -> & Hc1 & Hc2)]; [done|].
      unfold calibrated in Hc1, Hc2. cbn [deref].
      destruct (only_calibrated_views o); [|done].
      cbn [mbind result_bind]. rewrite Hc1. cbn [negb].
      cbn [mbind result_bind]. by rewrite Hc2. }
    rewrite bind_Returned.
    rewrite AddTracksForMatch_absent by done.
    by destruct (correspondences m).
  - intros fuel recs Hn Ht. unfold BuildReconstruction.
    rewrite PrepareReconstruction_spec.
    cbn [view_graph_ reconstruction_ track_builder_].
    by rewrite !bool_decide_eq_true_2 by done.
  - intros fuel recs e Hn Ht. unfold BuildReconstruction.
    rewrite PrepareReconstruction_spec.
    cbn [view_graph_ reconstruction_ track_builder_ options_].
    rewrite bool_decide_eq_true_2 by done.
    rewrite bool_decide_eq_false_2 by done.
    destruct (only_calibrated_views o).
    + rewrite RemoveUncalibratedViews_eq, bind_Returned.
      apply EstimationLoop_not_Aborted.
    + rewrite bind_Returned. apply EstimationLoop_not_Aborted.
Qed.

(** ** What adding an image touches *)

Lemma tracks_AddViewToReconstruction path prior group r ok r' :
  AddViewToReconstruction GetFilenameFromFilepath path prior group r
  = Returned (ok, r') →
  Reconstruction.tracks r' = Reconstruction.tracks r.
Proof.
  unfold AddViewToReconstruction.
  destruct (GetFilenameFromFilepath path true) as [name|]; [|done].
  assert (∀ g, Reconstruction.tracks (Reconstruction.AddView r name g).2
               = Reconstruction.tracks r) as Ht.
  { intros g. unfold Reconstruction.AddView. by case_bool_decide. }
  case_bool_decide.
  - specialize (Ht None).
    destruct (Reconstruction.AddView r name None) as [id r1].
    case_bool_decide; [by intros [= <- <-]|].
    destruct prior; [|by intros [= <- <-]].
    destruct (Reconstruction.View r1 id); simpl; [|done].
    by intros [= <- <-].
  - specialize (Ht (Some group)).
    destruct (Reconstruction.AddView r name (Some group)) as [id r1].
    case_bool_decide; [by intros [= <- <-]|].
    destruct prior; [|by intros [= <- <-]].
    destruct (Reconstruction.View r1 id); simpl; [|done].
    by intros [= <- <-].
Qed.

(** X13. Adding an image, with or without a prior, touches the list of file
    paths, the views of the reconstruction and the extractor, and nothing
    else. The path is recorded even when the call returns false; the image
    reaches the extractor, with its prior if it has one, exactly when the call
    returns true; the tracks, the view graph, the track builder, the
    database, the options and the random source are as before. *)
Theorem AddImage_bookkeeping b path (prior : option CameraIntrinsicsPrior)
    group ok b' :
  match prior with
  | None => AddImageInGroup GetFilenameFromFilepath b path group
  | Some p =>
    AddImageWithCameraIntrinsicsPriorInGroup GetFilenameFromFilepath b path
      p group
  end = Returned (ok, b') →
  image_filepaths_ b' = image_filepaths_ b ++ [path]
  ∧ Reconstruction.tracks (reconstruction_ b')
    = Reconstruction.tracks (reconstruction_ b)
  ∧ view_graph_ b' = view_graph_ b
  ∧ track_builder_ b' = track_builder_ b
  ∧ features_and_matches_database_ b' = features_and_matches_database_ b
  ∧ options_ b' = options_ b
  ∧ rng_ b' = rng_ b
  ∧ (ok = false →
     feature_extractor_and_matcher_ b' = feature_extractor_and_matcher_ b)
  ∧ (ok = true →
     ∃ feam, feature_extractor_and_matcher_ b = Some feam
             ∧ feature_extractor_and_matcher_ b'
               = Some (FeatureExtractorAndMatcher.AddImage feam path prior).2).
Proof.
  assert (∀ ok1 r1,
    AddViewToReconstruction GetFilenameFromFilepath path prior group
      (reconstruction_ b) = Returned (ok1, r1) →
    (if negb ok1
     then Returned
            (false,
             set_reconstruction
               (set_image_filepaths b (image_filepaths_ b ++ [path])) r1)
     else
       feam ← deref (feature_extractor_and_matcher_ b);
       Returned
         ((FeatureExtractorAndMatcher.AddImage feam path prior).1,
          set_extractor
            (set_reconstruction
               (set_image_filepaths b (image_filepaths_ b ++ [path])) r1)
            (Some (FeatureExtractorAndMatcher.AddImage feam path prior).2)))
    = Returned (ok, b') →
    image_filepaths_ b' = image_filepaths_ b ++ [path]
    ∧ Reconstruction.tracks (reconstruction_ b')
      = Reconstruction.tracks (reconstruction_ b)
    ∧ view_graph_ b' = view_graph_ b
    ∧ track_builder_ b' = track_builder_ b
    ∧ features_and_matches_database_ b' = features_and_matches_database_ b
    ∧ options_ b' = options_ b
    ∧ rng_ b' = rng_ b
    ∧ (ok = false →
       feature_extractor_and_matcher_ b' = feature_extractor_and_matcher_ b)
    ∧ (ok = true →
       ∃ feam, feature_extractor_and_matcher_ b = Some feam
               ∧ feature_extractor_and_matcher_ b'
                 = Some (FeatureExtractorAndMatcher.AddImage feam path
                           prior).2)) as Hcore.
  { intros ok1 r1 Ha%tracks_AddViewToReconstruction.
    destruct ok1; cbn [negb].
    - destruct (feature_extractor_and_matcher_ b) as [feam|]; cbn [deref];
        [|done]. rewrite bind_Returned. intros [= <- <-].
      cbn. repeat split; try done. intros _. by exists feam.
    - intros [= <- <-]. cbn. repeat split; done. }
  destruct prior as [p|].
  - unfold AddImageWithCameraIntrinsicsPriorInGroup.
    cbn [reconstruction_ set_image_filepaths].
    destruct (AddViewToReconstruction _ _ _ _ _) as [[ok1 r1]| |] eqn:Ha;
      cbn [mbind result_bind]; [|done..].
    intros Hr. apply (Hcore ok1 r1 eq_refl).
    destruct ok1; cbn [negb] in *; [|done].
    cbn [feature_extractor_and_matcher_ set_reconstruction
         set_image_filepaths] in Hr.
    by destruct (feature_extractor_and_matcher_ b).
  - unfold AddImageInGroup.
    cbn [reconstruction_ set_image_filepaths].
    destruct (AddViewToReconstruction _ _ _ _ _) as [[ok1 r1]| |] eqn:Ha;
      cbn [mbind result_bind]; [|done..].
    intros Hr. apply (Hcore ok1 r1 eq_refl).
    destruct ok1; cbn [negb] in *; [|done].
    cbn [feature_extractor_and_matcher_ set_reconstruction
         set_image_filepaths] in Hr.
    by destruct (feature_extractor_and_matcher_ b).
Qed.
End more_on_constructors.

Lemma Create_leaves_only_the_build_witness :
  BuildReconstruction Mock.Estimate 5
    (Mock.returned
       (Create (Mock.options false false 2) Reconstruction.empty
               Mock.ready_made_view_graph)) []
  = Aborted NullDereference.
Proof.
  destruct (Create_leaves_only_the_build Mock.SwapCameras Mock.Estimate
              Mock.GetFilenameFromFilepath Mock.ExtractAndMatch
              (Mock.options false false 2) Reconstruction.empty
              Mock.ready_made_view_graph
              (Mock.returned
                 (Create (Mock.options false false 2) Reconstruction.empty
                         Mock.ready_made_view_graph)))
    as (_ & _ & _ & _ & H & _).
  - vm_compute. reflexivity.
  - apply H; vm_compute; [lia|reflexivity].
Defined.

(** The same image twice: the second call returns false, and the path is in
    the list twice. *)
Lemma AddImage_bookkeeping_witness :
  let res := Mock.outcome
               ('(ok, b) ← AddImage Mock.GetFilenameFromFilepath
                             Mock.two_images "a";
                Returned (ok, b, [])) in
  res.1.1 = false
  ∧ image_filepaths_ res.1.2 = ["a"; "b"; "a"].
Proof.
  intros res.
  destruct (AddImage_bookkeeping Mock.GetFilenameFromFilepath Mock.two_images
              "a" None kInvalidCameraIntrinsicsGroupId res.1.1 res.1.2)
    as (Hp & _).
  - vm_compute. reflexivity.
  - split; [vm_compute; reflexivity|]. rewrite Hp. vm_compute. reflexivity.
Defined.

(** ** The extract-and-match step *)

Section more_on_extraction.
Context {TwoViewInfo World : Type}.
Variable SwapCameras : TwoViewInfo → TwoViewInfo.
Variable GetFilenameFromFilepath : string → bool → option string.
Variable ExtractAndMatch :
  World → FeatureExtractorAndMatcher.t →
  FeaturesAndMatchesDatabase.t TwoViewInfo →
  FeaturesAndMatchesDatabase.t TwoViewInfo * World.
Implicit Types b : ReconstructionBuilder TwoViewInfo World.
Implicit Types r : Reconstruction.t.

Lemma set_track_builder_None b vg :
  track_builder_ (set_view_graph b vg) = None →
  set_view_graph b vg = set_track_builder (set_view_graph b vg) None.
Proof. destruct b; simpl. by intros ->. Qed.

(** [AddTwoViewMatch] writes the view graph and the track builder only. *)
Lemma AddTwoViewMatch_frame b image1 image2 m ok b' :
  AddTwoViewMatch SwapCameras b image1 image2 m = Returned (ok, b') →
  ok = true
  ∧ ∃ vg tb, b' = set_track_builder (set_view_graph b vg) tb.
Proof.
  unfold AddTwoViewMatch.
  case_bool_decide; [done|]. case_bool_decide; [done|].
  destruct (skips_match _ _ _) as [[]| |]; cbn [mbind result_bind];
    [| |done..].
  - intros [= <- <-]. split; [done|].
    exists (view_graph_ b), (track_builder_ b). by destruct b.
  - destruct (track_builder_ b) as [tb|] eqn:Htb.
    + rewrite (AddTracksForMatch_present _ tb) by done.
      rewrite bind_Returned. intros [= <- <-]. split; [done|].
      by eexists _, _.
    + rewrite AddTracksForMatch_absent by done.
      destruct (correspondences m); cbn [mbind result_bind]; [|done].
      intros [= <- <-]. split; [done|].
      unfold AddMatchToViewGraph. eexists _, None.
      apply set_track_builder_None. exact Htb.
Qed.

(** The name lookup finds a view of that name, or the sentinel. *)
Lemma ViewIdFromName_named r name v :
  Reconstruction.views r !! kInvalidViewId = None →
  Reconstruction.views r !! Reconstruction.ViewIdFromName r name = Some v →
  View.Name v = name.
Proof.
  intros Hinv. unfold Reconstruction.ViewIdFromName.
  destruct (filter _ _) as [|[k w] l] eqn:Hf; simpl;
    [rewrite Hinv; intros ?; discriminate|].
  assert ((k, w) ∈ filter (λ kv : N * View.t, View.Name kv.2 = name)
                     (map_to_list (Reconstruction.views r))) as Hin.
  { rewrite Hf. by left. }
  apply list_elem_of_filter in Hin as [Hname Hin%elem_of_map_to_list].
  intros Hv. by simplify_eq.
Qed.

Lemma ViewIdFromName_unknown r name :
  (∀ id v, Reconstruction.views r !! id = Some v → View.Name v ≠ name) →
  Reconstruction.ViewIdFromName r name = kInvalidViewId.
Proof.
  intros Hno. unfold Reconstruction.ViewIdFromName.
  destruct (filter _ _) as [|[k w] l] eqn:Hf; [done|]. exfalso.
  assert ((k, w) ∈ filter (λ kv : N * View.t, View.Name kv.2 = name)
                     (map_to_list (Reconstruction.views r))) as Hin.
  { rewrite Hf. by left. }
  apply list_elem_of_filter in Hin as [Hname Hin%elem_of_map_to_list].
  by apply (Hno k w).
Qed.

Lemma ViewIdFromName_known r name id v :
  Reconstruction.views r !! kInvalidViewId = None →
  Reconstruction.views r !! id = Some v → View.Name v = name →
  Reconstruction.ViewIdFromName r name ≠ kInvalidViewId.
Proof.
  intros Hinv Hv Hname. unfold Reconstruction.ViewIdFromName.
  destruct (filter _ _) as [|[k w] l] eqn:Hf.
  - exfalso.
    assert ((id, v) ∈ filter (λ kv : N * View.t, View.Name kv.2 = name)
                       (map_to_list (Reconstruction.views r))) as Hin.
    { apply list_elem_of_filter. split; [done|].
      by apply elem_of_map_to_list. }
    rewrite Hf in Hin. by apply elem_of_nil in Hin.
  - simpl.
    assert ((k, w) ∈ filter (λ kv : N * View.t, View.Name kv.2 = name)
                       (map_to_list (Reconstruction.views r))) as Hin.
    { rewrite Hf. by left. }
    apply list_elem_of_filter in Hin as [_ Hin%elem_of_map_to_list].
    intros ->. congruence.
Qed.

End more_on_extraction.

Section more_on_extraction_2.
Context {TwoViewInfo World : Type}.
Variable SwapCameras : TwoViewInfo → TwoViewInfo.
Variable ExtractAndMatch :
  World → FeatureExtractorAndMatcher.t →
  FeaturesAndMatchesDatabase.t TwoViewInfo →
  FeaturesAndMatchesDatabase.t TwoViewInfo * World.
Implicit Types b : ReconstructionBuilder TwoViewInfo World.
Implicit Types r : Reconstruction.t.
Implicit Types db : FeaturesAndMatchesDatabase.t TwoViewInfo.

(** [ExtractAndMatchFeatures] past its check and its two dereferences. *)
Lemma ExtractAndMatchFeatures_unfold b feam db0 :
  ViewGraph.NumViews (view_graph_ b) = 0 →
  feature_extractor_and_matcher_ b = Some feam →
  features_and_matches_database_ b = Some db0 →
  let db := (ExtractAndMatch (rng_ b) feam db0).1 in
  let w := (ExtractAndMatch (rng_ b) feam db0).2 in
  ExtractAndMatchFeatures SwapCameras ExtractAndMatch b
  = b1 ← foldM (copy_prior db)
             (FeaturesAndMatchesDatabase.ImageNamesOfCameraIntrinsicsPriors db)
             (set_rng (set_database (set_extractor b None) (Some db)) w);
    b2 ← foldM (ingest_match SwapCameras db)
             (FeaturesAndMatchesDatabase.ImageNamesOfMatches db) b1;
    Returned (true, b2).
Proof.
  intros Hn Hf Hd db w. subst db w. unfold ExtractAndMatchFeatures.
  rewrite bool_decide_eq_true_2 by done. rewrite Hf, Hd. cbn [deref].
  rewrite !bind_Returned.
  by destruct (ExtractAndMatch (rng_ b) feam db0) as [db w].
Qed.

Abbreviation no_sentinel r :=
  (Reconstruction.views r !! kInvalidViewId = None).

Abbreviation prior_of db name :=
  (FeaturesAndMatchesDatabase.GetCameraIntrinsicsPrior db name).

Lemma lookup_UpdateView_prior r id p i :
  Reconstruction.views
    (Reconstruction.UpdateView r id (View.SetCameraIntrinsicsPrior p)) !! i
  = (if decide (id = i) then View.SetCameraIntrinsicsPrior p else λ v, v)
      <$> Reconstruction.views r !! i.
Proof.
  unfold Reconstruction.UpdateView; cbn [Reconstruction.views].
  rewrite lookup_alter. destruct (decide (id = i)) as [->|]; [done|].
  by destruct (Reconstruction.views r !! i).
Qed.

Lemma same_but_priors_refl r : same_but_priors r r.
Proof. by split. Qed.

Lemma same_but_priors_UpdateView r r' id p :
  same_but_priors r r' →
  same_but_priors r
    (Reconstruction.UpdateView r' id (View.SetCameraIntrinsicsPrior p)).
Proof.
  intros [Ht Hv]. split; [done|]. intros i.
  rewrite lookup_UpdateView_prior. destruct (Hv i) as [Hn He].
  rewrite <- Hn, <- He.
  destruct (Reconstruction.views r' !! i) as [v|]; [|done].
  by case_decide.
Qed.

(** One copy of a prior: the view found under the name, which carries that
    name, gets the prior of the database; an unknown name is a null view. *)
Lemma copy_prior_Returned db b name b' :
  no_sentinel (reconstruction_ b) →
  copy_prior db b name = Returned b' →
  ∃ id v, Reconstruction.views (reconstruction_ b) !! id = Some v
          ∧ View.Name v = name
          ∧ b' = set_reconstruction b
                   (Reconstruction.UpdateView (reconstruction_ b) id
                      (View.SetCameraIntrinsicsPrior (prior_of db name))).
Proof.
  intros Hinv. unfold copy_prior, Reconstruction.View.
  destruct (Reconstruction.views (reconstruction_ b)
              !! Reconstruction.ViewIdFromName (reconstruction_ b) name)
    as [v|] eqn:Hv; cbn [deref mbind result_bind]; [|done].
  intros [= <-]. eexists _, v. split; [exact Hv|]. split; [|done].
  by eapply ViewIdFromName_named.
Qed.

Lemma copy_prior_outcome db b name :
  match copy_prior db b name with
  | Returned b' =>
    ∃ r', b' = set_reconstruction b r'
          ∧ same_but_priors (reconstruction_ b) r'
          ∧ (no_sentinel (reconstruction_ b) → no_sentinel r')
  | Aborted e => e = NullDereference
  | Timeout => False
  end.
Proof.
  unfold copy_prior.
  destruct (Reconstruction.View _ _); cbn [deref mbind result_bind]; [|done].
  eexists. split; [done|].
  split; [apply same_but_priors_UpdateView, same_but_priors_refl|].
  intros Hinv. rewrite lookup_UpdateView_prior. by rewrite Hinv.
Qed.

Lemma same_but_priors_trans r1 r2 r3 :
  same_but_priors r1 r2 → same_but_priors r2 r3 → same_but_priors r1 r3.
Proof.
  intros [Ht1 Hv1] [Ht2 Hv2]. split; [congruence|]. intros id.
  destruct (Hv1 id), (Hv2 id). split; congruence.
Qed.

Lemma foldM_copy_prior_Returned db l b b1 :
  foldM (copy_prior db) l b = Returned b1 →
  ∃ r1, b1 = set_reconstruction b r1
        ∧ same_but_priors (reconstruction_ b) r1
        ∧ (no_sentinel (reconstruction_ b) → no_sentinel r1).
Proof.
  revert b. induction l as [|a l IH]; intros b; cbn [foldM].
  - intros [= <-]. exists (reconstruction_ b).
    split; [by destruct b|]. split; [apply same_but_priors_refl|done].
  - pose proof (copy_prior_outcome db b a) as Hc.
    destruct (copy_prior db b a) as [bx| |]; cbn [mbind result_bind];
      [|done..].
    destruct Hc as (rx & -> & Hs & Hi).
    intros (r1 & -> & Hs1 & Hi1)%IH.
    cbn [reconstruction_ set_reconstruction] in *.
    exists r1. split; [done|]. split; [by eapply same_but_priors_trans|].
    intros ?. by apply Hi1, Hi.
Qed.

Lemma foldM_copy_prior_outcome db l b :
  match foldM (copy_prior db) l b with
  | Returned _ => True
  | Aborted e => e = NullDereference
  | Timeout => False
  end.
Proof.
  revert b. induction l as [|a l IH]; intros b; cbn [foldM]; [done|].
  pose proof (copy_prior_outcome db b a) as Hc.
  destruct (copy_prior db b a) as [bx| |]; cbn [mbind result_bind];
    [apply IH|done..].
Qed.

Lemma ingest_match_frame db b key bx :
  ingest_match SwapCameras db b key = Returned bx →
  ∃ vg tb, bx = set_track_builder (set_view_graph b vg) tb.
Proof.
  unfold ingest_match.
  destruct (FeaturesAndMatchesDatabase.GetImagePairMatch db key.1 key.2)
    as [m|]; cbn [deref mbind result_bind]; [|done].
  destruct (AddTwoViewMatch _ _ _ _ _) as [[ok bx']| |] eqn:Ha;
    cbn [mbind result_bind]; [|done..].
  apply AddTwoViewMatch_frame in Ha as (_ & vg & tb & ->).
  intros [= <-]. by exists vg, tb.
Qed.

Lemma foldM_ingest_match_frame db l b b2 :
  foldM (ingest_match SwapCameras db) l b = Returned b2 →
  ∃ vg tb, b2 = set_track_builder (set_view_graph b vg) tb.
Proof.
  revert b. induction l as [|a l IH]; intros b; cbn [foldM].
  - intros [= <-]. exists (view_graph_ b), (track_builder_ b). by destruct b.
  - destruct (ingest_match SwapCameras db b a) as [bx| |] eqn:Ha;
      cbn [mbind result_bind]; [|done..].
    apply ingest_match_frame in Ha as (vg & tb & ->).
    intros (vg' & tb' & ->)%IH. by exists vg', tb'.
Qed.

(** X14. The extract-and-match step, when it returns, returns true; it has
    released the extractor and left in the builder the database as the
    extractor wrote it and the random source as the extractor left it (the
    two loops that follow draw nothing from it); it has changed no file path
    and no option, added or removed no view and no track, and changed no
    name and no estimated flag: in the reconstruction only priors can
    differ. *)
Theorem ExtractAndMatchFeatures_frame b ok b' :
  ExtractAndMatchFeatures SwapCameras ExtractAndMatch b = Returned (ok, b') →
  ok = true
  ∧ feature_extractor_and_matcher_ b' = None
  ∧ (∃ feam db0,
       feature_extractor_and_matcher_ b = Some feam
       ∧ features_and_matches_database_ b = Some db0
       ∧ features_and_matches_database_ b'
         = Some (ExtractAndMatch (rng_ b) feam db0).1
       ∧ rng_ b' = (ExtractAndMatch (rng_ b) feam db0).2)
  ∧ image_filepaths_ b' = image_filepaths_ b
  ∧ options_ b' = options_ b
  ∧ same_but_priors (reconstruction_ b) (reconstruction_ b').
Proof.
  intros Hr.
  destruct (decide (ViewGraph.NumViews (view_graph_ b) = 0)) as [Hn|Hn];
    [|by rewrite ExtractAndMatchFeatures_guard in Hr].
  destruct (feature_extractor_and_matcher_ b) as [feam|] eqn:Hf;
    [|unfold ExtractAndMatchFeatures in Hr;
      rewrite bool_decide_eq_true_2, Hf in Hr by done; done].
  destruct (features_and_matches_database_ b) as [db0|] eqn:Hd;
    [|unfold ExtractAndMatchFeatures in Hr;
      rewrite bool_decide_eq_true_2, Hf, Hd in Hr by done; done].
  rewrite (ExtractAndMatchFeatures_unfold b feam db0) in Hr by done.
  cbn zeta in Hr.
  destruct (foldM (copy_prior _) _ _) as [b1| |] eqn:H1;
    cbn [mbind result_bind] in Hr; [|done..].
  destruct (foldM (ingest_match _ _) _ _) as [b2| |] eqn:H2;
    cbn [mbind result_bind] in Hr; [|done..].
  injection Hr as <- <-.
  apply foldM_copy_prior_Returned in H1 as (r1 & -> & Hs & _).
  apply foldM_ingest_match_frame in H2 as (vg & tb & ->).
  cbn. split; [done|]. split; [done|].
  split; [by exists feam, db0|]. done.
Qed.

(** X15. A prior in the database for an image that was never added is fatal:
    with no view under that name (and none under the sentinel identifier),
    the step dereferences the null view and aborts, whatever else the
    database holds. *)
Theorem ExtractAndMatchFeatures_prior_of_unknown_image b feam db0 name :
  ViewGraph.NumViews (view_graph_ b) = 0 →
  feature_extractor_and_matcher_ b = Some feam →
  features_and_matches_database_ b = Some db0 →
  no_sentinel (reconstruction_ b) →
  name ∈ FeaturesAndMatchesDatabase.ImageNamesOfCameraIntrinsicsPriors
           (ExtractAndMatch (rng_ b) feam db0).1 →
  (∀ id v, Reconstruction.View (reconstruction_ b) id = Some v →
           View.Name v ≠ name) →
  ExtractAndMatchFeatures SwapCameras ExtractAndMatch b
  = Aborted NullDereference.
Proof.
  intros Hn Hf Hd Hinv Hin Hno.
  rewrite (ExtractAndMatchFeatures_unfold b feam db0) by done. cbn zeta.
  set (db := (ExtractAndMatch (rng_ b) feam db0).1) in *.
  assert (∀ l b0, name ∈ l →
            no_sentinel (reconstruction_ b0) →
            (∀ id v, Reconstruction.views (reconstruction_ b0) !! id = Some v →
                     View.Name v ≠ name) →
            foldM (copy_prior db) l b0 = Aborted NullDereference) as Hfold.
  { clear. intros l. induction l as [|a l IH]; intros b0 Hin Hinv Hno.
    { by apply elem_of_nil in Hin. }
    cbn [foldM]. destruct (decide (a = name)) as [->|Hne].
    - assert (copy_prior db b0 name = Aborted NullDereference) as ->; [|done].
      unfold copy_prior.
      rewrite (ViewIdFromName_unknown _ name Hno).
      unfold Reconstruction.View. by rewrite Hinv.
    - apply elem_of_cons in Hin as [?|Hin]; [congruence|].
      pose proof (copy_prior_outcome db b0 a) as Hc.
      destruct (copy_prior db b0 a) as [bx|e|]; cbn [mbind result_bind];
        [|by subst|done].
      destruct Hc as (rx & -> & [_ Hs] & Hi).
      apply IH; cbn [reconstruction_ set_reconstruction]; [done|by apply Hi|].
      intros id v Hv. destruct (Hs id) as [Hname _]. rewrite Hv in Hname.
      destruct (Reconstruction.views (reconstruction_ b0) !! id) as [w|]
        eqn:Hw; [|done].
      simpl in Hname. injection Hname as ->. by apply (Hno id w). }
  rewrite Hfold; done.
Qed.

Lemma copy_prior_keeps db b a bx id v :
  no_sentinel (reconstruction_ b) →
  copy_prior db b a = Returned bx →
  Reconstruction.views (reconstruction_ b) !! id = Some v →
  View.CameraIntrinsicsPrior v = prior_of db (View.Name v) →
  ∃ v', Reconstruction.views (reconstruction_ bx) !! id = Some v'
        ∧ View.Name v' = View.Name v
        ∧ View.CameraIntrinsicsPrior v' = prior_of db (View.Name v).
Proof.
  intros Hinv (id' & w & Hw & Hname & ->)%copy_prior_Returned Hv Hp; [|done].
  cbn [reconstruction_ set_reconstruction].
  rewrite lookup_UpdateView_prior, Hv. simpl.
  case_decide as Hid; [|by exists v].
  subst id'. simplify_eq. eexists. split; [done|]. split; [done|]. done.
Qed.

Lemma foldM_copy_prior_keeps db l b b1 id v :
  no_sentinel (reconstruction_ b) →
  foldM (copy_prior db) l b = Returned b1 →
  Reconstruction.views (reconstruction_ b) !! id = Some v →
  View.CameraIntrinsicsPrior v = prior_of db (View.Name v) →
  ∃ v', Reconstruction.views (reconstruction_ b1) !! id = Some v'
        ∧ View.Name v' = View.Name v
        ∧ View.CameraIntrinsicsPrior v' = prior_of db (View.Name v).
Proof.
  revert b v. induction l as [|a l IH]; intros b v Hinv; cbn [foldM].
  - intros [= <-] Hv Hp. by exists v.
  - destruct (copy_prior db b a) as [bx| |] eqn:Hc; cbn [mbind result_bind];
      [|done..].
    intros Hrest Hv Hp.
    destruct (copy_prior_keeps db b a bx id v Hinv Hc Hv Hp)
      as (v' & Hv' & Hn' & Hp').
    pose proof (copy_prior_outcome db b a) as Ho. rewrite Hc in Ho.
    destruct Ho as (rx & Hbx & _ & Hi).
    assert (no_sentinel (reconstruction_ bx)) as Hinvx.
    { rewrite Hbx. by apply Hi. }
    destruct (IH bx v' Hinvx Hrest Hv') as (v'' & ? & ? & ?);
      [congruence|].
    exists v''. split; [done|]. split; congruence.
Qed.

Lemma foldM_copy_prior_sets db l b b1 name :
  no_sentinel (reconstruction_ b) →
  foldM (copy_prior db) l b = Returned b1 →
  name ∈ l →
  ∃ id v, Reconstruction.views (reconstruction_ b1) !! id = Some v
          ∧ View.Name v = name
          ∧ View.CameraIntrinsicsPrior v = prior_of db name.
Proof.
  revert b. induction l as [|a l IH]; intros b Hinv; cbn [foldM].
  - intros _ Hin. by apply elem_of_nil in Hin.
  - destruct (copy_prior db b a) as [bx| |] eqn:Hc; cbn [mbind result_bind];
      [|done..].
    intros Hrest Hin.
    pose proof (copy_prior_outcome db b a) as Ho. rewrite Hc in Ho.
    destruct Ho as (rx & Hbx & _ & Hi).
    assert (no_sentinel (reconstruction_ bx)) as Hinvx.
    { subst bx. by apply Hi. }
    destruct (decide (a = name)) as [->|Hne].
    + apply copy_prior_Returned in Hc as (id & w & Hw & Hname & Hbx');
        [|done].
      assert (∃ v, Reconstruction.views (reconstruction_ bx) !! id = Some v
                   ∧ View.Name v = name
                   ∧ View.CameraIntrinsicsPrior v = prior_of db name)
        as (v & Hv & Hn & Hp).
      { rewrite Hbx'. cbn [reconstruction_ set_reconstruction].
        rewrite lookup_UpdateView_prior, Hw. simpl.
        rewrite decide_True by done. by eexists. }
      destruct (foldM_copy_prior_keeps db l bx b1 id v Hinvx Hrest Hv)
        as (v' & ? & ? & ?); [congruence|].
      exists id, v'. split; [done|]. split; congruence.
    + apply elem_of_cons in Hin as [?|Hin]; [congruence|].
      by apply (IH bx).
Qed.

(** X16. The priors of the database override the ones the images were added
    with. When the step returns (on a reconstruction without a view under the
    sentinel identifier), every image name for which the database holds a
    prior names a view of the reconstruction that now carries exactly that
    prior. *)
Theorem ExtractAndMatchFeatures_copies_priors b feam db0 ok b' name :
  feature_extractor_and_matcher_ b = Some feam →
  features_and_matches_database_ b = Some db0 →
  no_sentinel (reconstruction_ b) →
  ExtractAndMatchFeatures SwapCameras ExtractAndMatch b = Returned (ok, b') →
  name ∈ FeaturesAndMatchesDatabase.ImageNamesOfCameraIntrinsicsPriors
           (ExtractAndMatch (rng_ b) feam db0).1 →
  ∃ id v, Reconstruction.View (reconstruction_ b') id = Some v
          ∧ View.Name v = name
          ∧ View.CameraIntrinsicsPrior v
            = prior_of (ExtractAndMatch (rng_ b) feam db0).1 name.
Proof.
  intros Hf Hd Hinv Hr Hin.
  destruct (decide (ViewGraph.NumViews (view_graph_ b) = 0)) as [Hn|Hn];
    [|by rewrite ExtractAndMatchFeatures_guard in Hr].
  rewrite (ExtractAndMatchFeatures_unfold b feam db0) in Hr by done.
  cbn zeta in Hr.
  destruct (foldM (copy_prior _) _ _) as [b1| |] eqn:H1;
    cbn [mbind result_bind] in Hr; [|done..].
  destruct (foldM (ingest_match _ _) _ _) as [b2| |] eqn:H2;
    cbn [mbind result_bind] in Hr; [|done..].
  injection Hr as <- <-.
  apply foldM_ingest_match_frame in H2 as (vg & tb & ->).
  cbn [reconstruction_ set_track_builder set_view_graph].
  unfold Reconstruction.View.
  by apply (foldM_copy_prior_sets _ _ _ _ name) in H1.
Qed.
End more_on_extraction_2.

(** The step on the database with a prior for ["a"] and the match of ["a"]
    and ["b"], with an extractor that draws from the random source: the
    source of the builder, untouched before, has advanced. *)
Lemma ExtractAndMatchFeatures_frame_witness :
  let res := Mock.outcome
               ('(ok, b) ← ExtractAndMatchFeatures Mock.SwapCameras
                             Mock.ExtractAndMatchDrawing
                             Mock.two_images_on_database;
                Returned (ok, b, [])) in
  res.1.1 = true
  ∧ image_filepaths_ res.1.2 = ["a"; "b"]
  ∧ feature_extractor_and_matcher_ res.1.2 = None
  ∧ rng_ Mock.two_images_on_database = []
  ∧ rng_ res.1.2 = [Reconstruction.empty].
Proof.
  intros res.
  destruct (ExtractAndMatchFeatures_frame Mock.SwapCameras
              Mock.ExtractAndMatchDrawing Mock.two_images_on_database
              res.1.1 res.1.2)
    as (Hok & Hx & (feam & db0 & _ & _ & _ & Hw) & Hp & _).
  - vm_compute. reflexivity.
  - split; [exact Hok|]. split; [|split; [exact Hx|split]].
    + rewrite Hp. vm_compute. reflexivity.
    + vm_compute. reflexivity.
    + rewrite Hw. unfold Mock.ExtractAndMatchDrawing. cbn [snd].
      vm_compute. reflexivity.
Defined.

Lemma ExtractAndMatchFeatures_prior_of_unknown_image_witness :
  ExtractAndMatchFeatures Mock.SwapCameras Mock.ExtractAndMatch
    Mock.two_images_on_database_z = Aborted NullDereference.
Proof.
  apply (ExtractAndMatchFeatures_prior_of_unknown_image Mock.SwapCameras
           Mock.ExtractAndMatch Mock.two_images_on_database_z
           (FeatureExtractorAndMatcher.AddImage
              (FeatureExtractorAndMatcher.AddImage
                 (FeatureExtractorAndMatcher.Create
                    {| FeatureExtractorAndMatcher.num_threads := 1;
                       FeatureExtractorAndMatcher.only_calibrated_views :=
                         false |}) "a" None).2 "b" None).2
           Mock.database_z "z").
  - vm_compute. reflexivity.
  - vm_compute. reflexivity.
  - vm_compute. reflexivity.
  - vm_compute. reflexivity.
  - unfold Mock.ExtractAndMatch. vm_compute. left.
  - intros id v. unfold Reconstruction.View.
    intros Hv. apply elem_of_map_to_list in Hv. revert Hv.
    vm_compute. intros Hv.
    repeat (apply list_elem_of_In in Hv; destruct Hv as [Hv|Hv];
            [by inversion Hv|apply list_elem_of_In in Hv]).
    by apply elem_of_nil in Hv.
Defined.

(** The image ["a"] was added without a prior; after the step its view has
    the prior of the database. *)
Lemma ExtractAndMatchFeatures_copies_priors_witness :
  let res := Mock.outcome
               ('(ok, b) ← ExtractAndMatchFeatures Mock.SwapCameras
                             Mock.ExtractAndMatch Mock.two_images_on_database;
                Returned (ok, b, [])) in
  ∃ id v, Reconstruction.View (reconstruction_ res.1.2) id = Some v
          ∧ View.Name v = "a"
          ∧ View.CameraIntrinsicsPrior v = Mock.set_prior.
Proof.
  intros res.
  apply (ExtractAndMatchFeatures_copies_priors Mock.SwapCameras
           Mock.ExtractAndMatch Mock.two_images_on_database
           (FeatureExtractorAndMatcher.AddImage
              (FeatureExtractorAndMatcher.AddImage
                 (FeatureExtractorAndMatcher.Create
                    {| FeatureExtractorAndMatcher.num_threads := 1;
                       FeatureExtractorAndMatcher.only_calibrated_views :=
                         false |}) "a" None).2 "b" None).2
           Mock.database_ab res.1.1 res.1.2 "a").
  - vm_compute. reflexivity.
  - vm_compute. reflexivity.
  - vm_compute. reflexivity.
  - vm_compute. reflexivity.
  - unfold Mock.ExtractAndMatch. vm_compute. left.
Defined.

(** ** From an added image to a match that names it *)

Section more_on_images.
Context {TwoViewInfo World : Type}.
Variable GetFilenameFromFilepath : string → bool → option string.
Implicit Types b : ReconstructionBuilder TwoViewInfo World.
Implicit Types r : Reconstruction.t.

Lemma AddView_added r name group id r' :
  Reconstruction.AddView r name group = (id, r') →
  id ≠ kInvalidViewId →
  id = Reconstruction.next_view_id r
  ∧ Reconstruction.views r'
    = <[id := {| View.Name := name; View.IsEstimated := false;
                 View.CameraIntrinsicsPrior := unset_prior;
                 View.Group := group |}]> (Reconstruction.views r).
Proof.
  unfold Reconstruction.AddView. case_bool_decide.
  - by intros [= <- <-] _.
  - by intros [= <- <-].
Qed.

(** A successful [AddViewToReconstruction], in closed form. *)
Lemma AddViewToReconstruction_added path name prior group r r' :
  GetFilenameFromFilepath path true = Some name →
  AddViewToReconstruction GetFilenameFromFilepath path prior group r
  = Returned (true, r') →
  Reconstruction.next_view_id r ≠ kInvalidViewId
  ∧ ∃ g, Reconstruction.views r'
         = <[Reconstruction.next_view_id r :=
               {| View.Name := name; View.IsEstimated := false;
                  View.CameraIntrinsicsPrior := default unset_prior prior;
                  View.Group := g |}]> (Reconstruction.views r).
Proof.
  intros Hname. unfold AddViewToReconstruction. rewrite Hname.
  set (g := if bool_decide (group = kInvalidCameraIntrinsicsGroupId)
            then None else Some group).
  assert ((if bool_decide (group = kInvalidCameraIntrinsicsGroupId)
           then Reconstruction.AddView r name None
           else Reconstruction.AddView r name (Some group))
          = Reconstruction.AddView r name g) as ->.
  { unfold g. by case_bool_decide. }
  destruct (Reconstruction.AddView r name g) as [id r1] eqn:Ha.
  case_bool_decide as Hid; [done|].
  destruct (AddView_added _ _ _ _ _ Ha Hid) as [-> Hv].
  destruct prior as [p|]; cbn [default].
  - unfold Reconstruction.View. rewrite Hv, lookup_insert_eq.
    cbn [deref mbind result_bind]. intros [= <-]. split; [done|]. exists g.
    unfold Reconstruction.UpdateView; cbn [Reconstruction.views].
    rewrite Hv. apply map_eq. intros i.
    rewrite lookup_alter, !lookup_insert.
    destruct (decide (Reconstruction.next_view_id r = i)); [|done].
    by rewrite decide_True.
  - intros [= <-]. split; [done|]. by exists g.
Qed.

(** X17. An image that was added can be named in a match. When [AddImage],
    with or without a prior, returns true on a reconstruction that has no view
    under the sentinel identifier, the reconstruction has gained exactly one
    view, under the identifier that was next: it carries the file name of the
    path, is not estimated and has the supplied prior (none if none was
    supplied); the other views are untouched, and the lookup of the file name
    no longer answers the sentinel, so the name checks of [AddTwoViewMatch]
    pass for it. *)
Theorem AddImage_makes_the_name_known b path name
    (prior : option CameraIntrinsicsPrior) group b' :
  Reconstruction.views (reconstruction_ b) !! kInvalidViewId = None →
  GetFilenameFromFilepath path true = Some name →
  match prior with
  | None => AddImageInGroup GetFilenameFromFilepath b path group
  | Some p =>
    AddImageWithCameraIntrinsicsPriorInGroup GetFilenameFromFilepath b path
      p group
  end = Returned (true, b') →
  let id := Reconstruction.next_view_id (reconstruction_ b) in
  (∃ v, Reconstruction.View (reconstruction_ b') id = Some v
        ∧ View.Name v = name
        ∧ View.IsEstimated v = false
        ∧ View.CameraIntrinsicsPrior v = default unset_prior prior)
  ∧ (∀ i, i ≠ id →
          Reconstruction.View (reconstruction_ b') i
          = Reconstruction.View (reconstruction_ b) i)
  ∧ Reconstruction.views (reconstruction_ b') !! kInvalidViewId = None
  ∧ Reconstruction.ViewIdFromName (reconstruction_ b') name
    ≠ kInvalidViewId.
Proof.
  intros Hinv Hname Hr id.
  assert (∃ r', AddViewToReconstruction GetFilenameFromFilepath path prior
                  group (reconstruction_ b) = Returned (true, r')
                ∧ reconstruction_ b' = r') as (r' & Ha & Hb').
  { destruct prior as [p|].
    - unfold AddImageWithCameraIntrinsicsPriorInGroup in Hr.
      cbn [reconstruction_ set_image_filepaths] in Hr.
      destruct (AddViewToReconstruction _ _ _ _ _) as [[ok1 r1]| |];
        cbn [mbind result_bind] in Hr; [|done..].
      destruct ok1; cbn [negb] in Hr; [|done].
      destruct (feature_extractor_and_matcher_ _);
        cbn [deref mbind result_bind] in Hr; [|done].
      cbn in Hr. simplify_eq. by exists r1.
    - unfold AddImageInGroup in Hr.
      cbn [reconstruction_ set_image_filepaths] in Hr.
      destruct (AddViewToReconstruction _ _ _ _ _) as [[ok1 r1]| |];
        cbn [mbind result_bind] in Hr; [|done..].
      destruct ok1; cbn [negb] in Hr; [|done].
      destruct (feature_extractor_and_matcher_ _);
        cbn [deref mbind result_bind] in Hr; [|done].
      cbn in Hr. simplify_eq. by exists r1. }
  destruct (AddViewToReconstruction_added _ _ _ _ _ _ Hname Ha)
    as (Hid & g & Hv).
  rewrite Hb'. unfold Reconstruction.View. rewrite Hv. fold id in Hid |- *.
  split; [|split; [|split]].
  - rewrite lookup_insert_eq. by eexists.
  - intros i Hi. by rewrite lookup_insert_ne.
  - by rewrite lookup_insert_ne.
  - eapply (ViewIdFromName_known r' name id).
    + rewrite Hv. by rewrite lookup_insert_ne.
    + rewrite Hv. apply lookup_insert_eq.
    + done.
Qed.
End more_on_images.

(** A third image on the builder that has two. *)
Lemma AddImage_makes_the_name_known_witness :
  let res := Mock.outcome
               ('(ok, b) ← AddImage Mock.GetFilenameFromFilepath
                             Mock.two_images "c";
                Returned (ok, b, [])) in
  Reconstruction.ViewIdFromName (reconstruction_ res.1.2) "c"
  ≠ kInvalidViewId.
Proof.
  intros res.
  apply (AddImage_makes_the_name_known Mock.GetFilenameFromFilepath
           Mock.two_images "c" "c" None kInvalidCameraIntrinsicsGroupId
           res.1.2).
  - vm_compute. reflexivity.
  - reflexivity.
  - vm_compute. reflexivity.
Defined.

(** ** The view graph after the calibration filter *)

Section more_on_the_filter.
Context {TwoViewInfo World : Type}.
Implicit Types b : ReconstructionBuilder TwoViewInfo World.


End more_on_the_filter.


(** ** A run that ends *)

Lemma size_filter_lt `{Countable K} {V} (P : V → bool) (m : gmap K V) i x :
  m !! i = Some x → P x = false →
  size (filter (λ kv, P kv.2 = true) m) < size m.
Proof.
  intros Hi Hx. rewrite <- (size_filter_split P m).
  assert (filter (λ kv : K * V, negb (P kv.2) = true) m !! i = Some x) as Hf.
  { apply map_lookup_filter_Some. split; [done|]. simpl. by rewrite Hx. }
  assert (size (filter (λ kv : K * V, negb (P kv.2) = true) m) ≠ 0); [|lia].
  intros Hz. apply map_size_empty_iff in Hz. rewrite Hz in Hf.
  by rewrite lookup_empty in Hf.
Qed.

Lemma size_select_views_le P r :
  size (select_views P r) ≤ Reconstruction.NumViews r.
Proof.
  unfold select_views, Reconstruction.NumViews.
  rewrite <- (size_filter_split P (Reconstruction.views r)). lia.
Qed.

Section a_run_that_ends.
Context {TwoViewInfo World : Type}.
Variable Estimate :
  World → ViewGraph.t TwoViewInfo → Reconstruction.t →
  ReconstructionEstimatorSummary * ViewGraph.t TwoViewInfo
  * Reconstruction.t * World.
Implicit Types b : ReconstructionBuilder TwoViewInfo World.
Implicit Types recs : list Reconstruction.t.

(** An estimator that, when it reports success, creates no view and has
    flagged at least one view as estimated. *)
Hypothesis Estimate_progress : ∀ w vg r,
  success (Estimate w vg r).1.1.1 = true →
  dom (Reconstruction.views (Estimate w vg r).1.2)
  ⊆ dom (Reconstruction.views r)
  ∧ ∃ id v, Reconstruction.View (Estimate w vg r).1.2 id = Some v
            ∧ View.IsEstimated v = true.

Lemma harvest_shrinks b :
  success (estimated Estimate b).1 = true →
  Reconstruction.NumViews
    (reconstruction_ (harvested (estimated Estimate b).2))
  < Reconstruction.NumViews (reconstruction_ b).
Proof.
  pose proof (Estimate_progress (rng_ b) (view_graph_ b)
                (reconstruction_ b)) as Hp.
  unfold estimated, harvested.
  destruct (Estimate _ _ _) as [[[s vg] r] w]. cbn [fst snd] in *.
  intros Hs. destruct (Hp Hs) as (Hsub & id & v & Hv & He).
  rewrite RemoveEstimatedViewsAndTracks_eq.
  cbn [reconstruction_ set_reconstruction set_view_graph set_rng
       with_views with_tracks Reconstruction.views].
  unfold Reconstruction.NumViews at 1.
  cbn [with_views with_tracks Reconstruction.views].
  apply Nat.lt_le_trans with (size (Reconstruction.views r)).
  - unfold select_views. apply (size_filter_lt unestimated_view _ id v Hv).
    unfold unestimated_view. by rewrite He.
  - unfold Reconstruction.NumViews. rewrite <- !size_dom.
    by apply subseteq_size.
Qed.

Lemma PrepareReconstruction_fewer_views b b1 :
  PrepareReconstruction b = Returned b1 →
  Reconstruction.NumViews (reconstruction_ b1)
  ≤ Reconstruction.NumViews (reconstruction_ b).
Proof.
  rewrite PrepareReconstruction_spec.
  case_bool_decide; [|done].
  assert (∀ b0, RemoveUncalibratedViews b0 = Returned b1 →
                Reconstruction.NumViews (reconstruction_ b1)
                ≤ Reconstruction.NumViews (reconstruction_ b0)) as Hf.
  { intros b0. rewrite RemoveUncalibratedViews_eq. intros [= <-].
    apply size_select_views_le. }
  case_bool_decide.
  - destruct (track_builder_ b) as [tb|]; [|done]. cbn zeta.
    destruct (only_calibrated_views (options_ b)).
    + intros Hr%Hf. revert Hr.
      cbn [reconstruction_ set_reconstruction].
      unfold Reconstruction.NumViews. by rewrite views_BuildTracks.
    + intros [= <-]. cbn [reconstruction_ set_reconstruction].
      unfold Reconstruction.NumViews. by rewrite views_BuildTracks.
  - destruct (only_calibrated_views (options_ b)).
    + apply Hf.
    + by intros [= <-].
Qed.

(** X19. With an estimator that, whenever it reports success, has created
    no view and has flagged at least one view as estimated, every successful
    round leaves fewer views behind, so [BuildReconstruction] ends: given
    one unit of fuel for each view of the reconstruction it does not run out,
    and when the view graph has two views and the tracks exist or the track
    builder is still there, it returns an answer. *)
Theorem BuildReconstruction_ends_under_progress fuel b recs :
  Reconstruction.NumViews (reconstruction_ b) ≤ fuel →
  BuildReconstruction Estimate fuel b recs ≠ Timeout
  ∧ (2 ≤ ViewGraph.NumViews (view_graph_ b) →
     Reconstruction.NumTracks (reconstruction_ b) ≠ 0
     ∨ is_Some (track_builder_ b) →
     ∃ res, BuildReconstruction Estimate fuel b recs = Returned res).
Proof.
  intros Hfuel. unfold BuildReconstruction.
  assert (∀ b1, PrepareReconstruction b = Returned b1 →
                ∃ res, EstimationLoop Estimate fuel b1 recs = Returned res)
    as Hloop.
  { intros b1 Hb1. apply EstimationLoop_returns.
    - intros b0 _. apply harvest_shrinks.
    - apply PrepareReconstruction_fewer_views in Hb1. lia. }
  split.
  - destruct (PrepareReconstruction b) as [b1| |] eqn:Hp.
    + rewrite bind_Returned. destruct (Hloop b1 eq_refl) as [res ->]. done.
    + done.
    + exfalso. revert Hp. rewrite PrepareReconstruction_spec.
      case_bool_decide; [|done].
      case_bool_decide.
      * destruct (track_builder_ b); [|done]. cbn zeta.
        destruct (only_calibrated_views _); [|done].
        by rewrite RemoveUncalibratedViews_eq.
      * destruct (only_calibrated_views _); [|done].
        by rewrite RemoveUncalibratedViews_eq.
  - intros Hn Htr.
    assert (∃ b1, PrepareReconstruction b = Returned b1) as [b1 Hp].
    { rewrite PrepareReconstruction_spec.
      rewrite bool_decide_eq_true_2 by done.
      case_bool_decide as Ht.
      - destruct Htr as [Htr|[tb Htb]]; [done|]. rewrite Htb. cbn zeta.
        destruct (only_calibrated_views _); [|by eexists].
        rewrite RemoveUncalibratedViews_eq. by eexists.
      - destruct (only_calibrated_views _); [|by eexists].
        rewrite RemoveUncalibratedViews_eq. by eexists. }
    rewrite Hp, bind_Returned. by apply Hloop.
Qed.
End a_run_that_ends.

Lemma foldl_SetEstimated_flags l r id :
  is_Some (Reconstruction.views r !! id) →
  id ∈ l
  ∨ (∃ v, Reconstruction.views r !! id = Some v
          ∧ View.IsEstimated v = true) →
  ∃ v, Reconstruction.views
         (foldl (λ r id, Reconstruction.UpdateView r id
                           (View.SetEstimated true)) r l) !! id = Some v
       ∧ View.IsEstimated v = true.
Proof.
  revert r. induction l as [|k l IH]; intros r [v Hv] Hin; simpl.
  - destruct Hin as [Hin|Hin]; [|done]. by apply elem_of_nil in Hin.
  - apply IH.
    + unfold Reconstruction.UpdateView; simpl. rewrite lookup_alter.
      destruct (decide (k = id)) as [->|]; rewrite Hv; by eexists.
    + unfold Reconstruction.UpdateView; simpl. rewrite lookup_alter.
      destruct (decide (k = id)) as [->|Hne].
      * right. rewrite Hv. simpl. by eexists.
      * destruct Hin as [Hin|Hin]; [|by right].
        apply elem_of_cons in Hin as [->|Hin]; [done|by left].
Qed.

Lemma Mock_Estimate_progress w vg r :
  success (Mock.Estimate w vg r).1.1.1 = true →
  dom (Reconstruction.views (Mock.Estimate w vg r).1.2)
  ⊆ dom (Reconstruction.views r)
  ∧ ∃ id v, Reconstruction.View (Mock.Estimate w vg r).1.2 id = Some v
            ∧ View.IsEstimated v = true.
Proof.
  intros Hs. split; [apply Mock_Estimate_no_new_view|]. revert Hs.
  unfold Mock.Estimate.
  destruct (filter _ (Reconstruction.ViewIds r)) as [|id0 ids]; [done|].
  destruct (_ <? 2)%nat eqn:Hlen; [done|]. cbn [fst snd]. intros _.
  apply Nat.ltb_ge in Hlen.
  destruct (filter (λ id, id ∈ Mock.component vg (foldr N.min id0 ids))
                   (Reconstruction.ViewIds r)) as [|id l] eqn:Hf;
    [simpl in Hlen; lia|].
  assert (id ∈ filter (λ id, id ∈ Mock.component vg (foldr N.min id0 ids))
                      (Reconstruction.ViewIds r)) as Hin.
  { rewrite Hf. apply elem_of_cons. by left. }
  apply list_elem_of_filter in Hin as [_ Hin].
  unfold Reconstruction.ViewIds in Hin.
  apply list_elem_of_fmap in Hin as ([i v] & -> & Hin).
  apply elem_of_map_to_list in Hin. simpl in *.
  exists i. unfold Reconstruction.View.
  rewrite views_foldl_UpdateTrack.
  apply (foldl_SetEstimated_flags (i :: l) r i); [by eexists|].
  left. apply elem_of_cons. by left.
Qed.

(** The stand-in estimator makes progress, so the run on the scene with two
    components, which has six views, ends within six rounds. *)
Lemma BuildReconstruction_ends_under_progress_witness :
  BuildReconstruction Mock.Estimate 6
    (Mock.returned (Mock.three_and_three false)) [] ≠ Timeout.
Proof.
  apply (BuildReconstruction_ends_under_progress Mock.Estimate
           Mock_Estimate_progress 6
           (Mock.returned (Mock.three_and_three false)) []).
  vm_compute. lia.
Defined.
